(** * Transaction manager of the indexer: a shallow embedding

    Source: [packages/indexer-common/src/transactions.ts], class
    [TransactionManager].

    Conventions of the embedding.
    - An ethers [BigNumber] is a [Z]; [BigNumber.div] truncates towards zero
      and is [Z.quot]; [BigNumber.toNumber] raises outside the 53-bit range.
    - A JavaScript number that the code only uses as an integer (attempt
      counter, nonce of a sent transaction, configured ceilings) is a [Z].
    - A nullable or optional field is an [option].
    - JavaScript strings are Rocq strings; [toLocaleLowerCase] is modelled on
      the ASCII letters, the other bytes are left as they are.
    - [async] methods run in a monad [M] that threads the state of the outside
      world (scripted answers of the chain client and of the wallet, and a
      trace of every external call) and can raise.  A mutable object
      ([txConfig]) lives in the threaded state, so that what a method did to
      it is visible also when the method raises. *)

From Stdlib Require Import ZArith List String Ascii Bool Lia.
From Stdlib Require Import DecimalString.
Import ListNotations.

Local Open Scope string_scope.
Local Open Scope Z_scope.

(** ** JavaScript strings *)

Module Js.

(** [hay.includes(needle)] *)
Fixpoint includes (hay needle : string) : bool :=
  if String.prefix needle hay then true
  else match hay with
       | EmptyString => false
       | String _ rest => includes rest needle
       end.

(** [s.substr(n)]: the string without its first [n] characters. *)
Fixpoint substr (s : string) (n : nat) : string :=
  match n, s with
  | O, _ => s
  | S _, EmptyString => EmptyString
  | S n', String _ rest => substr rest n'
  end.

Definition lower_ascii (c : ascii) : ascii :=
  let n := nat_of_ascii c in
  if (andb (Nat.leb 65 n) (Nat.leb n 90)) then ascii_of_nat (n + 32) else c.

(** [s.toLocaleLowerCase()], on the ASCII letters. *)
Fixpoint toLocaleLowerCase (s : string) : string :=
  match s with
  | EmptyString => EmptyString
  | String c rest => String (lower_ascii c) (toLocaleLowerCase rest)
  end.

(** Template-literal rendering of a [BigNumber]: its decimal digits. *)
Definition showZ (z : Z) : string := NilZero.string_of_int (Z.to_int z).

(** Template-literal rendering of a [null | BigNumber] field. *)
Definition showNullable (o : option Z) : string :=
  match o with
  | None => "null"
  | Some z => showZ z
  end.

End Js.

(** ** Errors *)

(** Modelled from the spec: the error codes of [./errors] that this file
    raises ([./errors] is imported, its source is not part of the unit). *)
Inductive IndexerErrorCode : Type :=
| IE050  (* transaction reverted: out of gas *)
| IE051  (* transaction reverted: unknown reason *)
| IE057  (* transaction reverted: any other reason *)
| IE058. (* outcome of the original transaction unknown *)

(** A thrown value.  [IndexerError] is the class of [./errors] (a subclass of
    [Error], built by [indexerError code cause]); [Error] is any other error,
    with its [message] and the optional [body] that the chain client attaches
    to a failed RPC call. *)
Inductive JsError : Type :=
| IndexerError (code : IndexerErrorCode) (cause : option string)
| Error (message : string) (body : option string).

Definition indexerError (code : IndexerErrorCode) (cause : option string) : JsError :=
  IndexerError code cause.

(** [e.body] *)
Definition body (e : JsError) : option string :=
  match e with
  | IndexerError _ _ => None
  | Error _ b => b
  end.

(** The error raised by a property access or a method call on [undefined] or
    [null]. *)
Definition TypeError (what : string) : JsError :=
  Error ("TypeError: Cannot read properties of " ++ what) None.

Definition IndexerErrorCode_eqb (a b : IndexerErrorCode) : bool :=
  match a, b with
  | IE050, IE050 | IE051, IE051 | IE057, IE057 | IE058, IE058 => true
  | _, _ => false
  end.

(** ** Data *)

(** Modelled from the spec: the enumeration [TransactionType] of [./types]
    (legacy type 0x00 and fee-market type 0x02 transactions). *)
Inductive TransactionType : Type := ZERO | TWO.

(** [providers.FeeData] *)
Record FeeData : Type := mkFeeData {
  fd_gasPrice : option Z;
  fd_maxFeePerGas : option Z;
  fd_maxPriorityFeePerGas : option Z
}.

(** [providers.TransactionRequest], the fields the manager fills in. *)
Record TransactionRequest : Type := mkTransactionRequest {
  rq_value : Z;
  rq_to : option string;
  rq_data : string;
  rq_chainId : Z;
  rq_from : string;
  rq_nonce : Z;
  rq_gasPrice : option Z;
  rq_maxPriorityFeePerGas : option Z;
  rq_maxFeePerGas : option Z;
  rq_gasLimit : Z
}.

(** [ContractTransaction] (a transaction response), the fields the manager
    reads. *)
Record ContractTransaction : Type := mkContractTransaction {
  tx_hash : string;
  tx_nonce : Z;
  tx_maxFeePerGas : option Z;
  tx_maxPriorityFeePerGas : option Z;
  tx_gasPrice : option Z;
  tx_gasLimit : Z;
  tx_value : Z;
  tx_to : option string;
  tx_data : string;
  tx_chainId : Z;
  tx_from : string
}.

(** Modelled from the spec: the interface [TransactionConfig] of [./types],
    with the fields this file reads and writes.  [nonce] and [gasLimit] are
    copied from a transaction response, where they are always set; the fee
    fields are optional there. *)
Record TransactionConfig : Type := mkTransactionConfig {
  attempt : Z;
  type : TransactionType;
  gasBump : Z;
  nonce : Z;
  maxFeePerGas : option Z;
  maxPriorityFeePerGas : option Z;
  gasPrice : option Z;
  gasLimit : Z
}.

(** A log entry of a receipt ([providers.Log] or [Event]). *)
Record Log : Type := mkLog {
  topics : list string;
  data : string
}.

(** [ContractReceipt], the fields the manager reads: [status] is optional in
    ethers, [events] is optional and [logs] always there. *)
Record ContractReceipt : Type := mkContractReceipt {
  status : option Z;
  events : option (list Log);
  logs : list Log
}.

(** Modelled from the spec: [TransactionMonitoring] of
    [./network-specification], the four settings the manager reads. *)
Record TransactionMonitoring : Type := mkTransactionMonitoring {
  gasIncreaseTimeout : Z;
  gasPriceMax : Z;
  baseFeePerGasMax : option Z;
  maxTransactionAttempts : Z
}.

(** The fields of a [TransactionManager] that do not belong to the outside
    world (the provider, the wallet and the two eventuals do). *)
Record TransactionManager : Type := mkTransactionManager {
  specification : TransactionMonitoring;
  adjustedGasIncreaseFactor : Z;
  adjustedBaseFeePerGasMax : Z
}.

(** The constructor, given the fee-increase factor already scaled by
    [utils.parseUnits (_, 3)].
    [specification.baseFeePerGasMax || specification.gasPriceMax]: an unset
    or zero base-fee ceiling falls back to the gas-price ceiling. *)
Definition constructor (spec : TransactionMonitoring) (factorPermille : Z)
  : TransactionManager :=
  {| specification := spec;
     adjustedGasIncreaseFactor := factorPermille;
     adjustedBaseFeePerGasMax :=
       match baseFeePerGasMax spec with
       | Some 0 | None => gasPriceMax spec
       | Some v => v
       end |}.

(** ** The outside world *)

Inductive Level : Type := LInfo | LWarn | LWarning | LTrace.

(** Every call that leaves the manager, in the order of the source. *)
Inductive Event : Type :=
| EvLog (level : Level) (message : string)
| EvPausedValue
| EvIsOperatorValue
| EvGetFeeData
| EvDelay (ms : Z)
| EvGasEstimation
| EvTransaction (gasLimit : Z)
| EvSendTransaction (txRequest : TransactionRequest)
| EvWaitForTransaction (hash : string) (confirmations : Z) (timeout : Z)
| EvCall (txRequest : option TransactionRequest).

(** The world: the current value of the two eventuals, the answers that the
    collaborators will give to the next calls (in order; an exhausted script
    is a promise that never settles) and the trace of the calls made so far,
    the most recent first. *)
Record World : Type := mkWorld {
  w_paused : bool;
  w_isOperator : bool;
  w_getFeeData : list (JsError + FeeData);
  w_gasEstimation : list (JsError + Z);
  w_transaction : list (JsError + ContractTransaction);
  w_sendTransaction : list (JsError + ContractTransaction);
  w_waitForTransaction : list (JsError + ContractReceipt);
  w_call : list (JsError + string);
  w_trace : list Event
}.

(** ** The monad of [async] methods *)

Inductive Res (A : Type) : Type :=
| Return (a : A)        (* the promise resolves *)
| Throw (e : JsError)   (* the promise rejects *)
| Unsettled             (* an awaited collaborator never answers *)
| OutOfFuel.            (* the loop bound of the model was too small *)

Arguments Return {A} a.
Arguments Throw {A} e.
Arguments Unsettled {A}.
Arguments OutOfFuel {A}.

Definition M (S A : Type) : Type := S -> Res A * S.

Definition ret {S A : Type} (a : A) : M S A := fun s => (Return a, s).

Definition throw {S A : Type} (e : JsError) : M S A := fun s => (Throw e, s).

Definition bind {S A B : Type} (m : M S A) (k : A -> M S B) : M S B :=
  fun s =>
    match m s with
    | (Return a, s') => k a s'
    | (Throw e, s') => (Throw e, s')
    | (Unsettled, s') => (Unsettled, s')
    | (OutOfFuel, s') => (OutOfFuel, s')
    end.

(** [try { m } catch (error) { handler error }] *)
Definition try_catch {S A : Type} (m : M S A) (handler : JsError -> M S A) : M S A :=
  fun s =>
    match m s with
    | (Throw e, s') => handler e s'
    | r => r
    end.

Definition get {S : Type} : M S S := fun s => (Return s, s).

Definition modify {S : Type} (f : S -> S) : M S unit := fun s => (Return tt, f s).

(** Run a computation on a component of the state. *)
Definition zoom {S T A : Type} (proj : S -> T) (upd : T -> S -> S) (m : M T A) : M S A :=
  fun s => let (r, t') := m (proj s) in (r, upd t' s).

(** A synchronous operation that returns or raises. *)
Definition lift {S A : Type} (r : JsError + A) : M S A :=
  match r with
  | inl e => throw e
  | inr a => ret a
  end.

Declare Scope async_scope.
Delimit Scope async_scope with async.
Notation "x <- m ;; k" := (bind m (fun x => k))
  (at level 61, m at next level, right associativity) : async_scope.
Notation "m ;; k" := (bind m (fun _ => k))
  (at level 61, right associativity) : async_scope.
Local Open Scope async_scope.

(** *** World operations *)

Definition emit (ev : Event) : M World unit :=
  modify (fun w =>
    {| w_paused := w_paused w; w_isOperator := w_isOperator w;
       w_getFeeData := w_getFeeData w; w_gasEstimation := w_gasEstimation w;
       w_transaction := w_transaction w;
       w_sendTransaction := w_sendTransaction w;
       w_waitForTransaction := w_waitForTransaction w;
       w_call := w_call w; w_trace := ev :: w_trace w |}).

Definition log (level : Level) (message : string) : M World unit :=
  emit (EvLog level message).

(** [await delay(ms)] *)
Definition delay (ms : Z) : M World unit := emit (EvDelay ms).

(** Settle an awaited answer. *)
Definition settle {A : Type} (answer : option (JsError + A)) : M World A :=
  match answer with
  | None => fun w => (Unsettled, w)
  | Some r => lift r
  end.

(** [await this.paused.value()] *)
Definition paused_value : M World bool :=
  emit EvPausedValue ;; w <- get ;; ret (w_paused w).

(** [await this.isOperator.value()] *)
Definition isOperator_value : M World bool :=
  emit EvIsOperatorValue ;; w <- get ;; ret (w_isOperator w).

(** [await this.ethereum.getFeeData()] *)
Definition getFeeData : M World FeeData :=
  emit EvGetFeeData ;;
  w <- get ;;
  modify (fun w =>
    {| w_paused := w_paused w; w_isOperator := w_isOperator w;
       w_getFeeData := tl (w_getFeeData w); w_gasEstimation := w_gasEstimation w;
       w_transaction := w_transaction w;
       w_sendTransaction := w_sendTransaction w;
       w_waitForTransaction := w_waitForTransaction w;
       w_call := w_call w; w_trace := w_trace w |}) ;;
  settle (hd_error (w_getFeeData w)).

(** [await gasEstimation()] *)
Definition gasEstimation : M World Z :=
  emit EvGasEstimation ;;
  w <- get ;;
  modify (fun w =>
    {| w_paused := w_paused w; w_isOperator := w_isOperator w;
       w_getFeeData := w_getFeeData w; w_gasEstimation := tl (w_gasEstimation w);
       w_transaction := w_transaction w;
       w_sendTransaction := w_sendTransaction w;
       w_waitForTransaction := w_waitForTransaction w;
       w_call := w_call w; w_trace := w_trace w |}) ;;
  settle (hd_error (w_gasEstimation w)).

(** [await transaction(gasLimit)] *)
Definition transaction (gasLimit : Z) : M World ContractTransaction :=
  emit (EvTransaction gasLimit) ;;
  w <- get ;;
  modify (fun w =>
    {| w_paused := w_paused w; w_isOperator := w_isOperator w;
       w_getFeeData := w_getFeeData w; w_gasEstimation := w_gasEstimation w;
       w_transaction := tl (w_transaction w);
       w_sendTransaction := w_sendTransaction w;
       w_waitForTransaction := w_waitForTransaction w;
       w_call := w_call w; w_trace := w_trace w |}) ;;
  settle (hd_error (w_transaction w)).

(** [await this.wallet.sendTransaction(txRequest)] *)
Definition sendTransaction (txRequest : TransactionRequest) : M World ContractTransaction :=
  emit (EvSendTransaction txRequest) ;;
  w <- get ;;
  modify (fun w =>
    {| w_paused := w_paused w; w_isOperator := w_isOperator w;
       w_getFeeData := w_getFeeData w; w_gasEstimation := w_gasEstimation w;
       w_transaction := w_transaction w;
       w_sendTransaction := tl (w_sendTransaction w);
       w_waitForTransaction := w_waitForTransaction w;
       w_call := w_call w; w_trace := w_trace w |}) ;;
  settle (hd_error (w_sendTransaction w)).

(** [await this.ethereum.waitForTransaction(hash, confirmations, timeout)] *)
Definition waitForTransaction (hash : string) (confirmations timeout : Z)
  : M World ContractReceipt :=
  emit (EvWaitForTransaction hash confirmations timeout) ;;
  w <- get ;;
  modify (fun w =>
    {| w_paused := w_paused w; w_isOperator := w_isOperator w;
       w_getFeeData := w_getFeeData w; w_gasEstimation := w_gasEstimation w;
       w_transaction := w_transaction w;
       w_sendTransaction := w_sendTransaction w;
       w_waitForTransaction := tl (w_waitForTransaction w);
       w_call := w_call w; w_trace := w_trace w |}) ;;
  settle (hd_error (w_waitForTransaction w)).

(** [await this.ethereum.call(txRequest)] *)
Definition call (txRequest : option TransactionRequest) : M World string :=
  emit (EvCall txRequest) ;;
  w <- get ;;
  modify (fun w =>
    {| w_paused := w_paused w; w_isOperator := w_isOperator w;
       w_getFeeData := w_getFeeData w; w_gasEstimation := w_gasEstimation w;
       w_transaction := w_transaction w;
       w_sendTransaction := w_sendTransaction w;
       w_waitForTransaction := w_waitForTransaction w;
       w_call := tl (w_call w); w_trace := w_trace w |}) ;;
  settle (hd_error (w_call w)).

(** ** ethers helpers *)

(** [b.toNumber()]: raises when the value does not fit in 53 bits. *)
Definition toNumber (b : Z) : JsError + Z :=
  if Z.abs b <? 2 ^ 53 then inr b else inl (Error "overflow" None).

(** [BigNumber.from(v)] of an optional field: raises on [undefined]. *)
Definition BigNumber_from (v : option Z) : JsError + Z :=
  match v with
  | Some z => inr z
  | None => inl (Error "invalid BigNumber value" None)
  end.

(** [v!.m(...)]: the non-null assertion is erased, the call raises on
    [null]. *)
Definition nonNull (v : option Z) : JsError + Z :=
  match v with
  | Some z => inr z
  | None => inl (TypeError "null")
  end.

(** ** Fee policy *)

Definition isSome {A : Type} (o : option A) : bool :=
  match o with Some _ => true | None => false end.

(** [transactionType]: a [BigNumber] object is truthy whatever its value, so
    a field counts as soon as it is not [null]. *)
Definition transactionType (data : FeeData) : JsError + TransactionType :=
  if isSome (fd_maxPriorityFeePerGas data) && isSome (fd_maxFeePerGas data) then
    inr TWO
  else if isSome (fd_gasPrice data) then
    inr ZERO
  else
    inl (Error ("Network fee data failed validation: gasPrice: "
                ++ Js.showNullable (fd_gasPrice data)
                ++ ", maxPriorityFeePerGas: "
                ++ Js.showNullable (fd_maxPriorityFeePerGas data)
                ++ ", maxFeePerGass: "
                ++ Js.showNullable (fd_maxFeePerGas data)) None).

(** [feeData.gasPrice = null] *)
Definition clear_gasPrice (feeData : FeeData) : FeeData :=
  {| fd_gasPrice := None;
     fd_maxFeePerGas := fd_maxFeePerGas feeData;
     fd_maxPriorityFeePerGas := fd_maxPriorityFeePerGas feeData |}.

(** The loop of [waitForGasPricesBelowThreshold]; [attempt] is its local
    counter. *)
Fixpoint waitForGasPrices_loop (this : TransactionManager) (fuel : nat) (attempt : Z)
  : M World FeeData :=
  match fuel with
  | O => fun w => (OutOfFuel, w)
  | S fuel' =>
    feeData <- getFeeData ;;
    type <- lift (transactionType feeData) ;;
    match type with
    | TWO =>
      maxFee <- lift (nonNull (fd_maxFeePerGas feeData)) ;;
      maxPriority <- lift (nonNull (fd_maxPriorityFeePerGas feeData)) ;;
      let baseFeePerGas := Z.quot (maxFee - maxPriority) 2 in
      n <- lift (toNumber baseFeePerGas) ;;
      if n >=? adjustedBaseFeePerGasMax this then
        (if attempt =? 1 then
           log LWarning "Max base fee per gas has been reached, waiting until the base fee falls below to resume transaction execution."
         else
           log LInfo "Base gas fee per gas estimation still above max threshold") ;;
        delay 30000 ;;
        waitForGasPrices_loop this fuel' (attempt + 1)
      else
        ret (clear_gasPrice feeData)
    | ZERO =>
      gasPrice <- lift (nonNull (fd_gasPrice feeData)) ;;
      n <- lift (toNumber gasPrice) ;;
      if n >=? adjustedBaseFeePerGasMax this then
        (if attempt =? 1 then
           log LWarning "Max gas price has been reached, waiting until gas price estimates fall below to resume transaction execution."
         else
           log LInfo "Gas price estimation still above max threshold") ;;
        delay 30000 ;;
        waitForGasPrices_loop this fuel' (attempt + 1)
      else
        ret feeData
    end
  end.

(** [waitForGasPricesBelowThreshold].  Every turn of the loop awaits one
    answer of [getFeeData], so one turn more than there are scripted answers
    is enough. *)
Definition waitForGasPricesBelowThreshold (this : TransactionManager) : M World FeeData :=
  fun w => waitForGasPrices_loop this (S (List.length (w_getFeeData w))) 1 w.

(** ** Error classifier *)

(** The classifier works on the world and on the [txConfig] object it was
    handed, which it mutates in place. *)
Definition Classifier : Type := (World * TransactionConfig)%type.

Definition inWorld {A : Type} (m : M World A) : M Classifier A :=
  zoom fst (fun w s => (w, snd s)) m.

Definition txConfig_get : M Classifier TransactionConfig :=
  s <- get ;; ret (snd s).

Definition txConfig_set (f : TransactionConfig -> TransactionConfig) : M Classifier unit :=
  modify (fun s => (fst s, f (snd s))).

Definition set_attempt (v : Z) (c : TransactionConfig) : TransactionConfig :=
  {| attempt := v; type := type c; gasBump := gasBump c; nonce := nonce c;
     maxFeePerGas := maxFeePerGas c; maxPriorityFeePerGas := maxPriorityFeePerGas c;
     gasPrice := gasPrice c; gasLimit := gasLimit c |}.

Definition set_nonce (v : Z) (c : TransactionConfig) : TransactionConfig :=
  {| attempt := attempt c; type := type c; gasBump := gasBump c; nonce := v;
     maxFeePerGas := maxFeePerGas c; maxPriorityFeePerGas := maxPriorityFeePerGas c;
     gasPrice := gasPrice c; gasLimit := gasLimit c |}.

Definition set_gasLimit (v : Z) (c : TransactionConfig) : TransactionConfig :=
  {| attempt := attempt c; type := type c; gasBump := gasBump c; nonce := nonce c;
     maxFeePerGas := maxFeePerGas c; maxPriorityFeePerGas := maxPriorityFeePerGas c;
     gasPrice := gasPrice c; gasLimit := v |}.

Definition set_gasPrice (v : option Z) (c : TransactionConfig) : TransactionConfig :=
  {| attempt := attempt c; type := type c; gasBump := gasBump c; nonce := nonce c;
     maxFeePerGas := maxFeePerGas c; maxPriorityFeePerGas := maxPriorityFeePerGas c;
     gasPrice := v; gasLimit := gasLimit c |}.

Definition set_maxFeePerGas (v : option Z) (c : TransactionConfig) : TransactionConfig :=
  {| attempt := attempt c; type := type c; gasBump := gasBump c; nonce := nonce c;
     maxFeePerGas := v; maxPriorityFeePerGas := maxPriorityFeePerGas c;
     gasPrice := gasPrice c; gasLimit := gasLimit c |}.

Definition set_maxPriorityFeePerGas (v : option Z) (c : TransactionConfig) : TransactionConfig :=
  {| attempt := attempt c; type := type c; gasBump := gasBump c; nonce := nonce c;
     maxFeePerGas := maxFeePerGas c; maxPriorityFeePerGas := v;
     gasPrice := gasPrice c; gasLimit := gasLimit c |}.

(** [value.mul(txConfig.gasBump).div(1000)] *)
Definition bump (value factor : Z) : Z := Z.quot (value * factor) 1000.

(** The three tests that [updateTransactionConfig] makes on the message of an
    error that is not an [IndexerError], in the order it makes them. *)
Definition isAlreadyBroadcast (message : string) : bool :=
  Js.includes message "Transaction with the same hash was already imported"
  || Js.includes message "nonce has already been used".

Definition isNonceTooLow (message : string) : bool :=
  Js.includes message "Transaction nonce is too low. Try incrementing the nonce.".

Definition isFeeTooLow (message : string) : bool :=
  Js.includes message "Try increasing the fee"
  || Js.includes message "gas price supplied is too low"
  || Js.includes message "timeout exceeded".

(** [updateTransactionConfig(logger, txConfig, error)]; the object [txConfig]
    is the second component of the state, and is what the method returns. *)
Definition updateTransactionConfig (error : JsError) : M Classifier TransactionConfig :=
  inWorld (log LWarning "Failed to send transaction, evaluating retry possibilities") ;;
  match error with
  | IndexerError code _ =>
    if IndexerErrorCode_eqb code IE050 then
      txConfig <- txConfig_get ;;
      txConfig_set (set_gasLimit (bump (gasLimit txConfig) (gasBump txConfig))) ;;
      txConfig <- txConfig_get ;;
      txConfig_set (set_nonce (nonce txConfig + 1))
    else if IndexerErrorCode_eqb code IE051 then
      throw error
    else
      ret tt
  | Error message _ =>
    if isAlreadyBroadcast message then
      inWorld (delay 30000) ;;
      throw (indexerError IE058
               (Some "Original transaction was not confirmed though it may have been successful"))
    else if isNonceTooLow message then
      txConfig <- txConfig_get ;;
      txConfig_set (set_nonce (nonce txConfig + 1))
    else if isFeeTooLow message then
      txConfig <- txConfig_get ;;
      match type txConfig with
      | ZERO =>
        price <- lift (BigNumber_from (gasPrice txConfig)) ;;
        txConfig_set (set_gasPrice (Some (bump price (gasBump txConfig))))
      | TWO =>
        maxFee <- lift (BigNumber_from (maxFeePerGas txConfig)) ;;
        txConfig_set (set_maxFeePerGas (Some (bump maxFee (gasBump txConfig)))) ;;
        maxPriority <- lift (BigNumber_from (maxPriorityFeePerGas txConfig)) ;;
        txConfig_set (set_maxPriorityFeePerGas (Some (bump maxPriority (gasBump txConfig))))
      end
    else
      ret tt
  end ;;
  txConfig <- txConfig_get ;;
  txConfig_set (set_attempt (attempt txConfig + 1)) ;;
  txConfig_get.

(** ** Submission engine *)

(** What [executeTransaction] resolves to: one of the two strings, or the
    local [output], which is a receipt or still [undefined]. *)
Inductive ExecResult : Type :=
| RPaused
| RUnauthorized
| ROutput (output : option ContractReceipt).

(** The local variables of [executeTransaction] that its loop assigns,
    together with the world. *)
Record Frame : Type := mkFrame {
  f_world : World;
  f_pending : bool;
  f_output : option ContractReceipt;
  f_tx : ContractTransaction;
  f_txRequest : option TransactionRequest;
  f_txConfig : TransactionConfig
}.

Definition set_world (w : World) (f : Frame) : Frame :=
  {| f_world := w; f_pending := f_pending f; f_output := f_output f;
     f_tx := f_tx f; f_txRequest := f_txRequest f; f_txConfig := f_txConfig f |}.

Definition set_pending (b : bool) (f : Frame) : Frame :=
  {| f_world := f_world f; f_pending := b; f_output := f_output f;
     f_tx := f_tx f; f_txRequest := f_txRequest f; f_txConfig := f_txConfig f |}.

Definition set_output (o : option ContractReceipt) (f : Frame) : Frame :=
  {| f_world := f_world f; f_pending := f_pending f; f_output := o;
     f_tx := f_tx f; f_txRequest := f_txRequest f; f_txConfig := f_txConfig f |}.

Definition set_tx (tx : ContractTransaction) (f : Frame) : Frame :=
  {| f_world := f_world f; f_pending := f_pending f; f_output := f_output f;
     f_tx := tx; f_txRequest := f_txRequest f; f_txConfig := f_txConfig f |}.

Definition set_txRequest (r : option TransactionRequest) (f : Frame) : Frame :=
  {| f_world := f_world f; f_pending := f_pending f; f_output := f_output f;
     f_tx := f_tx f; f_txRequest := r; f_txConfig := f_txConfig f |}.

Definition set_txConfig (c : TransactionConfig) (f : Frame) : Frame :=
  {| f_world := f_world f; f_pending := f_pending f; f_output := f_output f;
     f_tx := f_tx f; f_txRequest := f_txRequest f; f_txConfig := c |}.

Definition world {A : Type} (m : M World A) : M Frame A :=
  zoom f_world set_world m.

(** The classifier sees the world and the [txConfig] object of the frame. *)
Definition classifier {A : Type} (m : M Classifier A) : M Frame A :=
  zoom (fun f => (f_world f, f_txConfig f))
       (fun s f => set_txConfig (snd s) (set_world (fst s) f)) m.

(** [Math.ceil(n * 1.5)] on an integer [n] (the estimate is far below the
    range where the product is rounded). *)
Definition pad (n : Z) : Z := - ((- (3 * n)) / 2).

(** [receipt.status == 0]: an absent status is not zero. *)
Definition status_is_zero (receipt : ContractReceipt) : bool :=
  match status receipt with
  | Some s => s =? 0
  | None => false
  end.

Section Engine.

(** [utils.toUtf8String] of ethers, on a hex string: the text, or an error
    on bytes that are not UTF-8. *)
Variable toUtf8String : string -> JsError + string.

(** [getRevertReason(logger, txRequest)]; the caller's cast
    [txRequest as providers.TransactionRequest] is erased, so the argument
    may be [undefined]. *)
Definition getRevertReason (txRequest : option TransactionRequest) : M World string :=
  revertReason <-
    try_catch
      (code <- call txRequest ;;
       lift (toUtf8String ("0x" ++ Js.substr code 138)))
      (fun e =>
         match body e with
         | None => throw (TypeError "undefined (reading 'includes')")
         | Some b =>
           if Js.includes b "out of gas" then ret "out of gas"
           else throw (indexerError IE051 None)
         end) ;;
  log LWarn "Transaction reverted:" ;;
  ret revertReason.

(** The request that a retry sends: the payload of the last sent transaction
    with the nonce, the fees and the gas limit of [txConfig]. *)
Definition retryRequest (tx : ContractTransaction) (txConfig : TransactionConfig)
  : TransactionRequest :=
  {| rq_value := tx_value tx;
     rq_to := tx_to tx;
     rq_data := tx_data tx;
     rq_chainId := tx_chainId tx;
     rq_from := tx_from tx;
     rq_nonce := nonce txConfig;
     rq_gasPrice := gasPrice txConfig;
     rq_maxPriorityFeePerGas := maxPriorityFeePerGas txConfig;
     rq_maxFeePerGas := maxFeePerGas txConfig;
     rq_gasLimit := gasLimit txConfig |}.

(** The [if (txConfig.attempt > 1)] block that opens the [try]. *)
Definition resubmit : M Frame unit :=
  f <- get ;;
  if attempt (f_txConfig f) >? 1 then
    world (log LInfo "Resubmitting transaction") ;;
    let txRequest := retryRequest (f_tx f) (f_txConfig f) in
    modify (set_txRequest (Some txRequest)) ;;
    tx <- world (sendTransaction txRequest) ;;
    modify (set_tx tx)
  else
    ret tt.

(** The body of the [try] in the loop of [executeTransaction]. *)
Definition attempt_try (this : TransactionManager) : M Frame unit :=
  resubmit ;;
  world (log LInfo "Transaction pending") ;;
  f <- get ;;
  receipt <- world (waitForTransaction (tx_hash (f_tx f)) 3
                      (gasIncreaseTimeout (specification this))) ;;
  (if status_is_zero receipt then
     f <- get ;;
     revertReason <- world (getRevertReason (f_txRequest f)) ;;
     if String.eqb revertReason "out of gas" then
       throw (indexerError IE050 None)
     else if String.eqb revertReason "unknown" then
       throw (indexerError IE051 None)
     else
       throw (indexerError IE057 None)
   else
     ret tt) ;;
  world (log LInfo "Transaction successfully included in block") ;;
  modify (set_output (Some receipt)) ;;
  modify (set_pending false).

(** The [catch] clause: [txConfig = await this.updateTransactionConfig(...)]. *)
Definition attempt_catch (error : JsError) : M Frame unit :=
  txConfig <- classifier (updateTransactionConfig error) ;;
  modify (set_txConfig txConfig).

(** The attempt-limit test at the head of the loop. *)
Definition limit_reached (this : TransactionManager) (txConfig : TransactionConfig) : bool :=
  negb (maxTransactionAttempts (specification this) =? 0)
  && (attempt txConfig >? maxTransactionAttempts (specification this)).

(** [while (pending) { ... }] *)
Fixpoint executeTransaction_loop (this : TransactionManager) (fuel : nat) : M Frame unit :=
  match fuel with
  | O => fun f => (OutOfFuel, f)
  | S fuel' =>
    f <- get ;;
    if f_pending f then
      if limit_reached this (f_txConfig f) then
        world (log LWarn "Transaction retry limit reached, giving up") ;;
        world (delay 30000)
      else
        try_catch (attempt_try this) attempt_catch ;;
        executeTransaction_loop this fuel'
    else
      ret tt
  end.

(** Every turn of the loop that is followed by another one has awaited an
    answer of [sendTransaction] or of [waitForTransaction]. *)
Definition loop_fuel (w : World) : nat :=
  S (List.length (w_sendTransaction w) + List.length (w_waitForTransaction w)).

(** [return output!] once the loop is left: the method resolves to the local
    [output]. *)
Definition return_output (left : Res unit * Frame) : Res ExecResult * World :=
  match left with
  | (Return _, f) => (Return (ROutput (f_output f)), f_world f)
  | (Throw e, f) => (Throw e, f_world f)
  | (Unsettled, f) => (Unsettled, f_world f)
  | (OutOfFuel, f) => (OutOfFuel, f_world f)
  end.

(** From the first transaction on: the locals as they are initialised, the
    loop and [return output!]. *)
Definition submit (this : TransactionManager) (tx : ContractTransaction)
    (txConfig : TransactionConfig) : M World ExecResult :=
  fun w =>
    return_output
      (executeTransaction_loop this (loop_fuel w)
         {| f_world := w; f_pending := true; f_output := None;
            f_tx := tx; f_txRequest := None; f_txConfig := txConfig |}).

(** Between the two gates and the loop: fee policy, padded gas estimate,
    first transaction and the initial [txConfig]. *)
Definition prepare (this : TransactionManager)
  : M World (ContractTransaction * TransactionConfig) :=
  feeData <- waitForGasPricesBelowThreshold this ;;
  estimate <- gasEstimation ;;
  n <- lift (toNumber estimate) ;;
  let paddedGasLimit := pad n in
  tx <- transaction paddedGasLimit ;;
  type <- lift (transactionType feeData) ;;
  let txConfig :=
    {| attempt := 1;
       type := type;
       gasBump := adjustedGasIncreaseFactor this;
       nonce := tx_nonce tx;
       maxFeePerGas := tx_maxFeePerGas tx;
       maxPriorityFeePerGas := tx_maxPriorityFeePerGas tx;
       gasPrice := tx_gasPrice tx;
       gasLimit := tx_gasLimit tx |} in
  log LInfo "Sending transaction" ;;
  ret (tx, txConfig).

(** [executeTransaction(gasEstimation, transaction, logger)] *)
Definition executeTransaction (this : TransactionManager) : M World ExecResult :=
  isPaused <- paused_value ;;
  if isPaused then
    log LInfo "Network is paused, skipping this action" ;;
    ret RPaused
  else
    isOperator <- isOperator_value ;;
    if negb isOperator then
      log LInfo "Not authorized as an operator for indexer, skipping this action" ;;
      ret RUnauthorized
    else
      prepared <- prepare this ;;
      submit this (fst prepared) (snd prepared).

End Engine.

(** ** Event extractor *)

(** A decoded argument of an event ([any] in [utils.Result]): only a string
    has a [toLocaleLowerCase] method. *)
Inductive Value : Type :=
| VString (s : string)
| VBigNumber (n : Z)
| VBoolean (b : bool).

(** [utils.Result]: the decoded arguments of an event, in the order of the
    ABI, each under its name. *)
Definition Result : Type := list (string * Value).

(** [utils.Interface], the two methods [findEvent] calls. *)
Record Interface : Type := mkInterface {
  getEventTopic : string -> string;
  decodeEventLog : string -> string -> list string -> JsError + Result
}.

(** [eventLogs[logKey]] *)
Fixpoint at_key (eventLogs : Result) (logKey : string) : option Value :=
  match eventLogs with
  | [] => None
  | (k, v) :: rest => if String.eqb k logKey then Some v else at_key rest logKey
  end.

(** [event.topics.includes(expectedTopic)] *)
Definition topics_include (expectedTopic : string) (event : Log) : bool :=
  existsb (String.eqb expectedTopic) (topics event).

(** [Array.prototype.map] with a callback that can raise: the first error
    ends the traversal. *)
Fixpoint map_raising {A B : Type} (f : A -> JsError + B) (l : list A) : JsError + list B :=
  match l with
  | [] => inr []
  | a :: rest =>
    match f a with
    | inl e => inl e
    | inr b =>
      match map_raising f rest with
      | inl e => inl e
      | inr bs => inr (b :: bs)
      end
    end
  end.

(** The predicate handed to [find]:
    [eventLogs[logKey].toLocaleLowerCase() === logValue.toLocaleLowerCase()]. *)
Definition field_matches (logKey logValue : string) (eventLogs : Result) : JsError + bool :=
  match at_key eventLogs logKey with
  | None => inl (TypeError "undefined (reading 'toLocaleLowerCase')")
  | Some (VString s) =>
    inr (String.eqb (Js.toLocaleLowerCase s) (Js.toLocaleLowerCase logValue))
  | Some _ => inl (Error "TypeError: eventLogs[logKey].toLocaleLowerCase is not a function" None)
  end.

(** [Array.prototype.find] with a predicate that can raise. *)
Fixpoint find_raising {A : Type} (p : A -> JsError + bool) (l : list A) : JsError + option A :=
  match l with
  | [] => inr None
  | a :: rest =>
    match p a with
    | inl e => inl e
    | inr true => inr (Some a)
    | inr false => find_raising p rest
    end
  end.

(** [receipt.events || receipt.logs]: an array is truthy also when empty. *)
Definition receipt_events (receipt : ContractReceipt) : list Log :=
  match events receipt with
  | Some evs => evs
  | None => logs receipt
  end.

(** [findEvent(eventType, contractInterface, logKey, logValue, receipt, logger)] *)
Definition findEvent (eventType : string) (contractInterface : Interface)
    (logKey logValue : string) (receipt : ContractReceipt)
  : M World (option Result) :=
  let events := receipt_events receipt in
  let expectedTopic := getEventTopic contractInterface eventType in
  decoded <- lift (map_raising
                     (fun event => decodeEventLog contractInterface eventType
                                     (data event) (topics event))
                     (filter (topics_include expectedTopic) events)) ;;
  result <- lift (find_raising (field_matches logKey logValue) decoded) ;;
  log LTrace "Searched for event logs" ;;
  ret result.

(** ** Vocabulary of the statements *)

(** The world after the calls [evs] (the most recent first) were recorded. *)
Definition record_events (evs : list Event) (w : World) : World :=
  {| w_paused := w_paused w; w_isOperator := w_isOperator w;
     w_getFeeData := w_getFeeData w; w_gasEstimation := w_gasEstimation w;
     w_transaction := w_transaction w;
     w_sendTransaction := w_sendTransaction w;
     w_waitForTransaction := w_waitForTransaction w;
     w_call := w_call w; w_trace := evs ++ w_trace w |}.

(** The world after [n] answers of [getFeeData] were consumed. *)
Definition drop_getFeeData (n : nat) (w : World) : World :=
  {| w_paused := w_paused w; w_isOperator := w_isOperator w;
     w_getFeeData := skipn n (w_getFeeData w); w_gasEstimation := w_gasEstimation w;
     w_transaction := w_transaction w;
     w_sendTransaction := w_sendTransaction w;
     w_waitForTransaction := w_waitForTransaction w;
     w_call := w_call w; w_trace := w_trace w |}.

(** The world after the next answer of [waitForTransaction] was taken. *)
Definition took_receipt (w : World) : World :=
  {| w_paused := w_paused w; w_isOperator := w_isOperator w;
     w_getFeeData := w_getFeeData w; w_gasEstimation := w_gasEstimation w;
     w_transaction := w_transaction w;
     w_sendTransaction := w_sendTransaction w;
     w_waitForTransaction := tl (w_waitForTransaction w);
     w_call := w_call w; w_trace := w_trace w |}.

(** The world after the next answer of [call] was taken. *)
Definition took_call (w : World) : World :=
  {| w_paused := w_paused w; w_isOperator := w_isOperator w;
     w_getFeeData := w_getFeeData w; w_gasEstimation := w_gasEstimation w;
     w_transaction := w_transaction w;
     w_sendTransaction := w_sendTransaction w;
     w_waitForTransaction := w_waitForTransaction w;
     w_call := tl (w_call w); w_trace := w_trace w |}.

Definition is_delay (ev : Event) : bool :=
  match ev with
  | EvDelay _ => true
  | _ => false
  end.

(** How many times the trace waited. *)
Definition waits (trace : list Event) : nat :=
  List.length (filter is_delay trace).

Definition is_poll (ev : Event) : bool :=
  match ev with
  | EvGetFeeData => true
  | _ => false
  end.

(** How many times the trace asked for fee data. *)
Definition polls (trace : list Event) : nat :=
  List.length (filter is_poll trace).

(** The reference fee of a snapshot, as [waitForGasPricesBelowThreshold]
    compares it with the ceiling: half the difference of the two fee-market
    fields, or the gas price of a legacy snapshot. *)
Definition referenceFee (feeData : FeeData) : option Z :=
  match transactionType feeData with
  | inr TWO =>
    match fd_maxFeePerGas feeData, fd_maxPriorityFeePerGas feeData with
    | Some maxFee, Some maxPriority => Some (Z.quot (maxFee - maxPriority) 2)
    | _, _ => None
    end
  | inr ZERO => fd_gasPrice feeData
  | inl _ => None
  end.



(** A computation that only adds to the trace, whatever its outcome. *)
Definition extends {S A : Type} (trace_of : S -> list Event) (m : M S A) : Prop :=
  forall s r s', m s = (r, s') -> exists evs, trace_of s' = (evs ++ trace_of s)%list.

Definition frame_trace (f : Frame) : list Event := w_trace (f_world f).

Definition classifier_trace (s : Classifier) : list Event := w_trace (fst s).

(** Two frames with the same [pending] and the same [output]. *)
Definition locals_kept (f f' : Frame) : Prop :=
  f_pending f' = f_pending f /\ f_output f' = f_output f.

(** A computation that assigns neither [pending] nor [output]. *)
Definition keeps {A : Type} (m : M Frame A) : Prop :=
  forall f r f', m f = (r, f') -> locals_kept f f'.

(** A computation that either leaves with [pending] false, or does not
    return and assigns neither [pending] nor [output]. *)
Definition settles_or_keeps {A : Type} (m : M Frame A) : Prop :=
  forall f r f', m f = (r, f') ->
    match r with
    | Return _ => f_pending f' = false
    | _ => locals_kept f f'
    end.

(** The answers of the wallet and of the confirmation wait that are left. *)
Definition budget (w : World) : nat :=
  (List.length (w_sendTransaction w) + List.length (w_waitForTransaction w))%nat.

(** Three ways a computation can use up that budget before it returns or
    raises: never adding to it; raising only after an answer was taken;
    finishing only after an answer was taken.  None of them runs out of
    fuel. *)
Definition spends_none {S A : Type} (budget_of : S -> nat) (m : M S A) : Prop :=
  forall s r s', m s = (r, s') ->
    match r with
    | Return _ | Throw _ => (budget_of s' <= budget_of s)%nat
    | Unsettled => True
    | OutOfFuel => False
    end.

Definition spends_to_raise {S A : Type} (budget_of : S -> nat) (m : M S A) : Prop :=
  forall s r s', m s = (r, s') ->
    match r with
    | Return _ => (budget_of s' <= budget_of s)%nat
    | Throw _ => (budget_of s' < budget_of s)%nat
    | Unsettled => True
    | OutOfFuel => False
    end.

Definition spends_one {S A : Type} (budget_of : S -> nat) (m : M S A) : Prop :=
  forall s r s', m s = (r, s') ->
    match r with
    | Return _ | Throw _ => (budget_of s' < budget_of s)%nat
    | Unsettled => True
    | OutOfFuel => False
    end.

(** A computation whose loops, if any, are given enough fuel. *)
Definition fueled {S A : Type} (m : M S A) : Prop :=
  forall s, fst (m s) <> OutOfFuel.

Definition frame_budget (f : Frame) : nat := budget (f_world f).

Definition classifier_budget (s : Classifier) : nat := budget (fst s).

(** The frame in which the loop of [executeTransaction] starts. *)
Definition initial_frame (w : World) (tx : ContractTransaction)
    (txConfig : TransactionConfig) : Frame :=
  {| f_world := w; f_pending := true; f_output := None;
     f_tx := tx; f_txRequest := None; f_txConfig := txConfig |}.

(** The frames in which the loop of [executeTransaction] tests its condition:
    the initial one, and the one each completed turn leaves. *)
Inductive loop_head (toUtf8String : string -> JsError + string)
    (this : TransactionManager) (start : Frame) : Frame -> Prop :=
| head_start : loop_head toUtf8String this start start
| head_next (f f' : Frame) :
    loop_head toUtf8String this start f ->
    f_pending f = true ->
    limit_reached this (f_txConfig f) = false ->
    try_catch (attempt_try toUtf8String this) attempt_catch f = (Return tt, f') ->
    loop_head toUtf8String this start f'.



(** What every run of the classifier records first. *)
Definition classifier_log : Event :=
  EvLog LWarning "Failed to send transaction, evaluating retry possibilities".

(** The configuration after a fee bump of a legacy transaction. *)
Definition legacy_bumped (c : TransactionConfig) (price : Z) : TransactionConfig :=
  {| attempt := attempt c + 1; type := type c; gasBump := gasBump c; nonce := nonce c;
     maxFeePerGas := maxFeePerGas c; maxPriorityFeePerGas := maxPriorityFeePerGas c;
     gasPrice := Some (Z.quot (price * gasBump c) 1000); gasLimit := gasLimit c |}.

(** The configuration after a fee bump of a fee-market transaction. *)
Definition modern_bumped (c : TransactionConfig) (maxFee maxPriority : Z) : TransactionConfig :=
  {| attempt := attempt c + 1; type := type c; gasBump := gasBump c; nonce := nonce c;
     maxFeePerGas := Some (Z.quot (maxFee * gasBump c) 1000);
     maxPriorityFeePerGas := Some (Z.quot (maxPriority * gasBump c) 1000);
     gasPrice := gasPrice c; gasLimit := gasLimit c |}.

(** The [txConfig] object after the classifier ran on it. *)
Definition classified (error : JsError) (w : World) (c : TransactionConfig) : TransactionConfig :=
  snd (snd (updateTransactionConfig error (w, c))).

(** The configuration after a nonce correction. *)
Definition nonce_bumped (c : TransactionConfig) : TransactionConfig :=
  {| attempt := attempt c + 1; type := type c; gasBump := gasBump c; nonce := nonce c + 1;
     maxFeePerGas := maxFeePerGas c; maxPriorityFeePerGas := maxPriorityFeePerGas c;
     gasPrice := gasPrice c; gasLimit := gasLimit c |}.

(** The calls that work on a submission: fee policy, gas estimator,
    transaction builder, wallet and chain client. *)
Definition is_submission_call (ev : Event) : bool :=
  match ev with
  | EvGetFeeData | EvGasEstimation | EvTransaction _ | EvSendTransaction _
  | EvWaitForTransaction _ _ _ | EvCall _ => true
  | EvLog _ _ | EvPausedValue | EvIsOperatorValue | EvDelay _ => false
  end.

Definition submission_calls (w : World) : list Event :=
  filter is_submission_call (w_trace w).

(** ** Scenarios *)

Module Scenario.

Definition hex_digit (c : ascii) : option nat :=
  let n := nat_of_ascii c in
  if (andb (Nat.leb 48 n) (Nat.leb n 57)) then Some (n - 48)%nat
  else if (andb (Nat.leb 97 n) (Nat.leb n 102)) then Some (n - 87)%nat
  else if (andb (Nat.leb 65 n) (Nat.leb n 70)) then Some (n - 55)%nat
  else None.

Fixpoint hex_bytes (s : string) : option string :=
  match s with
  | EmptyString => Some EmptyString
  | String hi (String lo rest) =>
    match hex_digit hi, hex_digit lo, hex_bytes rest with
    | Some h, Some l, Some text =>
      if Nat.ltb (16 * h + l) 128 then Some (String (ascii_of_nat (16 * h + l)) text)
      else None
    | _, _, _ => None
    end
  | String _ EmptyString => None
  end.

(** [utils.toUtf8String] on hex strings that spell ASCII text; anything else
    is refused here. *)
Definition toUtf8String (hex : string) : JsError + string :=
  match hex with
  | String "0" (String "x" digits) =>
    match hex_bytes digits with
    | Some text => inr text
    | None => inl (Error "invalid codepoint" None)
    end
  | _ => inl (Error "invalid arrayify value" None)
  end.

Definition monitoring (limit : Z) : TransactionMonitoring :=
  {| gasIncreaseTimeout := 240000; gasPriceMax := 100;
     baseFeePerGasMax := Some 100; maxTransactionAttempts := limit |}.

(** A manager with ceiling 100 and fee-increase factor 1.2. *)
Definition manager (limit : Z) : TransactionManager :=
  constructor (monitoring limit) 1200.

Definition legacy (price : Z) : FeeData :=
  {| fd_gasPrice := Some price; fd_maxFeePerGas := None; fd_maxPriorityFeePerGas := None |}.

Definition modern (maxFee maxPriority : Z) : FeeData :=
  {| fd_gasPrice := Some 7; fd_maxFeePerGas := Some maxFee;
     fd_maxPriorityFeePerGas := Some maxPriority |}.

Definition idle : World :=
  {| w_paused := false; w_isOperator := true;
     w_getFeeData := []; w_gasEstimation := []; w_transaction := [];
     w_sendTransaction := []; w_waitForTransaction := []; w_call := [];
     w_trace := [] |}.

Definition polling (answers : list FeeData) : World :=
  {| w_paused := false; w_isOperator := true;
     w_getFeeData := map inr answers; w_gasEstimation := []; w_transaction := [];
     w_sendTransaction := []; w_waitForTransaction := []; w_call := [];
     w_trace := [] |}.

Definition sent (hash : string) (nonce : Z) : ContractTransaction :=
  {| tx_hash := hash; tx_nonce := nonce;
     tx_maxFeePerGas := None; tx_maxPriorityFeePerGas := None;
     tx_gasPrice := Some 100; tx_gasLimit := 150000;
     tx_value := 0; tx_to := Some "0xstaking"; tx_data := "0xallocate";
     tx_chainId := 1; tx_from := "0xoperator" |}.

Definition legacyConfig : TransactionConfig :=
  {| attempt := 1; type := ZERO; gasBump := 1200; nonce := 7;
     maxFeePerGas := None; maxPriorityFeePerGas := None;
     gasPrice := Some 100; gasLimit := 150000 |}.

Definition modernConfig : TransactionConfig :=
  {| attempt := 1; type := TWO; gasBump := 1200; nonce := 7;
     maxFeePerGas := Some 300; maxPriorityFeePerGas := Some 15;
     gasPrice := None; gasLimit := 150000 |}.

Definition reverted : ContractReceipt :=
  {| status := Some 0; events := None; logs := [] |}.

Definition included : ContractReceipt :=
  {| status := Some 1; events := None; logs := [] |}.

(** A paused network, with a submission that would go through otherwise. *)
Definition halted : World :=
  {| w_paused := true; w_isOperator := true;
     w_getFeeData := [inr (legacy 90)];
     w_gasEstimation := [inr 100000];
     w_transaction := [inr (sent "0xaa" 7)];
     w_sendTransaction := [];
     w_waitForTransaction := [inr included];
     w_call := [];
     w_trace := [] |}.

(** The same with an active network and a wallet that is not an operator. *)
Definition stranger : World :=
  {| w_paused := false; w_isOperator := false;
     w_getFeeData := [inr (legacy 90)];
     w_gasEstimation := [inr 100000];
     w_transaction := [inr (sent "0xaa" 7)];
     w_sendTransaction := [];
     w_waitForTransaction := [inr included];
     w_call := [];
     w_trace := [] |}.

(** The return data of a replayed call that reverted with [Error(string)]:
    the selector and the two head words (138 characters with the prefix),
    then the text, here the six letters of "paused". *)
Definition revert_data : string :=
  "0x08c379a0"
  ++ "0000000000000000000000000000000000000000000000000000000000000020"
  ++ "0000000000000000000000000000000000000000000000000000000000000006"
  ++ "706175736564".

(** A submission whose first transaction is mined and reverts with the
    reason "paused", and whose resubmission is mined successfully. *)
Definition revert_then_success : World :=
  {| w_paused := false; w_isOperator := true;
     w_getFeeData := [inr (legacy 90)];
     w_gasEstimation := [inr 100000];
     w_transaction := [inr (sent "0xaa" 7)];
     w_sendTransaction := [inr (sent "0xbb" 7)];
     w_waitForTransaction := [inr reverted; inr included];
     w_call := [inr revert_data];
     w_trace := [] |}.

(** A submission whose first transaction is mined and reverts. *)
Definition first_attempt_reverts : World :=
  {| w_paused := false; w_isOperator := true;
     w_getFeeData := [inr (legacy 90)];
     w_gasEstimation := [inr 100000];
     w_transaction := [inr (sent "0xaa" 7)];
     w_sendTransaction := [];
     w_waitForTransaction := [inr reverted];
     w_call := [inl (Error "missing revert data" (Some "execution reverted"))];
     w_trace := [] |}.

(** A submission with attempt limit 2 whose two attempts both time out while
    waiting for confirmations. *)
Definition two_timeouts : World :=
  {| w_paused := false; w_isOperator := true;
     w_getFeeData := [inr (legacy 90)];
     w_gasEstimation := [inr 100000];
     w_transaction := [inr (sent "0xaa" 7)];
     w_sendTransaction := [inr (sent "0xbb" 7)];
     w_waitForTransaction := [inl (Error "timeout exceeded" None);
                              inl (Error "timeout exceeded" None)];
     w_call := [];
     w_trace := [] |}.

(** One turn of the loop of a manager with attempt limit 2. *)
Definition turn (f : Frame) : Frame :=
  snd (try_catch (attempt_try toUtf8String (manager 2)) attempt_catch f).

Definition after_two_timeouts : Frame :=
  turn (turn (initial_frame two_timeouts (sent "0xaa" 7) legacyConfig)).

(** An interface with one event, [Transfer(to)], whose data is the value of
    the field [to]. *)
Definition transferInterface : Interface :=
  {| getEventTopic := fun eventType => "topic:" ++ eventType;
     decodeEventLog := fun eventType data topics => inr [("to", VString data)] |}.


Definition three_logs : ContractReceipt :=
  {| status := Some 1;
     events := None;
     logs := [ {| topics := ["topic:Transfer"]; data := "0xA" |};
               {| topics := ["topic:Approval"]; data := "0xB" |};
               {| topics := ["topic:Transfer"]; data := "0xB" |} ] |}.

End Scenario.

(** ** Vocabulary of the further properties *)

(** The configuration after an out-of-gas revert was classified. *)
Definition gas_bumped (c : TransactionConfig) : TransactionConfig :=
  {| attempt := attempt c + 1; type := type c; gasBump := gasBump c; nonce := nonce c + 1;
     maxFeePerGas := maxFeePerGas c; maxPriorityFeePerGas := maxPriorityFeePerGas c;
     gasPrice := gasPrice c; gasLimit := Z.quot (gasLimit c * gasBump c) 1000 |}.

(** An error for which the classifier has no correction and no verdict: an
    [IndexerError] other than [IE050] and [IE051], or another error whose
    message passes none of the three tests. *)
Definition unclassified (error : JsError) : bool :=
  match error with
  | IndexerError code _ =>
    negb (IndexerErrorCode_eqb code IE050) && negb (IndexerErrorCode_eqb code IE051)
  | Error message _ =>
    negb (isAlreadyBroadcast message) && negb (isNonceTooLow message)
    && negb (isFeeTooLow message)
  end.

(** The world after the next answer of [sendTransaction] was taken. *)
Definition took_send (w : World) : World :=
  {| w_paused := w_paused w; w_isOperator := w_isOperator w;
     w_getFeeData := w_getFeeData w; w_gasEstimation := w_gasEstimation w;
     w_transaction := w_transaction w;
     w_sendTransaction := tl (w_sendTransaction w);
     w_waitForTransaction := w_waitForTransaction w;
     w_call := w_call w; w_trace := w_trace w |}.

(** The world after the next answer of the gas estimator was taken. *)
Definition took_estimate (w : World) : World :=
  {| w_paused := w_paused w; w_isOperator := w_isOperator w;
     w_getFeeData := w_getFeeData w; w_gasEstimation := tl (w_gasEstimation w);
     w_transaction := w_transaction w;
     w_sendTransaction := w_sendTransaction w;
     w_waitForTransaction := w_waitForTransaction w;
     w_call := w_call w; w_trace := w_trace w |}.

(** The world after the next answer of the transaction builder was taken. *)
Definition took_transaction (w : World) : World :=
  {| w_paused := w_paused w; w_isOperator := w_isOperator w;
     w_getFeeData := w_getFeeData w; w_gasEstimation := w_gasEstimation w;
     w_transaction := tl (w_transaction w);
     w_sendTransaction := w_sendTransaction w;
     w_waitForTransaction := w_waitForTransaction w;
     w_call := w_call w; w_trace := w_trace w |}.

(** What the [catch] clause of [getRevertReason] catches, if anything: the
    error of a replay that was rejected, or of return data that is no text. *)
Definition replay_failure (toUtf8String : string -> JsError + string)
    (answer : JsError + string) : option JsError :=
  match answer with
  | inl e => Some e
  | inr code =>
    match toUtf8String ("0x" ++ Js.substr code 138) with
    | inl e => Some e
    | inr _ => None
    end
  end.

(** The world after a replay, before the diagnosis is logged. *)
Definition replayed (txRequest : option TransactionRequest) (w : World) : World :=
  record_events [EvCall txRequest] (took_call w).


(** A computation that does not assign [txConfig]. *)
Definition keeps_config {A : Type} (m : M Frame A) : Prop :=
  forall f r f', m f = (r, f') -> f_txConfig f' = f_txConfig f.

(** The calls that put a transaction on the network: the builder of the
    first one and the wallet for the later ones. *)
Definition is_broadcast (ev : Event) : bool :=
  match ev with
  | EvTransaction _ | EvSendTransaction _ => true
  | _ => false
  end.

Definition broadcasts (trace : list Event) : nat :=
  List.length (filter is_broadcast trace).

(** A computation that adds at most [n] broadcasts to the trace, whatever its
    outcome. *)
Definition broadcasts_at_most {S A : Type} (trace_of : S -> list Event) (n : nat)
    (m : M S A) : Prop :=
  forall s r s', m s = (r, s') ->
    exists evs, trace_of s' = (evs ++ trace_of s)%list /\ (broadcasts evs <= n)%nat.


(** ** Monitors *)

(** One network in the answer of the network subgraph. *)
Record GraphNetwork : Type := mkGraphNetwork {
  isPaused : bool
}.

(** [result.data] of the pause query: its [length] property, which a plain
    object does not have, and its [graphNetworks]. *)
Record PauseData : Type := mkPauseData {
  pd_length : option Z;
  graphNetworks : option (list GraphNetwork)
}.

(** What [networkSubgraph.checkedQuery] resolves to. *)
Record QueryResult : Type := mkQueryResult {
  qr_error : option JsError;
  qr_data : option PauseData
}.

(** [!result.data || result.data.length === 0] *)
Definition no_data (result : QueryResult) : bool :=
  match qr_data result with
  | None => true
  | Some d => match pd_length d with
              | Some 0 => true
              | _ => false
              end
  end.

(** [result.data.graphNetworks[0].isPaused], reached only with data. *)
Definition first_isPaused (result : QueryResult) : JsError + bool :=
  match qr_data result with
  | None => inl (TypeError "undefined (reading 'graphNetworks')")
  | Some d =>
    match graphNetworks d with
    | None => inl (TypeError "undefined (reading '0')")
    | Some [] => inl (TypeError "undefined (reading 'isPaused')")
    | Some (network :: _) => inr (isPaused network)
    end
  end.

(** The reducer of [monitorNetworkPauses], run every 60 seconds on the
    previous value; [answer] is what the awaited query settles to. *)
Definition monitorNetworkPauses_step (answer : JsError + QueryResult)
    (currentlyPaused : bool) : M World bool :=
  try_catch
    (result <- lift answer ;;
     (match qr_error result with
      | Some error => throw error
      | None => ret tt
      end) ;;
     (if no_data result then
        throw (Error "No data returned by network subgraph" None)
      else
        ret tt) ;;
     lift (first_isPaused result))
    (fun err =>
       log LWarn "Failed to check for network pause, assuming it has not changed" ;;
       ret currentlyPaused).

(** The reducer of [monitorIsOperator]; [answer] is what the awaited call of
    [contracts.staking.isOperator] settles to. *)
Definition monitorIsOperator_step (answer : JsError + bool) (isOperator : bool)
  : M World bool :=
  try_catch
    (lift answer)
    (fun err =>
       log LWarn "Failed to check operator status for indexer, assuming it has not changed" ;;
       ret isOperator).

(** How a monitor makes its eventual: [mutable(value)], which never changes,
    or [sequentialTimerReduce] with its period and its initial value. *)
Inductive Monitor : Type :=
| Mutable (value : bool)
| TimerReduce (milliseconds : Z) (initial : bool).

(** [monitorIsOperator], up to the making of the eventual; [toAddress] is the
    normalisation of common-ts, [initial] what the first call of
    [contracts.staking.isOperator] settles to. *)
Definition monitorIsOperator (toAddress : string -> string)
    (indexerAddress walletAddress : string) (initial : JsError + bool) : M World Monitor :=
  if String.eqb indexerAddress (toAddress walletAddress) then
    log LInfo "Indexer and operator are identical, operator status granted" ;;
    ret (Mutable true)
  else
    isOperator <- lift initial ;;
    ret (TimerReduce 60000 isOperator).

(** A query answer without error, with data that has no [length] and these
    networks. *)
Definition pause_answer (networks : list GraphNetwork) : JsError + QueryResult :=
  inr {| qr_error := None;
         qr_data := Some {| pd_length := None; graphNetworks := Some networks |} |}.


Module Cases.


(** A first transaction that is mined and reverts, with a replay that is
    rejected for lack of gas. *)
Definition runs_out_of_gas : World :=
  {| w_paused := false; w_isOperator := true;
     w_getFeeData := []; w_gasEstimation := []; w_transaction := [];
     w_sendTransaction := [inr (Scenario.sent "0xbb" 8)];
     w_waitForTransaction := [inr Scenario.reverted; inr Scenario.included];
     w_call := [inl (Error "call exception" (Some "{'error': 'out of gas'}"))];
     w_trace := [] |}.

(** A first transaction whose confirmation wait times out, and a wallet that
    accepts the resubmission. *)
Definition times_out : World :=
  {| w_paused := false; w_isOperator := true;
     w_getFeeData := []; w_gasEstimation := []; w_transaction := [];
     w_sendTransaction := [inr (Scenario.sent "0xbb" 7)];
     w_waitForTransaction := [inl (Error "timeout exceeded" None); inr Scenario.included];
     w_call := [];
     w_trace := [] |}.

(** A second attempt whose resubmission the wallet rejects. *)
Definition second_attempt_rejected : Frame :=
  {| f_world :=
       {| w_paused := false; w_isOperator := true;
          w_getFeeData := []; w_gasEstimation := []; w_transaction := [];
          w_sendTransaction := [inl (Error "insufficient funds" None)];
          w_waitForTransaction := [inr Scenario.included];
          w_call := []; w_trace := [] |};
     f_pending := true; f_output := None;
     f_tx := Scenario.sent "0xaa" 7; f_txRequest := None;
     f_txConfig := set_attempt 2 Scenario.legacyConfig |}.

(** A submission whose gas estimation is rejected. *)
Definition estimate_rejected : World :=
  {| w_paused := false; w_isOperator := true;
     w_getFeeData := [inr (Scenario.legacy 90)];
     w_gasEstimation := [inl (Error "cannot estimate gas" None)];
     w_transaction := [inr (Scenario.sent "0xaa" 7)];
     w_sendTransaction := [];
     w_waitForTransaction := [inr Scenario.included];
     w_call := [];
     w_trace := [] |}.


(** An interface whose decoder refuses the data "0xB". *)
Definition strictInterface : Interface :=
  {| getEventTopic := fun eventType => "topic:" ++ eventType;
     decodeEventLog := fun eventType data topics =>
       if String.eqb data "0xB" then inl (Error "data out-of-bounds" None)
       else inr [("to", VString data)] |}.


End Cases.

(** * Properties *)

(** ** Fee mechanism *)

(** C4. [transactionType] answers [TWO] (the fee-market mechanism) for every
    snapshot that carries both [maxFeePerGas] and [maxPriorityFeePerGas],
    [ZERO] (the legacy mechanism) for every snapshot that carries only
    [gasPrice], and raises the fee-data validation error for every snapshot
    in which neither mechanism is populated (no gas price, and at most one of
    the two fee-market fields). *)
Theorem transactionType_classifies :
  (forall gasPrice maxFee maxPriority,
      transactionType (mkFeeData gasPrice (Some maxFee) (Some maxPriority)) = inr TWO)
  /\ (forall price,
      transactionType (mkFeeData (Some price) None None) = inr ZERO)
  /\ (forall maxFee,
      exists message,
        transactionType (mkFeeData None maxFee None) = inl (Error message None)
        /\ Js.includes message "Network fee data failed validation" = true)
  /\ (forall maxPriority,
      exists message,
        transactionType (mkFeeData None None maxPriority) = inl (Error message None)
        /\ Js.includes message "Network fee data failed validation" = true).
Proof.
  repeat split.
  - intros maxFee. destruct maxFee; eexists; split; reflexivity.
  - intros maxPriority. destruct maxPriority; eexists; split; reflexivity.
Qed.

(** ** Error classifier *)

(** C5. For every send or wait error whose message says that the same
    transaction hash was already imported or that the nonce has already been
    used, the classifier leaves [txConfig] as it was (fees, nonce, gas limit
    and attempt counter), waits 30 seconds and then raises [IE058], outcome
    unknown; the [catch] clause passes it on, and the loop of
    [executeTransaction] ends with that error instead of another attempt. *)
Theorem already_broadcast_is_fatal :
  forall (message : string) (b : option string) (w : World) (txConfig : TransactionConfig),
    isAlreadyBroadcast message = true ->
    let unknown :=
      indexerError IE058
        (Some "Original transaction was not confirmed though it may have been successful") in
    let w' := record_events [EvDelay 30000; classifier_log] w in
    updateTransactionConfig (Error message b) (w, txConfig) = (Throw unknown, (w', txConfig))
    /\ (forall f : Frame,
          f_world f = w -> f_txConfig f = txConfig ->
          attempt_catch (Error message b) f = (Throw unknown, set_world w' f))
    /\ (forall toUtf8String this fuel (f f1 : Frame),
          f_pending f = true ->
          limit_reached this (f_txConfig f) = false ->
          attempt_try toUtf8String this f = (Throw (Error message b), f1) ->
          f_world f1 = w -> f_txConfig f1 = txConfig ->
          executeTransaction_loop toUtf8String this (S fuel) f
          = (Throw unknown, set_world w' f1)).
Proof.
  intros message b w txConfig Hdup unknown w'.
  assert (Hrun : updateTransactionConfig (Error message b) (w, txConfig)
                 = (Throw unknown, (w', txConfig))).
  { unfold updateTransactionConfig. rewrite Hdup. reflexivity. }
  assert (Hcatch : forall f : Frame,
             f_world f = w -> f_txConfig f = txConfig ->
             attempt_catch (Error message b) f = (Throw unknown, set_world w' f)).
  { intros f Hw Hc. subst w txConfig.
    unfold attempt_catch, classifier, bind, zoom.
    cbv zeta in Hrun. rewrite Hrun.
    destruct f; reflexivity. }
  split; [exact Hrun |]. split; [exact Hcatch |].
  intros toUtf8String this fuel f f1 Hpending Hlimit Htry Hw Hc.
  cbn [executeTransaction_loop]. unfold bind at 1, get.
  rewrite Hpending, Hlimit.
  unfold bind at 1, try_catch. rewrite Htry, (Hcatch f1 Hw Hc). reflexivity.
Qed.

Lemma already_broadcast_is_fatal_witness :
  updateTransactionConfig (Error "nonce has already been used" None)
    (Scenario.idle, Scenario.legacyConfig)
  = (Throw (indexerError IE058
       (Some "Original transaction was not confirmed though it may have been successful")),
     (record_events [EvDelay 30000; classifier_log] Scenario.idle, Scenario.legacyConfig)).
Proof.
  apply (already_broadcast_is_fatal "nonce has already been used" None
           Scenario.idle Scenario.legacyConfig).
  reflexivity.
Defined.

Lemma fee_too_low_legacy :
  forall message b w c price,
    isAlreadyBroadcast message = false ->
    isNonceTooLow message = false ->
    isFeeTooLow message = true ->
    type c = ZERO ->
    gasPrice c = Some price ->
    updateTransactionConfig (Error message b) (w, c)
    = (Return (legacy_bumped c price),
       (record_events [classifier_log] w, legacy_bumped c price)).
Proof.
  intros message b w c price Hdup Hnonce Hfee Htype Hprice.
  unfold updateTransactionConfig. rewrite Hdup, Hnonce, Hfee.
  unfold bind at 1. cbn -[bind Z.add Z.quot Z.mul].
  unfold bind, txConfig_get, txConfig_set, get, modify, ret; cbn -[Z.add Z.quot Z.mul].
  rewrite Htype. rewrite Hprice. reflexivity.
Qed.

Lemma fee_too_low_modern :
  forall message b w c maxFee maxPriority,
    isAlreadyBroadcast message = false ->
    isNonceTooLow message = false ->
    isFeeTooLow message = true ->
    type c = TWO ->
    maxFeePerGas c = Some maxFee ->
    maxPriorityFeePerGas c = Some maxPriority ->
    updateTransactionConfig (Error message b) (w, c)
    = (Return (modern_bumped c maxFee maxPriority),
       (record_events [classifier_log] w, modern_bumped c maxFee maxPriority)).
Proof.
  intros message b w c maxFee maxPriority Hdup Hnonce Hfee Htype HmaxFee HmaxPriority.
  unfold updateTransactionConfig. rewrite Hdup, Hnonce, Hfee.
  unfold bind, txConfig_get, txConfig_set, get, modify, ret; cbn -[Z.add Z.quot Z.mul].
  rewrite Htype. rewrite HmaxFee. cbn -[Z.add Z.quot Z.mul].
  rewrite HmaxPriority. reflexivity.
Qed.

(** C6. The fee bump is integer permille arithmetic on the configuration that
    the previous classification left: a fee-too-low (or timeout) error
    replaces the gas price of a legacy configuration by
    [price * gasBump / 1000] (integer division), and for a fee-market
    configuration replaces both [maxFeePerGas] and [maxPriorityFeePerGas] by
    their value times the same factor over 1000; so with factor 1200 a gas
    price of 100 becomes 120 after one classification and 144 after two. *)
Theorem fee_bump_compounds :
  forall (message : string) (b : option string) (c : TransactionConfig),
    isAlreadyBroadcast message = false ->
    isNonceTooLow message = false ->
    isFeeTooLow message = true ->
    (forall w price,
        type c = ZERO -> gasPrice c = Some price ->
        updateTransactionConfig (Error message b) (w, c)
        = (Return (legacy_bumped c price),
           (record_events [classifier_log] w, legacy_bumped c price)))
    /\ (forall w maxFee maxPriority,
        type c = TWO -> maxFeePerGas c = Some maxFee ->
        maxPriorityFeePerGas c = Some maxPriority ->
        updateTransactionConfig (Error message b) (w, c)
        = (Return (modern_bumped c maxFee maxPriority),
           (record_events [classifier_log] w, modern_bumped c maxFee maxPriority)))
    /\ (forall w1 w2,
        type c = ZERO -> gasBump c = 1200 -> gasPrice c = Some 100 ->
        let once := classified (Error message b) w1 c in
        let twice := classified (Error message b) w2 once in
        gasPrice once = Some 120 /\ gasPrice twice = Some 144).
Proof.
  intros message b c Hdup Hnonce Hfee.
  split; [| split].
  - intros w price. now apply fee_too_low_legacy.
  - intros w maxFee maxPriority. now apply fee_too_low_modern.
  - intros w1 w2 Htype Hbump Hprice once twice.
    assert (Honce : once = legacy_bumped c 100).
    { unfold once, classified.
      rewrite (fee_too_low_legacy message b w1 c 100); auto. }
    assert (Htwice : twice = legacy_bumped once 120).
    { unfold twice, classified.
      rewrite (fee_too_low_legacy message b w2 once 120); auto.
      - rewrite Honce. exact Htype.
      - rewrite Honce. cbn [gasPrice legacy_bumped]. rewrite Hbump. reflexivity. }
    split.
    + rewrite Honce. cbn [gasPrice legacy_bumped]. rewrite Hbump. reflexivity.
    + rewrite Htwice. cbn [gasPrice legacy_bumped].
      rewrite Honce. cbn [gasBump legacy_bumped]. rewrite Hbump. reflexivity.
Qed.

Lemma fee_bump_compounds_witness :
  let error := Error "timeout exceeded" None in
  gasPrice (classified error Scenario.idle Scenario.legacyConfig) = Some 120
  /\ gasPrice (classified error Scenario.idle
                 (classified error Scenario.idle Scenario.legacyConfig)) = Some 144.
Proof.
  apply (proj2 (proj2 (fee_bump_compounds "timeout exceeded" None Scenario.legacyConfig
                         eq_refl eq_refl eq_refl))
           Scenario.idle Scenario.idle eq_refl eq_refl eq_refl).
Defined.

(** C7. For every configuration, a nonce-too-low error makes the classifier
    add exactly 1 to the nonce and 1 to the attempt counter, and leaves every
    other field as it was: [gasPrice], [maxFeePerGas],
    [maxPriorityFeePerGas], [gasLimit], and also the mechanism and the bump
    factor. *)
Theorem nonce_too_low_bumps_nonce_only :
  forall (message : string) (b : option string) (w : World) (c : TransactionConfig),
    isAlreadyBroadcast message = false ->
    isNonceTooLow message = true ->
    updateTransactionConfig (Error message b) (w, c)
    = (Return (nonce_bumped c), (record_events [classifier_log] w, nonce_bumped c))
    /\ nonce (nonce_bumped c) = nonce c + 1
    /\ attempt (nonce_bumped c) = attempt c + 1
    /\ gasPrice (nonce_bumped c) = gasPrice c
    /\ maxFeePerGas (nonce_bumped c) = maxFeePerGas c
    /\ maxPriorityFeePerGas (nonce_bumped c) = maxPriorityFeePerGas c
    /\ gasLimit (nonce_bumped c) = gasLimit c
    /\ type (nonce_bumped c) = type c
    /\ gasBump (nonce_bumped c) = gasBump c.
Proof.
  intros message b w c Hdup Hnonce.
  split; [| repeat split].
  unfold updateTransactionConfig. rewrite Hdup, Hnonce. reflexivity.
Qed.

Lemma nonce_too_low_bumps_nonce_only_witness :
  updateTransactionConfig
    (Error "Transaction nonce is too low. Try incrementing the nonce." None)
    (Scenario.idle, Scenario.modernConfig)
  = (Return (nonce_bumped Scenario.modernConfig),
     (record_events [classifier_log] Scenario.idle, nonce_bumped Scenario.modernConfig)).
Proof.
  apply (nonce_too_low_bumps_nonce_only
           "Transaction nonce is too low. Try incrementing the nonce." None
           Scenario.idle Scenario.modernConfig eq_refl eq_refl).
Defined.

(** ** Gating *)

(** C8. Whenever the paused value reads true, [executeTransaction] resolves
    to 'paused' having only read that value and logged: the fee policy, the
    gas estimator and the transaction builder are not called (no answer of
    theirs is consumed, no call of theirs is recorded).  Whenever paused
    reads false and the operator value reads false, it resolves to
    'unauthorized', again without any of these calls. *)
Theorem gating_short_circuits :
  forall (toUtf8String : string -> JsError + string) (this : TransactionManager) (w : World),
    (w_paused w = true ->
     let w' := record_events
                 [EvLog LInfo "Network is paused, skipping this action"; EvPausedValue] w in
     executeTransaction toUtf8String this w = (Return RPaused, w')
     /\ submission_calls w' = submission_calls w)
    /\ (w_paused w = false -> w_isOperator w = false ->
        let w' := record_events
                    [EvLog LInfo "Not authorized as an operator for indexer, skipping this action";
                     EvIsOperatorValue; EvPausedValue] w in
        executeTransaction toUtf8String this w = (Return RUnauthorized, w')
        /\ submission_calls w' = submission_calls w).
Proof.
  intros toUtf8String this w. split.
  - intros Hpaused w'. split; [| reflexivity].
    subst w'. destruct w; cbn in Hpaused; subst. reflexivity.
  - intros Hpaused Hoperator w'. split; [| reflexivity].
    subst w'. destruct w; cbn in Hpaused, Hoperator; subst. reflexivity.
Qed.

Lemma gating_short_circuits_witness :
  executeTransaction Scenario.toUtf8String (Scenario.manager 0) Scenario.halted
  = (Return RPaused,
     record_events [EvLog LInfo "Network is paused, skipping this action"; EvPausedValue]
       Scenario.halted)
  /\ executeTransaction Scenario.toUtf8String (Scenario.manager 0) Scenario.stranger
     = (Return RUnauthorized,
        record_events
          [EvLog LInfo "Not authorized as an operator for indexer, skipping this action";
           EvIsOperatorValue; EvPausedValue]
          Scenario.stranger).
Proof.
  split.
  - apply (proj1 (gating_short_circuits Scenario.toUtf8String (Scenario.manager 0)
                    Scenario.halted)).
    reflexivity.
  - apply (proj2 (gating_short_circuits Scenario.toUtf8String (Scenario.manager 0)
                    Scenario.stranger)); reflexivity.
Defined.

(** ** Fee policy *)











(** The example of the description: ceiling 100 and the fee sequence 150,
    120, 90 return on the third poll after exactly two waits. *)
Example waitForGasPricesBelowThreshold_150_120_90 :
  let run := waitForGasPricesBelowThreshold (Scenario.manager 0)
               (Scenario.polling [Scenario.legacy 150; Scenario.legacy 120; Scenario.legacy 90]) in
  fst run = Return (Scenario.legacy 90)
  /\ polls (w_trace (snd run)) = 3%nat
  /\ waits (w_trace (snd run)) = 2%nat.
Proof. cbv zeta. repeat split. Qed.

(** The same on fee-market snapshots with ceiling 100: maximum fee 250 and
    priority fee 50 give the reference fee 100, which waits; 30 and 10 give
    10, and the snapshot is returned without its gas price. *)
Example waitForGasPricesBelowThreshold_fee_market :
  let run := waitForGasPricesBelowThreshold (Scenario.manager 0)
               (Scenario.polling [Scenario.modern 250 50; Scenario.modern 30 10]) in
  referenceFee (Scenario.modern 250 50) = Some 100
  /\ fst run = Return (mkFeeData None (Some 30) (Some 10))
  /\ waits (w_trace (snd run)) = 1%nat.
Proof. cbv zeta. repeat split. Qed.

(** ** The monad: traces *)

Section Traces.

Context {S : Type} (trace_of : S -> list Event).

Lemma extends_ret : forall (A : Type) (a : A), extends trace_of (ret a).
Proof. intros A a s r s' [= <- <-]. exists []. reflexivity. Qed.

Lemma extends_throw : forall (A : Type) (e : JsError), extends trace_of (@throw S A e).
Proof. intros A e s r s' [= <- <-]. exists []. reflexivity. Qed.

Lemma extends_lift : forall (A : Type) (x : JsError + A), extends trace_of (lift x).
Proof. intros A [e | a]; [apply extends_throw | apply extends_ret]. Qed.

Lemma extends_get : extends trace_of get.
Proof. intros s r s' [= <- <-]. exists []. reflexivity. Qed.

Lemma extends_modify :
  forall f : S -> S,
    (forall s, trace_of (f s) = trace_of s) -> extends trace_of (modify f).
Proof. intros f Hf s r s' [= <- <-]. exists []. apply Hf. Qed.

Lemma extends_bind :
  forall (A B : Type) (m : M S A) (k : A -> M S B),
    extends trace_of m -> (forall a, extends trace_of (k a)) ->
    extends trace_of (bind m k).
Proof.
  intros A B m k Hm Hk s r s'. unfold bind.
  destruct (m s) as [[a | e | |] s1] eqn:Hrun; intros Hrest.
  - destruct (Hm _ _ _ Hrun) as [evs1 H1].
    destruct (Hk a _ _ _ Hrest) as [evs2 H2].
    exists (evs2 ++ evs1)%list. rewrite H2, H1. apply app_assoc.
  - injection Hrest as <- <-. exact (Hm _ _ _ Hrun).
  - injection Hrest as <- <-. exact (Hm _ _ _ Hrun).
  - injection Hrest as <- <-. exact (Hm _ _ _ Hrun).
Qed.

Lemma extends_try_catch :
  forall (A : Type) (m : M S A) (handler : JsError -> M S A),
    extends trace_of m -> (forall e, extends trace_of (handler e)) ->
    extends trace_of (try_catch m handler).
Proof.
  intros A m handler Hm Hh s r s'. unfold try_catch.
  destruct (m s) as [[a | e | |] s1] eqn:Hrun; intros Hrest.
  - injection Hrest as <- <-. exact (Hm _ _ _ Hrun).
  - destruct (Hm _ _ _ Hrun) as [evs1 H1].
    destruct (Hh e _ _ _ Hrest) as [evs2 H2].
    exists (evs2 ++ evs1)%list. rewrite H2, H1. apply app_assoc.
  - injection Hrest as <- <-. exact (Hm _ _ _ Hrun).
  - injection Hrest as <- <-. exact (Hm _ _ _ Hrun).
Qed.

Lemma extends_zoom :
  forall (T A : Type) (inner_trace : T -> list Event)
         (proj : S -> T) (upd : T -> S -> S) (m : M T A),
    (forall s, inner_trace (proj s) = trace_of s) ->
    (forall t s, trace_of (upd t s) = inner_trace t) ->
    extends inner_trace m ->
    extends trace_of (zoom proj upd m).
Proof.
  intros T A inner_trace proj upd m Hproj Hupd Hm s r s'. unfold zoom.
  destruct (m (proj s)) as [r1 t1] eqn:Hrun. intros [= <- <-].
  destruct (Hm _ _ _ Hrun) as [evs H1].
  exists evs. rewrite Hupd, H1, Hproj. reflexivity.
Qed.

End Traces.

Create HintDb traces.

#[export] Hint Resolve extends_ret extends_throw extends_lift extends_get
  extends_bind extends_try_catch : traces.

Lemma extends_emit : forall ev : Event, extends w_trace (emit ev).
Proof. intros ev s r s' [= <- <-]. exists [ev]. reflexivity. Qed.

Lemma extends_settle :
  forall (A : Type) (answer : option (JsError + A)), extends w_trace (settle answer).
Proof.
  intros A [x |]; [apply extends_lift |].
  intros s r s' [= <- <-]. exists []. reflexivity.
Qed.

#[export] Hint Resolve extends_emit extends_settle : traces.

Ltac extends_step :=
  first [ apply extends_bind; [| intros ? ]
        | apply extends_modify; intros ?; reflexivity
        | solve [ auto with traces ] ].

Lemma extends_log : forall level message, extends w_trace (log level message).
Proof. intros. apply extends_emit. Qed.

Lemma extends_delay : forall ms, extends w_trace (delay ms).
Proof. intros. apply extends_emit. Qed.

Lemma extends_sendTransaction : forall txRequest, extends w_trace (sendTransaction txRequest).
Proof. intros. unfold sendTransaction. repeat extends_step. Qed.

Lemma extends_waitForTransaction :
  forall hash confirmations timeout,
    extends w_trace (waitForTransaction hash confirmations timeout).
Proof. intros. unfold waitForTransaction. repeat extends_step. Qed.

Lemma extends_call : forall txRequest, extends w_trace (call txRequest).
Proof. intros. unfold call. repeat extends_step. Qed.

#[export] Hint Resolve extends_log extends_delay extends_sendTransaction
  extends_waitForTransaction extends_call : traces.

Lemma extends_world :
  forall (A : Type) (m : M World A), extends w_trace m -> extends frame_trace (world m).
Proof.
  intros A m Hm. unfold world.
  apply (extends_zoom frame_trace World A w_trace); auto.
Qed.

Lemma extends_inWorld :
  forall (A : Type) (m : M World A), extends w_trace m -> extends classifier_trace (inWorld m).
Proof.
  intros A m Hm. unfold inWorld.
  apply (extends_zoom classifier_trace World A w_trace); auto.
Qed.

Lemma extends_classifier :
  forall (A : Type) (m : M Classifier A),
    extends classifier_trace m -> extends frame_trace (classifier m).
Proof.
  intros A m Hm. unfold classifier.
  apply (extends_zoom frame_trace Classifier A classifier_trace); auto.
Qed.

#[export] Hint Resolve extends_world extends_inWorld extends_classifier : traces.

Lemma extends_updateTransactionConfig :
  forall error : JsError, extends classifier_trace (updateTransactionConfig error).
Proof.
  intros error. unfold updateTransactionConfig, txConfig_get, txConfig_set.
  apply extends_bind; [auto with traces | intros _].
  apply extends_bind.
  - destruct error as [code cause | message b].
    + destruct (IndexerErrorCode_eqb code IE050); [repeat extends_step |].
      destruct (IndexerErrorCode_eqb code IE051); auto with traces.
    + destruct (isAlreadyBroadcast message); [repeat extends_step |].
      destruct (isNonceTooLow message); [repeat extends_step |].
      destruct (isFeeTooLow message); [| auto with traces].
      apply extends_bind; [repeat extends_step | intros c].
      destruct (type c); repeat extends_step.
  - intros _. repeat extends_step.
Qed.

#[export] Hint Resolve extends_updateTransactionConfig : traces.

(** ** Submission engine: what a turn of the loop adds to the trace *)

Section EngineTraces.

Variable toUtf8String : string -> JsError + string.
Variable this : TransactionManager.

Lemma extends_getRevertReason :
  forall txRequest, extends w_trace (getRevertReason toUtf8String txRequest).
Proof.
  intros txRequest. unfold getRevertReason.
  apply extends_bind; [| intros reason; repeat extends_step].
  apply extends_try_catch; [repeat extends_step |].
  intros e. destruct (body e) as [b |]; [| auto with traces].
  destruct (Js.includes b "out of gas"); auto with traces.
Qed.

Lemma extends_resubmit : extends frame_trace resubmit.
Proof.
  unfold resubmit. apply extends_bind; [auto with traces | intros f].
  destruct (attempt (f_txConfig f) >? 1); repeat extends_step.
Qed.

Lemma extends_attempt_try : extends frame_trace (attempt_try toUtf8String this).
Proof.
  unfold attempt_try.
  apply extends_bind; [apply extends_resubmit | intros _].
  apply extends_bind; [auto with traces | intros _].
  apply extends_bind; [auto with traces | intros f].
  apply extends_bind; [auto with traces | intros receipt].
  apply extends_bind; [| intros _; repeat extends_step].
  destruct (status_is_zero receipt); [| auto with traces].
  apply extends_bind; [auto with traces | intros f1].
  apply extends_bind.
  - apply extends_world, extends_getRevertReason.
  - intros reason.
    destruct (String.eqb reason "out of gas"); [auto with traces |].
    destruct (String.eqb reason "unknown"); auto with traces.
Qed.

Lemma extends_attempt_catch : forall error, extends frame_trace (attempt_catch error).
Proof. intros error. unfold attempt_catch. repeat extends_step. Qed.

Lemma extends_executeTransaction_loop :
  forall fuel : nat, extends frame_trace (executeTransaction_loop toUtf8String this fuel).
Proof.
  induction fuel as [| fuel IH].
  - intros s r s' [= <- <-]. exists []. reflexivity.
  - cbn [executeTransaction_loop].
    apply extends_bind; [auto with traces | intros f].
    destruct (f_pending f); [| auto with traces].
    destruct (limit_reached this (f_txConfig f)); [repeat extends_step |].
    apply extends_bind; [| intros _; exact IH].
    apply extends_try_catch; [apply extends_attempt_try | apply extends_attempt_catch].
Qed.

End EngineTraces.

(** ** Submission engine: [pending] and [output] *)

Lemma locals_kept_refl : forall f, locals_kept f f.
Proof. intros f. split; reflexivity. Qed.

Lemma locals_kept_trans :
  forall f g h, locals_kept f g -> locals_kept g h -> locals_kept f h.
Proof. intros f g h [Hp1 Ho1] [Hp2 Ho2]. split; congruence. Qed.

Lemma keeps_ret : forall (A : Type) (a : A), keeps (ret a).
Proof. intros A a f r f' [= <- <-]. apply locals_kept_refl. Qed.

Lemma keeps_throw : forall (A : Type) (e : JsError), keeps (@throw Frame A e).
Proof. intros A e f r f' [= <- <-]. apply locals_kept_refl. Qed.

Lemma keeps_get : keeps get.
Proof. intros f r f' [= <- <-]. apply locals_kept_refl. Qed.

Lemma keeps_modify :
  forall g : Frame -> Frame, (forall f, locals_kept f (g f)) -> keeps (modify g).
Proof. intros g Hg f r f' [= <- <-]. apply Hg. Qed.

Lemma keeps_world : forall (A : Type) (m : M World A), keeps (world m).
Proof.
  intros A m f r f'. unfold world, zoom.
  destruct (m (f_world f)) as [r1 w1]. intros [= <- <-]. split; reflexivity.
Qed.

Lemma keeps_classifier : forall (A : Type) (m : M Classifier A), keeps (classifier m).
Proof.
  intros A m f r f'. unfold classifier, zoom.
  destruct (m (f_world f, f_txConfig f)) as [r1 s1]. intros [= <- <-]. split; reflexivity.
Qed.

Lemma keeps_bind :
  forall (A B : Type) (m : M Frame A) (k : A -> M Frame B),
    keeps m -> (forall a, keeps (k a)) -> keeps (bind m k).
Proof.
  intros A B m k Hm Hk f r f'. unfold bind.
  destruct (m f) as [[a | e | |] f1] eqn:Hrun; intros Hrest;
    try (injection Hrest as <- <-; exact (Hm _ _ _ Hrun)).
  apply (locals_kept_trans f f1 f'); [exact (Hm _ _ _ Hrun) | exact (Hk a _ _ _ Hrest)].
Qed.

Lemma keeps_try_catch :
  forall (A : Type) (m : M Frame A) (handler : JsError -> M Frame A),
    keeps m -> (forall e, keeps (handler e)) -> keeps (try_catch m handler).
Proof.
  intros A m handler Hm Hh f r f'. unfold try_catch.
  destruct (m f) as [[a | e | |] f1] eqn:Hrun; intros Hrest;
    try (injection Hrest as <- <-; exact (Hm _ _ _ Hrun)).
  apply (locals_kept_trans f f1 f'); [exact (Hm _ _ _ Hrun) | exact (Hh e _ _ _ Hrest)].
Qed.

Create HintDb locals.

#[export] Hint Resolve keeps_ret keeps_throw keeps_get keeps_world keeps_classifier
  keeps_bind keeps_try_catch locals_kept_refl : locals.

Ltac keeps_step :=
  first [ apply keeps_bind; [| intros ? ]
        | apply keeps_modify; intros ?; split; reflexivity
        | solve [ auto with locals ] ].

Lemma keeps_resubmit : keeps resubmit.
Proof.
  unfold resubmit. apply keeps_bind; [auto with locals | intros f].
  destruct (attempt (f_txConfig f) >? 1); repeat keeps_step.
Qed.

Lemma keeps_attempt_catch : forall error, keeps (attempt_catch error).
Proof. intros error. unfold attempt_catch. repeat keeps_step. Qed.

Lemma settles_or_keeps_bind :
  forall (A B : Type) (m : M Frame A) (k : A -> M Frame B),
    keeps m -> (forall a, settles_or_keeps (k a)) -> settles_or_keeps (bind m k).
Proof.
  intros A B m k Hm Hk f r f'. unfold bind.
  destruct (m f) as [[a | e | |] f1] eqn:Hrun; intros Hrest;
    try (injection Hrest as <- <-; exact (Hm _ _ _ Hrun)).
  pose proof (Hk a _ _ _ Hrest) as Hlast.
  destruct r; try exact Hlast;
    apply (locals_kept_trans f f1 f'); solve [exact (Hm _ _ _ Hrun) | exact Hlast].
Qed.

Lemma settles_or_keeps_attempt_try :
  forall toUtf8String this, settles_or_keeps (attempt_try toUtf8String this).
Proof.
  intros toUtf8String this. unfold attempt_try.
  apply settles_or_keeps_bind; [apply keeps_resubmit | intros _].
  apply settles_or_keeps_bind; [auto with locals | intros _].
  apply settles_or_keeps_bind; [auto with locals | intros f].
  apply settles_or_keeps_bind; [auto with locals | intros receipt].
  apply settles_or_keeps_bind.
  - destruct (status_is_zero receipt); [| auto with locals].
    apply keeps_bind; [auto with locals | intros f1].
    apply keeps_bind; [auto with locals | intros reason].
    destruct (String.eqb reason "out of gas"); [auto with locals |].
    destruct (String.eqb reason "unknown"); auto with locals.
  - intros _. apply settles_or_keeps_bind; [auto with locals | intros _].
    intros f0 r f'. unfold bind, modify. intros [= <- <-]. reflexivity.
Qed.

(** A completed turn of the loop either found the transaction included, and
    [pending] is false, or assigned neither [pending] nor [output]. *)
Lemma turn_settles_or_keeps :
  forall toUtf8String this f f',
    try_catch (attempt_try toUtf8String this) attempt_catch f = (Return tt, f') ->
    f_pending f' = false \/ locals_kept f f'.
Proof.
  intros toUtf8String this f f'. unfold try_catch.
  destruct (attempt_try toUtf8String this f) as [[[] | e | |] f1] eqn:Hrun; intros Hrest;
    try discriminate.
  - injection Hrest as <-. left.
    exact (settles_or_keeps_attempt_try toUtf8String this _ _ _ Hrun).
  - right. apply (locals_kept_trans f f1 f').
    + exact (settles_or_keeps_attempt_try toUtf8String this _ _ _ Hrun).
    + exact (keeps_attempt_catch e _ _ _ Hrest).
Qed.

(** While the loop is pending, [output] is still [undefined]. *)
Lemma loop_head_output :
  forall toUtf8String this w tx txConfig f,
    loop_head toUtf8String this (initial_frame w tx txConfig) f ->
    f_pending f = true -> f_output f = None.
Proof.
  intros toUtf8String this w tx txConfig f Hhead.
  induction Hhead as [| f f' Hhead IH Hpending Hlimit Hturn]; intros Hpending'.
  - reflexivity.
  - destruct (turn_settles_or_keeps _ _ _ _ Hturn) as [Hdone | [_ Hsame]].
    + congruence.
    + rewrite Hsame. apply IH. exact Hpending.
Qed.

(** ** Submission engine: the attempt limit *)

(** C3. For every configured attempt limit other than 0, once the attempt
    counter of [txConfig] exceeds the limit at the head of the loop,
    [executeTransaction] logs a warning, pauses 30 seconds and leaves the
    loop without raising; the local [output] is still [undefined] then, so
    the method resolves to an absent result, not to a receipt and not to a
    terminal value of its own. *)
Theorem attempt_limit_gives_up :
  forall (toUtf8String : string -> JsError + string) (this : TransactionManager)
         (w : World) (tx : ContractTransaction) (txConfig : TransactionConfig)
         (f : Frame) (fuel : nat),
    loop_head toUtf8String this (initial_frame w tx txConfig) f ->
    f_pending f = true ->
    maxTransactionAttempts (specification this) <> 0 ->
    attempt (f_txConfig f) > maxTransactionAttempts (specification this) ->
    let w' := record_events
                [EvDelay 30000; EvLog LWarn "Transaction retry limit reached, giving up"]
                (f_world f) in
    executeTransaction_loop toUtf8String this (S fuel) f = (Return tt, set_world w' f)
    /\ return_output (executeTransaction_loop toUtf8String this (S fuel) f)
       = (Return (ROutput None), w').
Proof.
  intros toUtf8String this w tx txConfig f fuel Hhead Hpending Hlimit Hover w'.
  assert (Hreached : limit_reached this (f_txConfig f) = true).
  { unfold limit_reached. apply andb_true_iff. split.
    - apply negb_true_iff. apply Z.eqb_neq. exact Hlimit.
    - apply Z.gtb_lt. lia. }
  assert (Hloop : executeTransaction_loop toUtf8String this (S fuel) f
                  = (Return tt, set_world w' f)).
  { cbn [executeTransaction_loop]. unfold bind at 1, get.
    rewrite Hpending, Hreached. reflexivity. }
  split; [exact Hloop |].
  rewrite Hloop. unfold return_output. cbn [set_world f_output f_world].
  rewrite (loop_head_output _ _ _ _ _ _ Hhead Hpending). reflexivity.
Qed.

Lemma after_two_timeouts_is_loop_head :
  loop_head Scenario.toUtf8String (Scenario.manager 2)
    (initial_frame Scenario.two_timeouts (Scenario.sent "0xaa" 7) Scenario.legacyConfig)
    Scenario.after_two_timeouts.
Proof.
  unfold Scenario.after_two_timeouts.
  apply (head_next _ _ _
           (Scenario.turn
              (initial_frame Scenario.two_timeouts (Scenario.sent "0xaa" 7)
                 Scenario.legacyConfig))).
  - apply (head_next _ _ _
             (initial_frame Scenario.two_timeouts (Scenario.sent "0xaa" 7)
                Scenario.legacyConfig)).
    + apply head_start.
    + reflexivity.
    + reflexivity.
    + vm_compute. reflexivity.
  - vm_compute. reflexivity.
  - vm_compute. reflexivity.
  - vm_compute. reflexivity.
Defined.

Lemma attempt_limit_gives_up_witness :
  attempt (f_txConfig Scenario.after_two_timeouts) = 3
  /\ return_output
       (executeTransaction_loop Scenario.toUtf8String (Scenario.manager 2) 1
          Scenario.after_two_timeouts)
     = (Return (ROutput None),
        record_events
          [EvDelay 30000; EvLog LWarn "Transaction retry limit reached, giving up"]
          (f_world Scenario.after_two_timeouts)).
Proof.
  split; [vm_compute; reflexivity |].
  apply (attempt_limit_gives_up Scenario.toUtf8String (Scenario.manager 2)
           Scenario.two_timeouts (Scenario.sent "0xaa" 7) Scenario.legacyConfig
           Scenario.after_two_timeouts 0 after_two_timeouts_is_loop_head).
  - vm_compute. reflexivity.
  - vm_compute. discriminate.
  - vm_compute. reflexivity.
Defined.

(** The whole method on that submission: two attempts, then an absent
    result. *)
Example executeTransaction_gives_up :
  let run := executeTransaction Scenario.toUtf8String (Scenario.manager 2)
               Scenario.two_timeouts in
  fst run = Return (ROutput None)
  /\ rev (filter (fun ev => is_submission_call ev || is_delay ev) (w_trace (snd run)))
     = [EvGetFeeData; EvGasEstimation; EvTransaction 150000;
        EvWaitForTransaction "0xaa" 3 240000;
        EvSendTransaction
          (retryRequest (Scenario.sent "0xaa" 7)
             (set_attempt 2 (set_gasPrice (Some 120) Scenario.legacyConfig)));
        EvWaitForTransaction "0xbb" 3 240000;
        EvDelay 30000].
Proof. cbv zeta. split; vm_compute; reflexivity. Qed.

(** ** Submission engine: reverted transactions *)

Lemma resubmit_txConfig :
  forall f r f1, resubmit f = (r, f1) -> f_txConfig f1 = f_txConfig f.
Proof.
  intros f r f1. unfold resubmit, bind at 1, get.
  destruct (attempt (f_txConfig f) >? 1); [| intros [= <- <-]; reflexivity].
  unfold bind, world, zoom, modify, log, emit, sendTransaction, settle, get, modify.
  cbn.
  destruct (hd_error (w_sendTransaction (f_world f))) as [[e | tx] |];
    cbn; intros [= <- <-]; reflexivity.
Qed.




(** ** Submission engine: the first attempt *)

Lemma getRevertReason_calls_first :
  forall (toUtf8String : string -> JsError + string)
         (txRequest : option TransactionRequest) (w : World) r w',
    getRevertReason toUtf8String txRequest w = (r, w') ->
    exists later, w_trace w' = (later ++ EvCall txRequest :: w_trace w)%list.
Proof.
  intros toUtf8String txRequest w r w' Hrun.
  unfold getRevertReason, call in Hrun.
  match type of Hrun with
  | bind (try_catch (bind (bind (emit ?ev) ?C) ?K1) ?H) ?K2 ?w0 = _ =>
    change (bind (try_catch (bind (C tt) K1) H) K2 (record_events [ev] w0) = (r, w')) in Hrun;
    assert (Hrest : extends w_trace (bind (try_catch (bind (C tt) K1) H) K2))
  end.
  { cbv beta.
    apply extends_bind; [| intros reason; repeat extends_step].
    apply extends_try_catch; [repeat extends_step |].
    intros e. destruct (body e) as [b |]; [| auto with traces].
    destruct (Js.includes b "out of gas"); auto with traces. }
  destruct (Hrest _ _ _ Hrun) as [later Hlater].
  exists later. exact Hlater.
Qed.

(** The first turn of the loop on a receipt with failure status: the call
    that follows the confirmation wait is the replay, on no request. *)
Lemma first_turn_calls_undefined :
  forall (toUtf8String : string -> JsError + string) (this : TransactionManager)
         (w : World) (tx : ContractTransaction) (txConfig : TransactionConfig)
         (receipt : ContractReceipt) r f',
    attempt txConfig = 1 ->
    hd_error (w_waitForTransaction w) = Some (inr receipt) ->
    status receipt = Some 0 ->
    try_catch (attempt_try toUtf8String this) attempt_catch (initial_frame w tx txConfig)
    = (r, f') ->
    exists later,
      frame_trace f'
      = (later ++ EvCall None
               :: EvWaitForTransaction (tx_hash tx) 3 (gasIncreaseTimeout (specification this))
               :: EvLog LInfo "Transaction pending" :: w_trace w)%list.
Proof.
  intros toUtf8String this w tx txConfig receipt r f' Hattempt Hwait Hstatus Hturn.
  destruct txConfig as [attempt0 type0 bump0 nonce0 maxFee0 maxPriority0 price0 limit0].
  cbn in Hattempt. subst attempt0.
  destruct w as [p o fees estimates txs sends receipts codes trace].
  destruct receipts as [| first receipts]; [discriminate |].
  cbn in Hwait. injection Hwait as ->.
  destruct receipt as [status0 events0 logs0]. cbn in Hstatus. subst status0.
  unfold try_catch, attempt_try, initial_frame in Hturn.
  cbv -[getRevertReason attempt_catch String.eqb] in Hturn.
  match type of Hturn with
  | context [getRevertReason toUtf8String None ?W] =>
    destruct (getRevertReason toUtf8String None W) as [r2 w3] eqn:Hdiag
  end.
  apply getRevertReason_calls_first in Hdiag. destruct Hdiag as [later Hlater].
  cbn [w_trace] in Hlater.
  assert (Hcaught :
            forall e f3, frame_trace f3 = w_trace w3 ->
                         attempt_catch e f3 = (r, f') ->
                         exists later', frame_trace f' = (later' ++ w_trace w3)%list).
  { intros e f3 Hf3 Hcatch.
    destruct (extends_attempt_catch e _ _ _ Hcatch) as [evs Hevs].
    exists evs. rewrite Hevs, Hf3. reflexivity. }
  assert (Hgoal : exists later', frame_trace f' = (later' ++ w_trace w3)%list).
  { destruct r2 as [reason | e | |].
    - destruct (String.eqb reason "out of gas");
        [| destruct (String.eqb reason "unknown")];
        (eapply Hcaught; [| exact Hturn]; reflexivity).
    - eapply Hcaught; [| exact Hturn]; reflexivity.
    - injection Hturn as <- <-. exists []. reflexivity.
    - injection Hturn as <- <-. exists []. reflexivity. }
  destruct Hgoal as [later' Hlater'].
  exists (later' ++ later)%list.
  rewrite Hlater', Hlater, <- app_assoc. reflexivity.
Qed.

Lemma executeTransaction_past_gates :
  forall (toUtf8String : string -> JsError + string) (this : TransactionManager) (w : World),
    w_paused w = false ->
    w_isOperator w = true ->
    executeTransaction toUtf8String this w
    = bind (prepare this)
        (fun prepared => submit toUtf8String this (fst prepared) (snd prepared))
        (record_events [EvIsOperatorValue; EvPausedValue] w).
Proof.
  intros toUtf8String this w Hpaused Hoperator.
  destruct w; cbn in Hpaused, Hoperator; subst. reflexivity.
Qed.

(** The configuration that [prepare] builds is on its first attempt. *)
Lemma prepare_attempt :
  forall (this : TransactionManager) (w w1 : World)
         (tx : ContractTransaction) (txConfig : TransactionConfig),
    prepare this w = (Return (tx, txConfig), w1) -> attempt txConfig = 1.
Proof.
  intros this w w1 tx txConfig. unfold prepare.
  unfold bind at 1.
  destruct (waitForGasPricesBelowThreshold this w) as [[feeData | e | |] wa]; try discriminate.
  unfold bind at 1.
  destruct (gasEstimation wa) as [[estimate | e | |] wb]; try discriminate.
  unfold bind at 1.
  destruct (toNumber estimate) as [e | n]; cbn [lift throw ret]; try discriminate.
  unfold bind at 1.
  destruct (transaction (pad n) wb) as [[tx' | e | |] wc]; try discriminate.
  unfold bind at 1.
  destruct (transactionType feeData) as [e | type']; cbn [lift throw ret]; try discriminate.
  unfold bind, log, emit, modify, ret. intros [= <- <- <-]. reflexivity.
Qed.

(** C10. When the receipt of the very first attempt has failure status,
    [getRevertReason] is invoked with an undefined transaction request: the
    request object is only built in the resubmission block, which attempt 1
    skips, so the call that follows the confirmation wait of the first
    transaction replays no request at all, and not the transaction that was
    sent. *)
Theorem first_attempt_diagnoses_undefined :
  forall (toUtf8String : string -> JsError + string) (this : TransactionManager)
         (w w1 : World) (tx : ContractTransaction) (txConfig : TransactionConfig)
         (receipt : ContractReceipt),
    w_paused w = false ->
    w_isOperator w = true ->
    prepare this (record_events [EvIsOperatorValue; EvPausedValue] w)
    = (Return (tx, txConfig), w1) ->
    maxTransactionAttempts (specification this) = 0
    \/ 1 <= maxTransactionAttempts (specification this) ->
    hd_error (w_waitForTransaction w1) = Some (inr receipt) ->
    status receipt = Some 0 ->
    attempt txConfig = 1
    /\ f_txRequest (initial_frame w1 tx txConfig) = None
    /\ exists later,
        w_trace (snd (executeTransaction toUtf8String this w))
        = (later ++ EvCall None
                 :: EvWaitForTransaction (tx_hash tx) 3
                      (gasIncreaseTimeout (specification this))
                 :: EvLog LInfo "Transaction pending" :: w_trace w1)%list.
Proof.
  intros toUtf8String this w w1 tx txConfig receipt
         Hpaused Hoperator Hprepare Hlimit Hwait Hstatus.
  pose proof (prepare_attempt _ _ _ _ _ Hprepare) as Hattempt.
  split; [exact Hattempt |]. split; [reflexivity |].
  assert (Hreached : limit_reached this txConfig = false).
  { unfold limit_reached. rewrite Hattempt.
    destruct Hlimit as [-> | Hlimit]; [reflexivity |].
    apply andb_false_iff. right.
    destruct (1 >? maxTransactionAttempts (specification this)) eqn:Hgt; [| reflexivity].
    apply Z.gtb_lt in Hgt. lia. }
  rewrite (executeTransaction_past_gates toUtf8String this w Hpaused Hoperator).
  unfold bind at 1. rewrite Hprepare. cbn [fst snd].
  unfold submit, loop_fuel. cbn [executeTransaction_loop].
  fold (initial_frame w1 tx txConfig).
  unfold bind at 1, get. cbn [initial_frame f_pending f_txConfig].
  rewrite Hreached. fold (initial_frame w1 tx txConfig).
  unfold bind at 1.
  destruct (try_catch (attempt_try toUtf8String this) attempt_catch
              (initial_frame w1 tx txConfig)) as [r f'] eqn:Hturn.
  destruct (first_turn_calls_undefined _ _ _ _ _ _ _ _ Hattempt Hwait Hstatus Hturn)
    as [later Hlater].
  unfold frame_trace in Hlater.
  destruct r as [[] | e | |]; cbn [return_output snd]; try (exists later; exact Hlater).
  match goal with
  | |- context [executeTransaction_loop toUtf8String this ?fuel f'] =>
    destruct (executeTransaction_loop toUtf8String this fuel f') as [r2 f2] eqn:Hloop
  end.
  destruct (extends_executeTransaction_loop _ _ _ _ _ _ Hloop) as [evs Hevs].
  unfold frame_trace in Hevs.
  exists (evs ++ later)%list.
  destruct r2; cbn [return_output snd]; rewrite Hevs, Hlater, <- app_assoc; reflexivity.
Qed.

Lemma first_attempt_diagnoses_undefined_witness :
  exists later,
    w_trace (snd (executeTransaction Scenario.toUtf8String (Scenario.manager 0)
                    Scenario.first_attempt_reverts))
    = (later ++ EvCall None
             :: EvWaitForTransaction "0xaa" 3 240000
             :: EvLog LInfo "Transaction pending"
             :: w_trace (snd (prepare (Scenario.manager 0)
                                (record_events [EvIsOperatorValue; EvPausedValue]
                                   Scenario.first_attempt_reverts))))%list.
Proof.
  apply (first_attempt_diagnoses_undefined Scenario.toUtf8String (Scenario.manager 0)
           Scenario.first_attempt_reverts
           (snd (prepare (Scenario.manager 0)
                   (record_events [EvIsOperatorValue; EvPausedValue]
                      Scenario.first_attempt_reverts)))
           (Scenario.sent "0xaa" 7) Scenario.legacyConfig Scenario.reverted).
  - reflexivity.
  - reflexivity.
  - vm_compute. reflexivity.
  - left. reflexivity.
  - vm_compute. reflexivity.
  - reflexivity.
Defined.

(** ** Event extractor *)






(** ** Fuel: the loops of the model are given enough of it *)

Section Spending.

Context {S : Type} (budget_of : S -> nat).

Lemma spends_one_to_raise :
  forall (A : Type) (m : M S A), spends_one budget_of m -> spends_to_raise budget_of m.
Proof.
  intros A m Hm s r s' Hrun. specialize (Hm s r s' Hrun).
  destruct r; auto. lia.
Qed.

Lemma spends_to_raise_none :
  forall (A : Type) (m : M S A), spends_to_raise budget_of m -> spends_none budget_of m.
Proof.
  intros A m Hm s r s' Hrun. specialize (Hm s r s' Hrun).
  destruct r; auto; lia.
Qed.

Lemma spends_to_raise_ret : forall (A : Type) (a : A), spends_to_raise budget_of (ret a).
Proof. intros A a s r s' [= <- <-]. cbn. lia. Qed.

Lemma spends_none_throw : forall (A : Type) (e : JsError), spends_none budget_of (@throw S A e).
Proof. intros A e s r s' [= <- <-]. cbn. lia. Qed.

Lemma spends_none_lift : forall (A : Type) (x : JsError + A), spends_none budget_of (lift x).
Proof.
  intros A [e | a]; [apply spends_none_throw |].
  apply spends_to_raise_none, spends_to_raise_ret.
Qed.

Lemma spends_to_raise_get : spends_to_raise budget_of get.
Proof. intros s r s' [= <- <-]. cbn. lia. Qed.

Lemma spends_to_raise_modify :
  forall f : S -> S,
    (forall s, budget_of (f s) = budget_of s) -> spends_to_raise budget_of (modify f).
Proof. intros f Hf s r s' [= <- <-]. cbn. rewrite Hf. lia. Qed.

Lemma spends_none_bind :
  forall (A B : Type) (m : M S A) (k : A -> M S B),
    spends_none budget_of m -> (forall a, spends_none budget_of (k a)) ->
    spends_none budget_of (bind m k).
Proof.
  intros A B m k Hm Hk s r s'. unfold bind.
  destruct (m s) as [[a | e | |] s1] eqn:Hrun; intros Hrest;
    pose proof (Hm _ _ _ Hrun) as H1; cbn in H1;
    try (injection Hrest as <- <-; exact H1).
  pose proof (Hk a _ _ _ Hrest) as H2. destruct r; auto; lia.
Qed.

Lemma spends_to_raise_bind :
  forall (A B : Type) (m : M S A) (k : A -> M S B),
    spends_to_raise budget_of m -> (forall a, spends_to_raise budget_of (k a)) ->
    spends_to_raise budget_of (bind m k).
Proof.
  intros A B m k Hm Hk s r s'. unfold bind.
  destruct (m s) as [[a | e | |] s1] eqn:Hrun; intros Hrest;
    pose proof (Hm _ _ _ Hrun) as H1; cbn in H1;
    try (injection Hrest as <- <-; exact H1).
  pose proof (Hk a _ _ _ Hrest) as H2. destruct r; auto; lia.
Qed.

Lemma spends_one_bind_l :
  forall (A B : Type) (m : M S A) (k : A -> M S B),
    spends_one budget_of m -> (forall a, spends_none budget_of (k a)) ->
    spends_one budget_of (bind m k).
Proof.
  intros A B m k Hm Hk s r s'. unfold bind.
  destruct (m s) as [[a | e | |] s1] eqn:Hrun; intros Hrest;
    pose proof (Hm _ _ _ Hrun) as H1; cbn in H1;
    try (injection Hrest as <- <-; exact H1).
  pose proof (Hk a _ _ _ Hrest) as H2. destruct r; auto; lia.
Qed.

Lemma spends_one_bind_r :
  forall (A B : Type) (m : M S A) (k : A -> M S B),
    spends_to_raise budget_of m -> (forall a, spends_one budget_of (k a)) ->
    spends_one budget_of (bind m k).
Proof.
  intros A B m k Hm Hk s r s'. unfold bind.
  destruct (m s) as [[a | e | |] s1] eqn:Hrun; intros Hrest;
    pose proof (Hm _ _ _ Hrun) as H1; cbn in H1;
    try (injection Hrest as <- <-; exact H1).
  pose proof (Hk a _ _ _ Hrest) as H2. destruct r; auto; lia.
Qed.

Lemma spends_none_try_catch :
  forall (A : Type) (m : M S A) (handler : JsError -> M S A),
    spends_none budget_of m -> (forall e, spends_none budget_of (handler e)) ->
    spends_none budget_of (try_catch m handler).
Proof.
  intros A m handler Hm Hh s r s'. unfold try_catch.
  destruct (m s) as [[a | e | |] s1] eqn:Hrun; intros Hrest;
    pose proof (Hm _ _ _ Hrun) as H1; cbn in H1;
    try (injection Hrest as <- <-; exact H1).
  pose proof (Hh e _ _ _ Hrest) as H2. destruct r; auto; lia.
Qed.

Lemma spends_one_try_catch :
  forall (A : Type) (m : M S A) (handler : JsError -> M S A),
    spends_one budget_of m -> (forall e, spends_none budget_of (handler e)) ->
    spends_one budget_of (try_catch m handler).
Proof.
  intros A m handler Hm Hh s r s'. unfold try_catch.
  destruct (m s) as [[a | e | |] s1] eqn:Hrun; intros Hrest;
    pose proof (Hm _ _ _ Hrun) as H1; cbn in H1;
    try (injection Hrest as <- <-; exact H1).
  pose proof (Hh e _ _ _ Hrest) as H2. destruct r; auto; lia.
Qed.

Lemma spends_none_fueled :
  forall (A : Type) (m : M S A), spends_none budget_of m -> fueled m.
Proof.
  intros A m Hm s Hout. destruct (m s) as [r s'] eqn:Hrun.
  cbn in Hout. subst r. exact (Hm _ _ _ Hrun).
Qed.

End Spending.

Lemma fueled_bind :
  forall (S A B : Type) (m : M S A) (k : A -> M S B),
    fueled m -> (forall a, fueled (k a)) -> fueled (bind m k).
Proof.
  intros S A B m k Hm Hk s. unfold bind.
  pose proof (Hm s) as H1.
  destruct (m s) as [[a | e | |] s1]; cbn in *; try discriminate.
  - apply Hk.
  - congruence.
Qed.

Create HintDb spending.

#[export] Hint Resolve spends_to_raise_ret spends_none_throw spends_none_lift
  spends_to_raise_get spends_none_bind spends_none_try_catch
  spends_to_raise_none spends_one_to_raise : spending.

Ltac zoom_spending Hproj Hupd Hm :=
  let s := fresh "s" in
  let r := fresh "r" in
  let s' := fresh "s'" in
  let Hrun := fresh "Hrun" in
  let H1 := fresh "H" in
  intros s r s'; unfold zoom;
  match goal with
  | |- (let (_, _) := ?m ?t in _) = _ -> _ =>
    destruct (m t) as [? ?] eqn:Hrun
  end;
  intros [= <- <-];
  pose proof (Hm _ _ _ Hrun) as H1;
  rewrite Hupd, <- Hproj; exact H1.

Section ZoomSpending.

Context {S T A : Type} (budget_of : S -> nat) (inner : T -> nat).
Context (proj : S -> T) (upd : T -> S -> S) (m : M T A).
Hypothesis Hproj : forall s, inner (proj s) = budget_of s.
Hypothesis Hupd : forall t s, budget_of (upd t s) = inner t.

Lemma spends_none_zoom : spends_none inner m -> spends_none budget_of (zoom proj upd m).
Proof. intros Hm. zoom_spending Hproj Hupd Hm. Qed.

Lemma spends_to_raise_zoom :
  spends_to_raise inner m -> spends_to_raise budget_of (zoom proj upd m).
Proof. intros Hm. zoom_spending Hproj Hupd Hm. Qed.

Lemma spends_one_zoom : spends_one inner m -> spends_one budget_of (zoom proj upd m).
Proof. intros Hm. zoom_spending Hproj Hupd Hm. Qed.

End ZoomSpending.

Lemma spends_to_raise_emit : forall ev, spends_to_raise budget (emit ev).
Proof. intros ev s r s' [= <- <-]. cbn. unfold budget. cbn. lia. Qed.

Lemma spends_none_settle :
  forall (A : Type) (answer : option (JsError + A)), spends_none budget (settle answer).
Proof.
  intros A [x |]; [apply spends_none_lift |].
  intros s r s' [= <- <-]. exact I.
Qed.

Lemma spends_one_sendTransaction :
  forall txRequest, spends_one budget (sendTransaction txRequest).
Proof.
  intros txRequest s r s'.
  unfold sendTransaction, bind, emit, modify, get, settle. cbn.
  destruct s as [p o fees estimates txs sends receipts codes trace]. cbn.
  destruct sends as [| [e | tx] sends]; cbn; intros [= <- <-];
    unfold budget; cbn; lia.
Qed.

Lemma spends_one_waitForTransaction :
  forall hash confirmations timeout,
    spends_one budget (waitForTransaction hash confirmations timeout).
Proof.
  intros hash confirmations timeout s r s'.
  unfold waitForTransaction, bind, emit, modify, get, settle. cbn.
  destruct s as [p o fees estimates txs sends receipts codes trace]. cbn.
  destruct receipts as [| [e | receipt] receipts]; cbn; intros [= <- <-];
    unfold budget; cbn; lia.
Qed.

Lemma spends_none_call : forall txRequest, spends_none budget (call txRequest).
Proof.
  intros txRequest s r s'.
  unfold call, bind, emit, modify, get, settle. cbn.
  destruct s as [p o fees estimates txs sends receipts codes trace]. cbn.
  destruct codes as [| [e | code] codes]; cbn; intros [= <- <-];
    unfold budget; cbn; lia.
Qed.

Lemma spends_to_raise_log : forall level message, spends_to_raise budget (log level message).
Proof. intros. apply spends_to_raise_emit. Qed.

Lemma spends_to_raise_delay : forall ms, spends_to_raise budget (delay ms).
Proof. intros. apply spends_to_raise_emit. Qed.

#[export] Hint Resolve spends_to_raise_emit spends_none_settle spends_none_call
  spends_to_raise_log spends_to_raise_delay : spending.

Lemma spends_none_world :
  forall (A : Type) (m : M World A),
    spends_none budget m -> spends_none frame_budget (world m).
Proof. intros A m Hm. unfold world. apply (spends_none_zoom frame_budget budget); auto. Qed.

Lemma spends_to_raise_world :
  forall (A : Type) (m : M World A),
    spends_to_raise budget m -> spends_to_raise frame_budget (world m).
Proof. intros A m Hm. unfold world. apply (spends_to_raise_zoom frame_budget budget); auto. Qed.

Lemma spends_one_world :
  forall (A : Type) (m : M World A),
    spends_one budget m -> spends_one frame_budget (world m).
Proof. intros A m Hm. unfold world. apply (spends_one_zoom frame_budget budget); auto. Qed.

Lemma spends_none_inWorld :
  forall (A : Type) (m : M World A),
    spends_none budget m -> spends_none classifier_budget (inWorld m).
Proof.
  intros A m Hm. unfold inWorld. apply (spends_none_zoom classifier_budget budget); auto.
Qed.

Lemma spends_none_classifier :
  forall (A : Type) (m : M Classifier A),
    spends_none classifier_budget m -> spends_none frame_budget (classifier m).
Proof.
  intros A m Hm. unfold classifier.
  apply (spends_none_zoom frame_budget classifier_budget); auto.
Qed.

#[export] Hint Resolve spends_none_world spends_to_raise_world spends_one_world
  spends_none_inWorld spends_none_classifier : spending.

Ltac spends_none_step :=
  first [ apply spends_none_bind; [| intros ? ]
        | apply spends_to_raise_none, spends_to_raise_modify; intros ?; reflexivity
        | solve [ auto 6 with spending ] ].

Lemma spends_none_updateTransactionConfig :
  forall error, spends_none classifier_budget (updateTransactionConfig error).
Proof.
  intros error. unfold updateTransactionConfig, txConfig_get, txConfig_set.
  apply spends_none_bind; [auto 6 with spending | intros _].
  apply spends_none_bind.
  - destruct error as [code cause | message b].
    + destruct (IndexerErrorCode_eqb code IE050); [repeat spends_none_step |].
      destruct (IndexerErrorCode_eqb code IE051); auto with spending.
    + destruct (isAlreadyBroadcast message); [repeat spends_none_step |].
      destruct (isNonceTooLow message); [repeat spends_none_step |].
      destruct (isFeeTooLow message); [| auto with spending].
      apply spends_none_bind; [repeat spends_none_step | intros c].
      destruct (type c); repeat spends_none_step.
  - intros _. repeat spends_none_step.
Qed.

Lemma spends_none_getRevertReason :
  forall toUtf8String txRequest,
    spends_none budget (getRevertReason toUtf8String txRequest).
Proof.
  intros toUtf8String txRequest. unfold getRevertReason.
  apply spends_none_bind; [| intros reason; repeat spends_none_step].
  apply spends_none_try_catch; [repeat spends_none_step |].
  intros e. destruct (body e) as [b |]; [| auto with spending].
  destruct (Js.includes b "out of gas"); auto with spending.
Qed.

Lemma spends_to_raise_resubmit : spends_to_raise frame_budget resubmit.
Proof.
  unfold resubmit.
  apply spends_to_raise_bind; [apply spends_to_raise_get | intros f].
  destruct (attempt (f_txConfig f) >? 1); [| apply spends_to_raise_ret].
  apply spends_one_to_raise.
  apply spends_one_bind_r; [auto with spending | intros _].
  apply spends_one_bind_r; [apply spends_to_raise_modify; intros ?; reflexivity | intros _].
  apply spends_one_bind_l; [apply spends_one_world, spends_one_sendTransaction | intros tx].
  apply spends_to_raise_none, spends_to_raise_modify. intros ?. reflexivity.
Qed.

Lemma spends_one_attempt_try :
  forall toUtf8String this, spends_one frame_budget (attempt_try toUtf8String this).
Proof.
  intros toUtf8String this. unfold attempt_try.
  apply spends_one_bind_r; [apply spends_to_raise_resubmit | intros _].
  apply spends_one_bind_r; [auto with spending | intros _].
  apply spends_one_bind_r; [apply spends_to_raise_get | intros f].
  apply spends_one_bind_l; [apply spends_one_world, spends_one_waitForTransaction |].
  intros receipt.
  apply spends_none_bind; [| intros _; repeat spends_none_step].
  destruct (status_is_zero receipt); [| auto with spending].
  apply spends_none_bind; [auto with spending | intros f1].
  apply spends_none_bind.
  - apply spends_none_world, spends_none_getRevertReason.
  - intros reason.
    destruct (String.eqb reason "out of gas"); [auto with spending |].
    destruct (String.eqb reason "unknown"); auto with spending.
Qed.

Lemma spends_none_attempt_catch :
  forall error, spends_none frame_budget (attempt_catch error).
Proof.
  intros error. unfold attempt_catch.
  apply spends_none_bind.
  - apply spends_none_classifier, spends_none_updateTransactionConfig.
  - intros c. apply spends_to_raise_none, spends_to_raise_modify. intros ?. reflexivity.
Qed.

(** A turn of the loop that is followed by another one took an answer of the
    wallet or of the confirmation wait. *)
Lemma executeTransaction_loop_fueled :
  forall toUtf8String this (fuel : nat) (f : Frame),
    (frame_budget f < fuel)%nat ->
    fst (executeTransaction_loop toUtf8String this fuel f) <> OutOfFuel.
Proof.
  intros toUtf8String this fuel. induction fuel as [| fuel IH]; intros f Hfuel; [lia |].
  cbn [executeTransaction_loop]. unfold bind at 1, get.
  destruct (f_pending f); [| discriminate].
  destruct (limit_reached this (f_txConfig f)); [discriminate |].
  unfold bind at 1.
  destruct (try_catch (attempt_try toUtf8String this) attempt_catch f) as [r f'] eqn:Hturn.
  assert (Hspent : spends_one frame_budget
                     (try_catch (attempt_try toUtf8String this) attempt_catch)).
  { apply spends_one_try_catch;
      [apply spends_one_attempt_try | apply spends_none_attempt_catch]. }
  specialize (Hspent _ _ _ Hturn).
  destruct r as [[] | e | |]; cbn; try discriminate.
  - apply IH. lia.
  - contradiction.
Qed.

Lemma getFeeData_settles :
  forall w : World,
    getFeeData w
    = settle (hd_error (w_getFeeData w)) (drop_getFeeData 1 (record_events [EvGetFeeData] w)).
Proof.
  intros w. destruct w as [p o fees estimates txs sends receipts codes trace].
  destruct fees; reflexivity.
Qed.

(** Every turn of the fee loop that is followed by another one took an answer
    of [getFeeData]. *)
Lemma waitForGasPrices_loop_fueled :
  forall (this : TransactionManager) (fuel : nat) (attempt : Z) (w : World),
    (List.length (w_getFeeData w) < fuel)%nat ->
    fst (waitForGasPrices_loop this fuel attempt w) <> OutOfFuel.
Proof.
  intros this fuel. induction fuel as [| fuel IH]; intros attempt w Hfuel; [lia |].
  cbn [waitForGasPrices_loop]. unfold bind at 1. rewrite getFeeData_settles.
  destruct (w_getFeeData w) as [| [e | feeData] rest] eqn:Hscript;
    cbn [hd_error settle lift throw ret fst]; try discriminate.
  assert (Hnext : forall level message attempt',
             fst (waitForGasPrices_loop this fuel attempt'
                    (record_events [EvDelay 30000; EvLog level message]
                       (drop_getFeeData 1 (record_events [EvGetFeeData] w))))
             <> OutOfFuel).
  { intros level message attempt'. apply IH. cbn. rewrite Hscript. cbn in *. lia. }
  unfold bind at 1.
  destruct (transactionType feeData) as [e | [|]]; cbn [lift throw ret fst];
    try discriminate.
  - unfold bind at 1.
    destruct (fd_gasPrice feeData) as [price |]; cbn [nonNull lift throw ret fst];
      try discriminate.
    unfold bind at 1.
    destruct (toNumber price) as [e | n]; cbn [lift throw ret fst]; try discriminate.
    destruct (n >=? adjustedBaseFeePerGasMax this); [| discriminate].
    destruct (attempt =? 1); apply Hnext.
  - unfold bind at 1.
    destruct (fd_maxFeePerGas feeData) as [maxFee |]; cbn [nonNull lift throw ret fst];
      try discriminate.
    unfold bind at 1.
    destruct (fd_maxPriorityFeePerGas feeData) as [maxPriority |];
      cbn [nonNull lift throw ret fst]; try discriminate.
    unfold bind at 1.
    destruct (toNumber (Z.quot (maxFee - maxPriority) 2)) as [e | n];
      cbn [lift throw ret fst]; try discriminate.
    destruct (n >=? adjustedBaseFeePerGasMax this); [| discriminate].
    destruct (attempt =? 1); apply Hnext.
Qed.

Lemma fueled_waitForGasPricesBelowThreshold :
  forall this, fueled (waitForGasPricesBelowThreshold this).
Proof.
  intros this w. unfold waitForGasPricesBelowThreshold.
  apply waitForGasPrices_loop_fueled. lia.
Qed.

Lemma fueled_gasEstimation : fueled gasEstimation.
Proof.
  intros w. destruct w as [p o fees estimates txs sends receipts codes trace].
  destruct estimates as [| [e | estimate] estimates]; discriminate.
Qed.

Lemma fueled_transaction : forall gasLimit, fueled (transaction gasLimit).
Proof.
  intros gasLimit w. destruct w as [p o fees estimates txs sends receipts codes trace].
  destruct txs as [| [e | tx] txs]; discriminate.
Qed.

Lemma fueled_lift : forall (S A : Type) (x : JsError + A), fueled (@lift S A x).
Proof. intros S A [e | a] s; discriminate. Qed.

Lemma fueled_submit :
  forall toUtf8String this tx txConfig, fueled (submit toUtf8String this tx txConfig).
Proof.
  intros toUtf8String this tx txConfig w. unfold submit.
  pose proof (executeTransaction_loop_fueled toUtf8String this (loop_fuel w)
                (initial_frame w tx txConfig)) as Hloop.
  fold (initial_frame w tx txConfig).
  destruct (executeTransaction_loop toUtf8String this (loop_fuel w)
              (initial_frame w tx txConfig)) as [[[] | e | |] f']; cbn; try discriminate.
  intros _. apply Hloop; [| reflexivity].
  unfold loop_fuel, frame_budget, budget. cbn. lia.
Qed.

Lemma fueled_prepare : forall this, fueled (prepare this).
Proof.
  intros this. unfold prepare.
  apply fueled_bind; [apply fueled_waitForGasPricesBelowThreshold | intros feeData].
  apply fueled_bind; [apply fueled_gasEstimation | intros estimate].
  apply fueled_bind; [apply fueled_lift | intros n].
  apply fueled_bind; [apply fueled_transaction | intros tx].
  apply fueled_bind; [apply fueled_lift | intros type].
  intros w. discriminate.
Qed.

(** The model of [executeTransaction] never stops for lack of fuel: whatever
    the world, it resolves, raises, or waits for an answer that does not
    come. *)
Theorem executeTransaction_fueled :
  forall toUtf8String this, fueled (executeTransaction toUtf8String this).
Proof.
  intros toUtf8String this w. unfold executeTransaction.
  apply fueled_bind; [intros s; discriminate | intros isPaused].
  destruct isPaused; [intros s; discriminate |].
  apply fueled_bind; [intros s; discriminate | intros isOperator].
  destruct isOperator; cbn [negb]; [| intros s; discriminate].
  apply fueled_bind; [apply fueled_prepare | intros prepared].
  apply fueled_submit.
Qed.

(** * Further properties *)

(** ** Fee mechanism and fee policy *)

(** X1. [transactionType] is decided by which fields are set, whatever their
    values: [TWO] exactly when both fee-market fields are set, [ZERO] exactly
    when the gas price is set and a fee-market field is missing, and an error
    exactly when the gas price is missing together with a fee-market field. *)
Theorem transactionType_characterised :
  forall data : FeeData,
    (transactionType data = inr TWO
     <-> fd_maxPriorityFeePerGas data <> None /\ fd_maxFeePerGas data <> None)
    /\ (transactionType data = inr ZERO
        <-> fd_gasPrice data <> None
            /\ (fd_maxPriorityFeePerGas data = None \/ fd_maxFeePerGas data = None))
    /\ ((exists e, transactionType data = inl e)
        <-> fd_gasPrice data = None
            /\ (fd_maxPriorityFeePerGas data = None \/ fd_maxFeePerGas data = None)).
Proof.
  intros [[price |] [maxFee |] [maxPriority |]]; unfold transactionType; cbn;
    (split; [| split]); split;
    try (intros [? [? | ?]]); try (intros [? ?]); try intros ?;
    repeat match goal with
           | H : exists _, _ |- _ => destruct H
           end;
    try discriminate; try congruence;
    try (eexists; reflexivity);
    try (split; [| first [left; reflexivity | right; reflexivity]]);
    try (split; congruence); try congruence.
Qed.

Lemma toNumber_value : forall b n : Z, toNumber b = inr n -> n = b /\ Z.abs b < 2 ^ 53.
Proof.
  intros b n. unfold toNumber.
  destruct (Z.ltb_spec (Z.abs b) (2 ^ 53)); [| discriminate].
  intros [= <-]. split; [reflexivity | assumption].
Qed.

Lemma waitForGasPrices_loop_returns_below :
  forall (this : TransactionManager) (fuel : nat) (attempt : Z) (w w' : World)
         (feeData : FeeData),
    waitForGasPrices_loop this fuel attempt w = (Return feeData, w') ->
    exists fee,
      referenceFee feeData = Some fee
      /\ fee < adjustedBaseFeePerGasMax this
      /\ (transactionType feeData = inr TWO -> fd_gasPrice feeData = None).
Proof.
  intros this fuel. induction fuel as [| fuel IH]; intros attempt w w' returned;
    [discriminate |].
  cbn [waitForGasPrices_loop]. unfold bind at 1. rewrite getFeeData_settles.
  destruct (w_getFeeData w) as [| [e | feeData] rest] eqn:Hscript;
    cbn [hd_error settle lift throw ret]; try discriminate.
  unfold bind at 1.
  destruct (transactionType feeData) as [e | [|]] eqn:Htype; cbn [lift throw ret];
    try discriminate.
  - unfold bind at 1.
    destruct (fd_gasPrice feeData) as [price |] eqn:Hprice; cbn [nonNull lift throw ret];
      try discriminate.
    unfold bind at 1.
    destruct (toNumber price) as [e | n] eqn:Hnumber; cbn [lift throw ret];
      try discriminate.
    destruct (toNumber_value _ _ Hnumber) as [-> _].
    destruct (price >=? adjustedBaseFeePerGasMax this) eqn:Hge.
    + destruct (attempt =? 1); unfold bind at 1 2, log, delay, emit, modify;
        intros Hrest; exact (IH _ _ _ _ Hrest).
    + intros [= <- <-]. exists price. split; [| split].
      * unfold referenceFee. rewrite Htype. exact Hprice.
      * destruct (Z.geb_spec price (adjustedBaseFeePerGasMax this)); [discriminate | lia].
      * rewrite Htype. discriminate.
  - unfold bind at 1.
    destruct (fd_maxFeePerGas feeData) as [maxFee |] eqn:HmaxFee;
      cbn [nonNull lift throw ret]; try discriminate.
    unfold bind at 1.
    destruct (fd_maxPriorityFeePerGas feeData) as [maxPriority |] eqn:HmaxPriority;
      cbn [nonNull lift throw ret]; try discriminate.
    unfold bind at 1.
    destruct (toNumber (Z.quot (maxFee - maxPriority) 2)) as [e | n] eqn:Hnumber;
      cbn [lift throw ret]; try discriminate.
    destruct (toNumber_value _ _ Hnumber) as [-> _].
    destruct (Z.quot (maxFee - maxPriority) 2 >=? adjustedBaseFeePerGasMax this) eqn:Hge.
    + destruct (attempt =? 1); unfold bind at 1 2, log, delay, emit, modify;
        intros Hrest; exact (IH _ _ _ _ Hrest).
    + intros [= <- <-]. exists (Z.quot (maxFee - maxPriority) 2). split; [| split].
      * unfold referenceFee, transactionType, clear_gasPrice. cbn.
        rewrite HmaxFee, HmaxPriority. reflexivity.
      * destruct (Z.geb_spec (Z.quot (maxFee - maxPriority) 2)
                    (adjustedBaseFeePerGasMax this)); [discriminate | lia].
      * intros _. reflexivity.
Qed.

(** X2. Whatever the chain client answers, a snapshot that
    [waitForGasPricesBelowThreshold] returns has its reference fee strictly
    below the ceiling, and carries no gas price when it is a fee-market
    snapshot. *)
Theorem waitForGasPricesBelowThreshold_returns_below :
  forall (this : TransactionManager) (w w' : World) (feeData : FeeData),
    waitForGasPricesBelowThreshold this w = (Return feeData, w') ->
    exists fee,
      referenceFee feeData = Some fee
      /\ fee < adjustedBaseFeePerGasMax this
      /\ (transactionType feeData = inr TWO -> fd_gasPrice feeData = None).
Proof.
  intros this w w' feeData. unfold waitForGasPricesBelowThreshold.
  apply waitForGasPrices_loop_returns_below.
Qed.

Lemma waitForGasPricesBelowThreshold_returns_below_witness :
  exists fee,
    referenceFee (mkFeeData None (Some 30) (Some 10)) = Some fee
    /\ fee < adjustedBaseFeePerGasMax (Scenario.manager 0)
    /\ (transactionType (mkFeeData None (Some 30) (Some 10)) = inr TWO ->
        fd_gasPrice (mkFeeData None (Some 30) (Some 10)) = None).
Proof.
  apply (waitForGasPricesBelowThreshold_returns_below (Scenario.manager 0)
           (Scenario.polling [Scenario.modern 250 50; Scenario.modern 30 10])
           (snd (waitForGasPricesBelowThreshold (Scenario.manager 0)
                   (Scenario.polling [Scenario.modern 250 50; Scenario.modern 30 10])))).
  vm_compute. reflexivity.
Defined.




(** ** Error classifier *)

(** X4. An error the classifier does not know (an [IndexerError] other than
    [IE050] and [IE051], such as [IE057], or an error whose message passes
    none of the three tests) changes nothing in the configuration but the
    attempt counter, which grows by 1: the loop will send the very same
    request again. *)
Theorem unclassified_error_only_counts :
  forall (error : JsError) (w : World) (c : TransactionConfig),
    unclassified error = true ->
    updateTransactionConfig error (w, c)
    = (Return (set_attempt (attempt c + 1) c),
       (record_events [classifier_log] w, set_attempt (attempt c + 1) c)).
Proof.
  intros error w c Hunknown. unfold updateTransactionConfig.
  destruct error as [code cause | message b]; cbn [unclassified] in Hunknown.
  - apply andb_true_iff in Hunknown. destruct Hunknown as [H50 H51].
    apply negb_true_iff in H50, H51. rewrite H50, H51. reflexivity.
  - apply andb_true_iff in Hunknown. destruct Hunknown as [Hunknown Hfee].
    apply andb_true_iff in Hunknown. destruct Hunknown as [Hdup Hnonce].
    apply negb_true_iff in Hdup, Hnonce, Hfee. rewrite Hdup, Hnonce, Hfee. reflexivity.
Qed.

Lemma unclassified_error_only_counts_witness :
  updateTransactionConfig (Error "insufficient funds for gas * price + value" None)
    (Scenario.idle, Scenario.legacyConfig)
  = (Return (set_attempt 2 Scenario.legacyConfig),
     (record_events [classifier_log] Scenario.idle, set_attempt 2 Scenario.legacyConfig)).
Proof.
  apply (unclassified_error_only_counts
           (Error "insufficient funds for gas * price + value" None)
           Scenario.idle Scenario.legacyConfig).
  vm_compute. reflexivity.
Defined.

Ltac classifier_cases error c :=
  unfold updateTransactionConfig;
  destruct error as [[| | |] ?cause | ?message ?b];
  [ | | | |
    destruct (isAlreadyBroadcast message);
    [ | destruct (isNonceTooLow message);
        [ | destruct (isFeeTooLow message) ] ] ];
  destruct c as [?attempt0 [|] ?bump0 ?nonce0 [?maxFee0 |] [?maxPriority0 |] [?price0 |] ?limit0].

(** X5. Whenever the classifier returns, whatever the error, it returns the
    object it was handed, with the attempt counter grown by exactly 1, the
    mechanism and the bump factor as they were, and the nonce either as it was
    or grown by 1. *)
Theorem classifier_counts_every_retry :
  forall (error : JsError) (w w' : World) (c c' returned : TransactionConfig),
    updateTransactionConfig error (w, c) = (Return returned, (w', c')) ->
    returned = c'
    /\ attempt c' = attempt c + 1
    /\ type c' = type c
    /\ gasBump c' = gasBump c
    /\ nonce c <= nonce c' <= nonce c + 1.
Proof.
  intros error w w' c c' returned.
  classifier_cases error c;
    cbv -[Z.add Z.mul Z.quot Z.le]; intros Hrun;
    try discriminate;
    injection Hrun as <- <- <-; cbn [attempt type gasBump nonce];
    repeat split; lia.
Qed.

Lemma classifier_counts_every_retry_witness :
  attempt (classified (Error "timeout exceeded" None) Scenario.idle Scenario.modernConfig)
  = attempt Scenario.modernConfig + 1.
Proof.
  apply (classifier_counts_every_retry (Error "timeout exceeded" None)
           Scenario.idle
           (fst (snd (updateTransactionConfig (Error "timeout exceeded" None)
                        (Scenario.idle, Scenario.modernConfig))))
           Scenario.modernConfig
           (classified (Error "timeout exceeded" None) Scenario.idle Scenario.modernConfig)
           (classified (Error "timeout exceeded" None) Scenario.idle Scenario.modernConfig)).
  vm_compute. reflexivity.
Defined.

(** X6. Whenever the classifier raises, the attempt counter, the nonce, the
    gas limit, the gas price and the priority fee of the configuration are as
    they were; and an [IndexerError] makes it raise only when its code is
    [IE051], in which case it raises that very error. *)
Theorem classifier_raises_before_counting :
  forall (error e : JsError) (w w' : World) (c c' : TransactionConfig),
    updateTransactionConfig error (w, c) = (Throw e, (w', c')) ->
    attempt c' = attempt c
    /\ nonce c' = nonce c
    /\ gasLimit c' = gasLimit c
    /\ gasPrice c' = gasPrice c
    /\ maxPriorityFeePerGas c' = maxPriorityFeePerGas c
    /\ (forall code cause, error = IndexerError code cause -> code = IE051 /\ e = error).
Proof.
  intros error e w w' c c'.
  classifier_cases error c;
    cbv -[Z.add Z.mul Z.quot Z.le]; intros Hrun;
    try discriminate;
    injection Hrun as <- <- <-; cbn;
    repeat split;
    match goal with
    | H : _ = IndexerError _ _ |- _ =>
      first [ discriminate H | injection H as <- <-; reflexivity ]
    end.
Qed.

Lemma classifier_raises_before_counting_witness :
  attempt (classified (IndexerError IE051 None) Scenario.idle Scenario.legacyConfig)
  = attempt Scenario.legacyConfig.
Proof.
  apply (classifier_raises_before_counting (IndexerError IE051 None) (IndexerError IE051 None)
           Scenario.idle
           (fst (snd (updateTransactionConfig (IndexerError IE051 None)
                        (Scenario.idle, Scenario.legacyConfig))))
           Scenario.legacyConfig
           (classified (IndexerError IE051 None) Scenario.idle Scenario.legacyConfig)).
  vm_compute. reflexivity.
Defined.


(** ** Revert diagnoser *)

(** X8. [getRevertReason] has three ways to end when the replay fails, that
    is when the call is rejected or its return data is not text: the reason
    'out of gas', logged, when the body of the error includes these words;
    the error [IE051], not logged, when the error has a body without them;
    and a [TypeError], which is neither, when the error has no body at all. *)
Theorem getRevertReason_of_failed_replay :
  forall (toUtf8String : string -> JsError + string)
         (txRequest : option TransactionRequest) (w : World)
         (answer : JsError + string) (e : JsError),
    hd_error (w_call w) = Some answer ->
    replay_failure toUtf8String answer = Some e ->
    getRevertReason toUtf8String txRequest w
    = match body e with
      | Some b =>
        if Js.includes b "out of gas" then
          (Return "out of gas",
           record_events [EvLog LWarn "Transaction reverted:"] (replayed txRequest w))
        else
          (Throw (indexerError IE051 None), replayed txRequest w)
      | None =>
        (Throw (TypeError "undefined (reading 'includes')"), replayed txRequest w)
      end.
Proof.
  intros toUtf8String txRequest w answer e Hcall Hfailure.
  destruct w as [p o fees estimates txs sends receipts codes trace].
  destruct codes as [| first codes]; [discriminate |].
  cbn in Hcall. injection Hcall as ->.
  unfold getRevertReason, try_catch, call. unfold replay_failure in Hfailure.
  destruct answer as [e' | code].
  - injection Hfailure as ->.
    cbv -[append Js.substr Js.includes body].
    destruct (body e) as [b |]; [| reflexivity].
    destruct (Js.includes b "out of gas"); reflexivity.
  - cbv -[append Js.substr Js.includes body].
    destruct (toUtf8String ("0x" ++ Js.substr code 138)) as [e' | reason]; [| discriminate].
    injection Hfailure as ->.
    destruct (body e) as [b |]; [| reflexivity].
    destruct (Js.includes b "out of gas"); reflexivity.
Qed.

Lemma getRevertReason_of_failed_replay_witness :
  getRevertReason Scenario.toUtf8String None
    (took_receipt Scenario.first_attempt_reverts)
  = (Throw (indexerError IE051 None),
     replayed None (took_receipt Scenario.first_attempt_reverts)).
Proof.
  apply (getRevertReason_of_failed_replay Scenario.toUtf8String None
           (took_receipt Scenario.first_attempt_reverts)
           (inl (Error "missing revert data" (Some "execution reverted")))
           (Error "missing revert data" (Some "execution reverted"))).
  - reflexivity.
  - reflexivity.
Defined.

(** X9. When the replay returns data that decodes to text, that text is the
    diagnosed reason, whatever it says: [getRevertReason] logs and returns
    the bytes after the first 138 characters of the return data, decoded. *)
Theorem getRevertReason_of_decoded_replay :
  forall (toUtf8String : string -> JsError + string)
         (txRequest : option TransactionRequest) (w : World) (code reason : string),
    hd_error (w_call w) = Some (inr code) ->
    toUtf8String ("0x" ++ Js.substr code 138) = inr reason ->
    getRevertReason toUtf8String txRequest w
    = (Return reason,
       record_events [EvLog LWarn "Transaction reverted:"] (replayed txRequest w)).
Proof.
  intros toUtf8String txRequest w code reason Hcall Hdecode.
  destruct w as [p o fees estimates txs sends receipts codes trace].
  destruct codes as [| first codes]; [discriminate |].
  cbn in Hcall. injection Hcall as ->.
  unfold getRevertReason, try_catch, call.
  cbv -[append Js.substr Js.includes body]. rewrite Hdecode. reflexivity.
Qed.

Lemma getRevertReason_of_decoded_replay_witness :
  getRevertReason Scenario.toUtf8String None (took_receipt Scenario.revert_then_success)
  = (Return "paused",
     record_events [EvLog LWarn "Transaction reverted:"]
       (replayed None (took_receipt Scenario.revert_then_success))).
Proof.
  apply (getRevertReason_of_decoded_replay Scenario.toUtf8String None
           (took_receipt Scenario.revert_then_success) Scenario.revert_data "paused").
  - reflexivity.
  - vm_compute. reflexivity.
Defined.

(** ** Submission engine: how a turn of the loop ends *)

Lemma status_is_zero_false :
  forall receipt : ContractReceipt, status receipt <> Some 0 -> status_is_zero receipt = false.
Proof.
  intros receipt Hstatus. unfold status_is_zero.
  destruct (status receipt) as [s |]; [| reflexivity].
  destruct (Z.eqb_spec s 0); [subst; contradiction | reflexivity].
Qed.

(** X10. On any turn of the loop, a receipt whose status is not 0 (an absent
    status included) ends [executeTransaction]: it resolves to that very
    receipt, without replaying anything and without consulting the
    classifier. *)
Theorem confirmed_receipt_is_returned :
  forall (toUtf8String : string -> JsError + string) (this : TransactionManager)
         (fuel : nat) (f f1 : Frame) (receipt : ContractReceipt),
    f_pending f = true ->
    limit_reached this (f_txConfig f) = false ->
    resubmit f = (Return tt, f1) ->
    hd_error (w_waitForTransaction (f_world f1)) = Some (inr receipt) ->
    status receipt <> Some 0 ->
    return_output (executeTransaction_loop toUtf8String this (S (S fuel)) f)
    = (Return (ROutput (Some receipt)),
       record_events
         [EvLog LInfo "Transaction successfully included in block";
          EvWaitForTransaction (tx_hash (f_tx f1)) 3 (gasIncreaseTimeout (specification this));
          EvLog LInfo "Transaction pending"]
         (took_receipt (f_world f1))).
Proof.
  intros toUtf8String this fuel f f1 receipt Hpending Hlimit Hresubmit Hwait Hstatus.
  apply status_is_zero_false in Hstatus.
  cbn [executeTransaction_loop]. unfold bind at 1, get. rewrite Hpending, Hlimit.
  unfold bind at 1, try_catch, attempt_try. unfold bind at 1. rewrite Hresubmit.
  destruct f1 as [w1 pending1 output1 tx1 request1 config1].
  destruct w1 as [p o fees estimates txs sends receipts codes trace].
  destruct receipts as [| r receipts]; [discriminate |].
  cbn in Hwait. injection Hwait as ->.
  cbv -[status_is_zero]. rewrite Hstatus. reflexivity.
Qed.

Lemma confirmed_receipt_is_returned_witness :
  return_output
    (executeTransaction_loop Scenario.toUtf8String (Scenario.manager 0) 2
       (initial_frame Scenario.halted (Scenario.sent "0xaa" 7) Scenario.legacyConfig))
  = (Return (ROutput (Some Scenario.included)),
     record_events
       [EvLog LInfo "Transaction successfully included in block";
        EvWaitForTransaction "0xaa" 3 240000;
        EvLog LInfo "Transaction pending"]
       (took_receipt Scenario.halted)).
Proof.
  apply (confirmed_receipt_is_returned Scenario.toUtf8String (Scenario.manager 0) 0
           (initial_frame Scenario.halted (Scenario.sent "0xaa" 7) Scenario.legacyConfig)
           (initial_frame Scenario.halted (Scenario.sent "0xaa" 7) Scenario.legacyConfig)
           Scenario.included).
  - reflexivity.
  - reflexivity.
  - reflexivity.
  - reflexivity.
  - discriminate.
Defined.

(** X11. A receipt with failure status whose replay fails with the words
    'out of gas' in the body of the error is retried with more gas: the turn
    ends without an error, with the gas limit scaled by the bump factor, the
    nonce and the attempt counter grown by 1 and the fees untouched, and the
    loop goes on. *)
Theorem out_of_gas_revert_is_retried :
  forall (toUtf8String : string -> JsError + string) (this : TransactionManager)
         (fuel : nat) (f f1 : Frame) (receipt : ContractReceipt)
         (answer : JsError + string) (e : JsError) (b : string),
    f_pending f = true ->
    limit_reached this (f_txConfig f) = false ->
    resubmit f = (Return tt, f1) ->
    hd_error (w_waitForTransaction (f_world f1)) = Some (inr receipt) ->
    status receipt = Some 0 ->
    hd_error (w_call (f_world f1)) = Some answer ->
    replay_failure toUtf8String answer = Some e ->
    body e = Some b ->
    Js.includes b "out of gas" = true ->
    let w' :=
      record_events
        [classifier_log; EvLog LWarn "Transaction reverted:"; EvCall (f_txRequest f1);
         EvWaitForTransaction (tx_hash (f_tx f1)) 3 (gasIncreaseTimeout (specification this));
         EvLog LInfo "Transaction pending"]
        (took_call (took_receipt (f_world f1))) in
    let f' := set_txConfig (gas_bumped (f_txConfig f)) (set_world w' f1) in
    try_catch (attempt_try toUtf8String this) attempt_catch f = (Return tt, f')
    /\ executeTransaction_loop toUtf8String this (S fuel) f
       = executeTransaction_loop toUtf8String this fuel f'.
Proof.
  intros toUtf8String this fuel f f1 receipt answer e b
         Hpending Hlimit Hresubmit Hwait Hstatus Hcall Hfailure Hbody Hwords w' f'.
  pose proof (resubmit_txConfig _ _ _ Hresubmit) as Hconfig.
  assert (Hturn : try_catch (attempt_try toUtf8String this) attempt_catch f = (Return tt, f')).
  { subst f' w'. rewrite <- Hconfig. clear Hconfig.
    unfold try_catch, attempt_try. unfold bind at 1. rewrite Hresubmit.
    destruct f1 as [w1 pending1 output1 tx1 request1 config1].
    destruct w1 as [p o fees estimates txs sends receipts codes trace].
    destruct receipts as [| r receipts]; [discriminate |].
    destruct codes as [| c codes]; [discriminate |].
    cbn in Hwait, Hcall. injection Hwait as ->. injection Hcall as ->.
    destruct receipt as [status0 events0 logs0]. cbn in Hstatus. subst status0.
    cbv -[getRevertReason attempt_catch String.eqb].
    match goal with
    | |- context [getRevertReason toUtf8String request1 ?W] =>
      rewrite (getRevertReason_of_failed_replay toUtf8String request1 W answer e
                 eq_refl Hfailure)
    end.
    rewrite Hbody, Hwords.
    cbv -[Z.add Z.mul Z.quot]. reflexivity. }
  split; [exact Hturn |].
  cbn [executeTransaction_loop]. unfold bind at 1, get.
  rewrite Hpending, Hlimit. unfold bind at 1. rewrite Hturn. reflexivity.
Qed.

(** X12. A receipt with failure status whose replay fails with an error that
    has a body without the words 'out of gas' is fatal: [getRevertReason]
    raises [IE051], the classifier raises it again without touching the
    configuration, and the loop of [executeTransaction] ends with it. *)
Theorem undiagnosable_revert_is_fatal :
  forall (toUtf8String : string -> JsError + string) (this : TransactionManager)
         (fuel : nat) (f f1 : Frame) (receipt : ContractReceipt)
         (answer : JsError + string) (e : JsError) (b : string),
    f_pending f = true ->
    limit_reached this (f_txConfig f) = false ->
    resubmit f = (Return tt, f1) ->
    hd_error (w_waitForTransaction (f_world f1)) = Some (inr receipt) ->
    status receipt = Some 0 ->
    hd_error (w_call (f_world f1)) = Some answer ->
    replay_failure toUtf8String answer = Some e ->
    body e = Some b ->
    Js.includes b "out of gas" = false ->
    let w' :=
      record_events
        [classifier_log; EvCall (f_txRequest f1);
         EvWaitForTransaction (tx_hash (f_tx f1)) 3 (gasIncreaseTimeout (specification this));
         EvLog LInfo "Transaction pending"]
        (took_call (took_receipt (f_world f1))) in
    executeTransaction_loop toUtf8String this (S fuel) f
    = (Throw (indexerError IE051 None), set_world w' f1).
Proof.
  intros toUtf8String this fuel f f1 receipt answer e b
         Hpending Hlimit Hresubmit Hwait Hstatus Hcall Hfailure Hbody Hwords w'.
  subst w'.
  cbn [executeTransaction_loop]. unfold bind at 1, get. rewrite Hpending, Hlimit.
  unfold bind at 1, try_catch, attempt_try. unfold bind at 1. rewrite Hresubmit.
  destruct f1 as [w1 pending1 output1 tx1 request1 config1].
  destruct w1 as [p o fees estimates txs sends receipts codes trace].
  destruct receipts as [| r receipts]; [discriminate |].
  destruct codes as [| c codes]; [discriminate |].
  cbn in Hwait, Hcall. injection Hwait as ->. injection Hcall as ->.
  destruct receipt as [status0 events0 logs0]. cbn in Hstatus. subst status0.
  cbv -[getRevertReason attempt_catch String.eqb].
  match goal with
  | |- context [getRevertReason toUtf8String request1 ?W] =>
    rewrite (getRevertReason_of_failed_replay toUtf8String request1 W answer e
               eq_refl Hfailure)
  end.
  rewrite Hbody, Hwords. reflexivity.
Qed.

Lemma out_of_gas_revert_is_retried_witness :
  let f := initial_frame Cases.runs_out_of_gas (Scenario.sent "0xaa" 7) Scenario.legacyConfig in
  exists f',
    try_catch (attempt_try Scenario.toUtf8String (Scenario.manager 0)) attempt_catch f
    = (Return tt, f')
    /\ gasLimit (f_txConfig f') = 180000
    /\ nonce (f_txConfig f') = 8
    /\ gasPrice (f_txConfig f') = Some 100.
Proof.
  intros f.
  destruct (out_of_gas_revert_is_retried Scenario.toUtf8String (Scenario.manager 0) 0
              f f Scenario.reverted
              (inl (Error "call exception" (Some "{'error': 'out of gas'}")))
              (Error "call exception" (Some "{'error': 'out of gas'}"))
              "{'error': 'out of gas'}")
    as (Hturn & _).
  - reflexivity.
  - reflexivity.
  - reflexivity.
  - reflexivity.
  - reflexivity.
  - reflexivity.
  - reflexivity.
  - reflexivity.
  - vm_compute. reflexivity.
  - eexists. split; [exact Hturn |]. repeat split.
Defined.

Lemma undiagnosable_revert_is_fatal_witness :
  fst (executeTransaction_loop Scenario.toUtf8String (Scenario.manager 0) 1
         (initial_frame Scenario.first_attempt_reverts
            (Scenario.sent "0xaa" 7) Scenario.legacyConfig))
  = Throw (indexerError IE051 None).
Proof.
  rewrite (undiagnosable_revert_is_fatal Scenario.toUtf8String (Scenario.manager 0) 0
             (initial_frame Scenario.first_attempt_reverts
                (Scenario.sent "0xaa" 7) Scenario.legacyConfig)
             (initial_frame Scenario.first_attempt_reverts
                (Scenario.sent "0xaa" 7) Scenario.legacyConfig)
             Scenario.reverted
             (inl (Error "missing revert data" (Some "execution reverted")))
             (Error "missing revert data" (Some "execution reverted"))
             "execution reverted");
    reflexivity.
Defined.

(** X13. The resubmission block does nothing on a first attempt.  On a later
    attempt it logs, builds the request from the payload of the last sent
    transaction and from the nonce, fees and gas limit of the configuration,
    and hands it to the wallet; the request is recorded in [txRequest] also
    when the wallet rejects it, whereas [tx] only changes when the wallet
    accepts it. *)
Theorem resubmit_builds_request_from_config :
  forall f : Frame,
    (attempt (f_txConfig f) <= 1 -> resubmit f = (Return tt, f))
    /\ (1 < attempt (f_txConfig f) ->
        forall answer : JsError + ContractTransaction,
          hd_error (w_sendTransaction (f_world f)) = Some answer ->
          let request := retryRequest (f_tx f) (f_txConfig f) in
          let w' := record_events
                      [EvSendTransaction request; EvLog LInfo "Resubmitting transaction"]
                      (took_send (f_world f)) in
          resubmit f
          = match answer with
            | inr tx' =>
              (Return tt, set_tx tx' (set_txRequest (Some request) (set_world w' f)))
            | inl e =>
              (Throw e, set_txRequest (Some request) (set_world w' f))
            end).
Proof.
  intros f. split.
  - intros Hfirst. unfold resubmit, bind at 1, get.
    destruct (attempt (f_txConfig f) >? 1) eqn:Hgt; [| reflexivity].
    apply Z.gtb_lt in Hgt. lia.
  - intros Hlater answer Hsend request w'. subst request w'.
    assert (Hgt : (attempt (f_txConfig f) >? 1) = true) by (apply Z.gtb_lt; lia).
    unfold resubmit, bind at 1, get. rewrite Hgt.
    destruct f as [w pending0 output0 tx0 request0 config0].
    destruct w as [p o fees estimates txs sends receipts codes trace].
    destruct sends as [| first sends]; [discriminate |].
    cbn in Hsend. injection Hsend as ->.
    destruct answer as [e | tx']; reflexivity.
Qed.

Lemma resubmit_builds_request_from_config_witness :
  resubmit Cases.second_attempt_rejected
  = (Throw (Error "insufficient funds" None),
     set_txRequest
       (Some (retryRequest (Scenario.sent "0xaa" 7) (set_attempt 2 Scenario.legacyConfig)))
       (set_world
          (record_events
             [EvSendTransaction
                (retryRequest (Scenario.sent "0xaa" 7) (set_attempt 2 Scenario.legacyConfig));
              EvLog LInfo "Resubmitting transaction"]
             (took_send (f_world Cases.second_attempt_rejected)))
          Cases.second_attempt_rejected)).
Proof.
  refine (proj2 (resubmit_builds_request_from_config Cases.second_attempt_rejected) _
            (inl (Error "insufficient funds" None)) _).
  - cbn. lia.
  - reflexivity.
Defined.

(** X14. A confirmation wait that is rejected with a fee-too-low or timeout
    message on a legacy transaction ends the turn without an error, with the
    gas price scaled by the bump factor; the resubmission block of the next
    turn then hands the wallet a request with that scaled gas price, the same
    nonce and the same payload. *)
Theorem timed_out_transaction_is_resent_with_bumped_price :
  forall (toUtf8String : string -> JsError + string) (this : TransactionManager)
         (f f1 : Frame) (message : string) (b : option string) (price : Z),
    resubmit f = (Return tt, f1) ->
    hd_error (w_waitForTransaction (f_world f1)) = Some (inl (Error message b)) ->
    isAlreadyBroadcast message = false ->
    isNonceTooLow message = false ->
    isFeeTooLow message = true ->
    type (f_txConfig f) = ZERO ->
    gasPrice (f_txConfig f) = Some price ->
    1 <= attempt (f_txConfig f) ->
    exists f',
      try_catch (attempt_try toUtf8String this) attempt_catch f = (Return tt, f')
      /\ f_txConfig f' = legacy_bumped (f_txConfig f) price
      /\ forall r f'',
          resubmit f' = (r, f'') ->
          let request := retryRequest (f_tx f1) (legacy_bumped (f_txConfig f) price) in
          f_txRequest f'' = Some request
          /\ rq_gasPrice request = Some (Z.quot (price * gasBump (f_txConfig f)) 1000)
          /\ rq_nonce request = nonce (f_txConfig f)
          /\ frame_trace f''
             = EvSendTransaction request :: EvLog LInfo "Resubmitting transaction"
                 :: frame_trace f'.
Proof.
  intros toUtf8String this f f1 message b price
         Hresubmit Hwait Hdup Hnonce Hfee Htype Hprice Hattempt.
  pose proof (resubmit_txConfig _ _ _ Hresubmit) as Hconfig.
  rewrite <- Hconfig in Htype, Hprice, Hattempt |- *. clear Hconfig.
  destruct f1 as [w1 pending1 output1 tx1 request1 config1].
  destruct w1 as [p o fees estimates txs sends receipts codes trace].
  destruct receipts as [| first receipts]; [discriminate |].
  cbn in Hwait. injection Hwait as ->.
  cbn [f_txConfig] in Htype, Hprice, Hattempt |- *.
  eexists. split; [| split].
  - unfold try_catch, attempt_try. unfold bind at 1. rewrite Hresubmit.
    cbv -[attempt_catch].
    unfold attempt_catch, classifier, zoom, bind.
    cbn [f_world f_txConfig].
    rewrite (fee_too_low_legacy message b _ config1 price Hdup Hnonce Hfee Htype Hprice).
    unfold modify. cbn [fst snd set_world set_txConfig f_world f_pending f_output f_tx
                          f_txRequest f_txConfig].
    reflexivity.
  - reflexivity.
  - intros r f'' Hnext. cbv zeta.
    cbn [f_tx] in *.
    assert (Hlater : 1 < attempt (legacy_bumped config1 price)) by (cbn; lia).
    match type of Hnext with
    | resubmit ?F = _ =>
      pose proof (proj2 (resubmit_builds_request_from_config F)) as Hsend;
      cbn [f_txConfig f_tx f_world] in Hsend; specialize (Hsend Hlater)
    end.
    destruct sends as [| answer sends].
    + revert Hnext. unfold resubmit, bind at 1, get. cbn [f_txConfig set_txConfig].
      assert (Hgt : (attempt (legacy_bumped config1 price) >? 1) = true)
        by (apply Z.gtb_lt; lia).
      rewrite Hgt. cbv -[Z.add Z.mul Z.quot]. intros [= <- <-]. repeat split.
    + specialize (Hsend answer eq_refl). cbv zeta in Hsend.
      rewrite Hsend in Hnext.
      destruct answer as [e | tx']; injection Hnext as <- <-; repeat split.
Qed.

Lemma timed_out_transaction_is_resent_with_bumped_price_witness :
  let f := initial_frame Cases.times_out (Scenario.sent "0xaa" 7) Scenario.legacyConfig in
  exists f',
    try_catch (attempt_try Scenario.toUtf8String (Scenario.manager 0)) attempt_catch f
    = (Return tt, f')
    /\ f_txConfig f' = legacy_bumped Scenario.legacyConfig 100
    /\ rq_gasPrice (retryRequest (Scenario.sent "0xaa" 7)
                      (legacy_bumped Scenario.legacyConfig 100)) = Some 120.
Proof.
  intros f.
  destruct (timed_out_transaction_is_resent_with_bumped_price
              Scenario.toUtf8String (Scenario.manager 0) f f "timeout exceeded" None 100)
    as (f' & Hturn & Hconfig & _).
  - reflexivity.
  - reflexivity.
  - reflexivity.
  - reflexivity.
  - reflexivity.
  - reflexivity.
  - reflexivity.
  - cbn. lia.
  - exists f'. split; [exact Hturn |]. split; [exact Hconfig | reflexivity].
Defined.

(** ** Submission engine: before the loop *)

(** X15. An error of the gas estimator is not caught: once both gates are
    passed and the fee policy has returned, a rejected estimation makes
    [executeTransaction] raise that very error, before the transaction
    builder is called, and without consulting the classifier. *)
Theorem estimation_failure_escapes :
  forall (toUtf8String : string -> JsError + string) (this : TransactionManager)
         (w w1 : World) (feeData : FeeData) (e : JsError),
    w_paused w = false ->
    w_isOperator w = true ->
    waitForGasPricesBelowThreshold this (record_events [EvIsOperatorValue; EvPausedValue] w)
    = (Return feeData, w1) ->
    hd_error (w_gasEstimation w1) = Some (inl e) ->
    executeTransaction toUtf8String this w
    = (Throw e, record_events [EvGasEstimation] (took_estimate w1)).
Proof.
  intros toUtf8String this w w1 feeData e Hpaused Hoperator Hfee Hestimate.
  rewrite (executeTransaction_past_gates toUtf8String this w Hpaused Hoperator).
  unfold bind at 1, prepare. unfold bind at 1. rewrite Hfee.
  destruct w1 as [p o fees estimates txs sends receipts codes trace].
  destruct estimates as [| first estimates]; [discriminate |].
  cbn in Hestimate. injection Hestimate as ->. reflexivity.
Qed.

Lemma estimation_failure_escapes_witness :
  executeTransaction Scenario.toUtf8String (Scenario.manager 0) Cases.estimate_rejected
  = (Throw (Error "cannot estimate gas" None),
     record_events [EvGasEstimation]
       (took_estimate
          (snd (waitForGasPricesBelowThreshold (Scenario.manager 0)
                  (record_events [EvIsOperatorValue; EvPausedValue]
                     Cases.estimate_rejected))))).
Proof.
  apply (estimation_failure_escapes Scenario.toUtf8String (Scenario.manager 0)
           Cases.estimate_rejected _ (Scenario.legacy 90)).
  - reflexivity.
  - reflexivity.
  - vm_compute. reflexivity.
  - vm_compute. reflexivity.
Defined.


(** ** Submission engine: what the loop keeps *)

Lemma keeps_config_ret : forall (A : Type) (a : A), keeps_config (ret a).
Proof. intros A a f r f' [= <- <-]. reflexivity. Qed.

Lemma keeps_config_throw : forall (A : Type) (e : JsError), keeps_config (@throw Frame A e).
Proof. intros A e f r f' [= <- <-]. reflexivity. Qed.

Lemma keeps_config_get : keeps_config get.
Proof. intros f r f' [= <- <-]. reflexivity. Qed.

Lemma keeps_config_modify :
  forall g : Frame -> Frame,
    (forall f, f_txConfig (g f) = f_txConfig f) -> keeps_config (modify g).
Proof. intros g Hg f r f' [= <- <-]. apply Hg. Qed.

Lemma keeps_config_world : forall (A : Type) (m : M World A), keeps_config (world m).
Proof.
  intros A m f r f'. unfold world, zoom.
  destruct (m (f_world f)) as [r1 w1]. intros [= <- <-]. reflexivity.
Qed.

Lemma keeps_config_bind :
  forall (A B : Type) (m : M Frame A) (k : A -> M Frame B),
    keeps_config m -> (forall a, keeps_config (k a)) -> keeps_config (bind m k).
Proof.
  intros A B m k Hm Hk f r f'. unfold bind.
  destruct (m f) as [[a | e | |] f1] eqn:Hrun; intros Hrest;
    try (injection Hrest as <- <-; exact (Hm _ _ _ Hrun)).
  rewrite (Hk a _ _ _ Hrest). exact (Hm _ _ _ Hrun).
Qed.

Create HintDb config.

#[export] Hint Resolve keeps_config_ret keeps_config_throw keeps_config_get
  keeps_config_world keeps_config_bind : config.

Ltac keeps_config_step :=
  first [ apply keeps_config_bind; [| intros ? ]
        | apply keeps_config_modify; intros ?; reflexivity
        | solve [ auto with config ] ].

Lemma keeps_config_attempt_try :
  forall toUtf8String this, keeps_config (attempt_try toUtf8String this).
Proof.
  intros toUtf8String this. unfold attempt_try, resubmit.
  apply keeps_config_bind.
  - apply keeps_config_bind; [auto with config | intros f].
    destruct (attempt (f_txConfig f) >? 1); repeat keeps_config_step.
  - intros _.
    apply keeps_config_bind; [auto with config | intros _].
    apply keeps_config_bind; [auto with config | intros f].
    apply keeps_config_bind; [auto with config | intros receipt].
    apply keeps_config_bind; [| intros _; repeat keeps_config_step].
    destruct (status_is_zero receipt); [| auto with config].
    apply keeps_config_bind; [auto with config | intros f1].
    apply keeps_config_bind; [auto with config | intros reason].
    destruct (String.eqb reason "out of gas"); [auto with config |].
    destruct (String.eqb reason "unknown"); auto with config.
Qed.

(** A completed turn of the loop either found the transaction included, and
    left the configuration alone, or went through the classifier, which
    counted one more attempt. *)
Lemma turn_outcome :
  forall toUtf8String this f f',
    try_catch (attempt_try toUtf8String this) attempt_catch f = (Return tt, f') ->
    (f_pending f' = false /\ f_txConfig f' = f_txConfig f)
    \/ (f_pending f' = f_pending f
        /\ attempt (f_txConfig f') = attempt (f_txConfig f) + 1
        /\ type (f_txConfig f') = type (f_txConfig f)
        /\ gasBump (f_txConfig f') = gasBump (f_txConfig f)
        /\ nonce (f_txConfig f) <= nonce (f_txConfig f') <= nonce (f_txConfig f) + 1).
Proof.
  intros toUtf8String this f f'. unfold try_catch.
  destruct (attempt_try toUtf8String this f) as [[[] | e | |] f1] eqn:Hrun; intros Hrest;
    try discriminate.
  - injection Hrest as <-. left. split.
    + exact (settles_or_keeps_attempt_try toUtf8String this _ _ _ Hrun).
    + exact (keeps_config_attempt_try toUtf8String this _ _ _ Hrun).
  - right.
    pose proof (keeps_config_attempt_try toUtf8String this _ _ _ Hrun) as Hconfig.
    destruct (settles_or_keeps_attempt_try toUtf8String this _ _ _ Hrun) as [Hpending _].
    revert Hrest. unfold attempt_catch, classifier, zoom. unfold bind at 1.
    destruct (updateTransactionConfig e (f_world f1, f_txConfig f1))
      as [[returned | e' | |] [w' c']] eqn:Hclassified; try discriminate.
    unfold modify. intros [= <-].
    destruct (classifier_counts_every_retry _ _ _ _ _ _ Hclassified)
      as (-> & Hattempt & Htype & Hbump & Hnonce).
    cbn [f_pending f_txConfig set_txConfig set_world fst snd].
    rewrite <- Hconfig. repeat split; assumption || lia.
Qed.

(** X17. At every head of the loop of [executeTransaction], the mechanism and
    the bump factor of [txConfig] are those of the first attempt, the attempt
    counter has not gone down, and the nonce has grown by at most one per
    attempt counted since the start, and never gone down. *)
Theorem loop_head_config :
  forall (toUtf8String : string -> JsError + string) (this : TransactionManager)
         (start f : Frame),
    loop_head toUtf8String this start f ->
    type (f_txConfig f) = type (f_txConfig start)
    /\ gasBump (f_txConfig f) = gasBump (f_txConfig start)
    /\ attempt (f_txConfig start) <= attempt (f_txConfig f)
    /\ nonce (f_txConfig start) <= nonce (f_txConfig f)
       <= nonce (f_txConfig start) + (attempt (f_txConfig f) - attempt (f_txConfig start)).
Proof.
  intros toUtf8String this start f Hhead.
  induction Hhead as [| f f' Hhead IH Hpending Hlimit Hturn].
  - repeat split; lia.
  - destruct IH as (Htype & Hbump & Hattempt & Hnonce).
    destruct (turn_outcome _ _ _ _ Hturn)
      as [[_ ->] | (_ & Hattempt' & Htype' & Hbump' & Hnonce')].
    + repeat split; assumption || lia.
    + rewrite Htype', Hbump'. repeat split; assumption || lia.
Qed.

Lemma loop_head_config_witness :
  type (f_txConfig Scenario.after_two_timeouts) = ZERO
  /\ gasBump (f_txConfig Scenario.after_two_timeouts) = 1200
  /\ 1 <= attempt (f_txConfig Scenario.after_two_timeouts)
  /\ 7 <= nonce (f_txConfig Scenario.after_two_timeouts)
     <= 7 + (attempt (f_txConfig Scenario.after_two_timeouts) - 1).
Proof.
  exact (loop_head_config Scenario.toUtf8String (Scenario.manager 2)
           (initial_frame Scenario.two_timeouts (Scenario.sent "0xaa" 7) Scenario.legacyConfig)
           Scenario.after_two_timeouts after_two_timeouts_is_loop_head).
Defined.

(** ** Submission engine: how many transactions a call can broadcast *)

Lemma broadcasts_app :
  forall a b : list Event, broadcasts (a ++ b) = (broadcasts a + broadcasts b)%nat.
Proof. intros a b. unfold broadcasts. rewrite filter_app, length_app. reflexivity. Qed.

Section Broadcasts.

Context {S : Type} (trace_of : S -> list Event).

Lemma broadcasts_weaken :
  forall (A : Type) (n n' : nat) (m : M S A),
    (n <= n')%nat -> broadcasts_at_most trace_of n m -> broadcasts_at_most trace_of n' m.
Proof.
  intros A n n' m Hle Hm s r s' Hrun.
  destruct (Hm _ _ _ Hrun) as (evs & Htrace & Hcount).
  exists evs. split; [exact Htrace | lia].
Qed.

Lemma broadcasts_ret : forall (A : Type) (a : A), broadcasts_at_most trace_of 0 (ret a).
Proof. intros A a s r s' [= <- <-]. exists []. split; [reflexivity | cbn; lia]. Qed.

Lemma broadcasts_throw :
  forall (A : Type) (e : JsError), broadcasts_at_most trace_of 0 (@throw S A e).
Proof. intros A e s r s' [= <- <-]. exists []. split; [reflexivity | cbn; lia]. Qed.

Lemma broadcasts_lift :
  forall (A : Type) (x : JsError + A), broadcasts_at_most trace_of 0 (lift x).
Proof. intros A [e | a]; [apply broadcasts_throw | apply broadcasts_ret]. Qed.

Lemma broadcasts_get : broadcasts_at_most trace_of 0 get.
Proof. intros s r s' [= <- <-]. exists []. split; [reflexivity | cbn; lia]. Qed.

Lemma broadcasts_modify :
  forall f : S -> S,
    (forall s, trace_of (f s) = trace_of s) -> broadcasts_at_most trace_of 0 (modify f).
Proof.
  intros f Hf s r s' [= <- <-]. exists []. split; [apply Hf | cbn; lia].
Qed.

Lemma broadcasts_bind :
  forall (A B : Type) (n1 n2 : nat) (m : M S A) (k : A -> M S B),
    broadcasts_at_most trace_of n1 m ->
    (forall a, broadcasts_at_most trace_of n2 (k a)) ->
    broadcasts_at_most trace_of (n1 + n2) (bind m k).
Proof.
  intros A B n1 n2 m k Hm Hk s r s'. unfold bind.
  destruct (m s) as [[a | e | |] s1] eqn:Hrun; intros Hrest;
    destruct (Hm _ _ _ Hrun) as (evs1 & H1 & Hcount1);
    try (injection Hrest as <- <-; exists evs1; split; [exact H1 | lia]).
  destruct (Hk a _ _ _ Hrest) as (evs2 & H2 & Hcount2).
  exists (evs2 ++ evs1)%list. split.
  - rewrite H2, H1. apply app_assoc.
  - rewrite broadcasts_app. lia.
Qed.

Lemma broadcasts_try_catch :
  forall (A : Type) (n1 n2 : nat) (m : M S A) (handler : JsError -> M S A),
    broadcasts_at_most trace_of n1 m ->
    (forall e, broadcasts_at_most trace_of n2 (handler e)) ->
    broadcasts_at_most trace_of (n1 + n2) (try_catch m handler).
Proof.
  intros A n1 n2 m handler Hm Hh s r s'. unfold try_catch.
  destruct (m s) as [[a | e | |] s1] eqn:Hrun; intros Hrest;
    destruct (Hm _ _ _ Hrun) as (evs1 & H1 & Hcount1);
    try (injection Hrest as <- <-; exists evs1; split; [exact H1 | lia]).
  destruct (Hh e _ _ _ Hrest) as (evs2 & H2 & Hcount2).
  exists (evs2 ++ evs1)%list. split.
  - rewrite H2, H1. apply app_assoc.
  - rewrite broadcasts_app. lia.
Qed.

Lemma broadcasts_zoom :
  forall (T A : Type) (n : nat) (inner_trace : T -> list Event)
         (proj : S -> T) (upd : T -> S -> S) (m : M T A),
    (forall s, inner_trace (proj s) = trace_of s) ->
    (forall t s, trace_of (upd t s) = inner_trace t) ->
    broadcasts_at_most inner_trace n m ->
    broadcasts_at_most trace_of n (zoom proj upd m).
Proof.
  intros T A n inner_trace proj upd m Hproj Hupd Hm s r s'. unfold zoom.
  destruct (m (proj s)) as [r1 t1] eqn:Hrun. intros [= <- <-].
  destruct (Hm _ _ _ Hrun) as (evs & H1 & Hcount).
  exists evs. split; [| exact Hcount]. rewrite Hupd, H1, Hproj. reflexivity.
Qed.

End Broadcasts.

Create HintDb broadcasts.

#[export] Hint Resolve broadcasts_ret broadcasts_throw broadcasts_lift broadcasts_get
  : broadcasts.

Lemma broadcasts_emit :
  forall ev : Event,
    broadcasts_at_most w_trace (if is_broadcast ev then 1 else 0) (emit ev).
Proof.
  intros ev s r s' [= <- <-]. exists [ev]. split; [reflexivity |].
  unfold broadcasts. cbn. destruct (is_broadcast ev); cbn; lia.
Qed.

Lemma broadcasts_settle :
  forall (A : Type) (answer : option (JsError + A)),
    broadcasts_at_most w_trace 0 (settle answer).
Proof.
  intros A [x |]; [apply broadcasts_lift |].
  intros s r s' [= <- <-]. exists []. split; [reflexivity | cbn; lia].
Qed.

Lemma broadcasts_log :
  forall level message, broadcasts_at_most w_trace 0 (log level message).
Proof. intros. apply (broadcasts_emit (EvLog level message)). Qed.

Lemma broadcasts_delay : forall ms, broadcasts_at_most w_trace 0 (delay ms).
Proof. intros. apply (broadcasts_emit (EvDelay ms)). Qed.

#[export] Hint Resolve broadcasts_settle broadcasts_log broadcasts_delay : broadcasts.

Ltac quiet_step :=
  first [ solve [ auto with broadcasts ]
        | apply broadcasts_modify; intros ?; reflexivity
        | apply (broadcasts_bind _ _ _ 0 0); [| intros ? ] ].

Lemma broadcasts_paused_value : broadcasts_at_most w_trace 0 paused_value.
Proof.
  unfold paused_value.
  apply (broadcasts_bind _ _ _ 0 0); [apply (broadcasts_emit EvPausedValue) | intros _].
  repeat quiet_step.
Qed.

Lemma broadcasts_isOperator_value : broadcasts_at_most w_trace 0 isOperator_value.
Proof.
  unfold isOperator_value.
  apply (broadcasts_bind _ _ _ 0 0); [apply (broadcasts_emit EvIsOperatorValue) | intros _].
  repeat quiet_step.
Qed.

Lemma broadcasts_getFeeData : broadcasts_at_most w_trace 0 getFeeData.
Proof.
  unfold getFeeData.
  apply (broadcasts_bind _ _ _ 0 0); [apply (broadcasts_emit EvGetFeeData) | intros _].
  repeat quiet_step.
Qed.

Lemma broadcasts_gasEstimation : broadcasts_at_most w_trace 0 gasEstimation.
Proof.
  unfold gasEstimation.
  apply (broadcasts_bind _ _ _ 0 0); [apply (broadcasts_emit EvGasEstimation) | intros _].
  repeat quiet_step.
Qed.

Lemma broadcasts_transaction :
  forall gasLimit, broadcasts_at_most w_trace 1 (transaction gasLimit).
Proof.
  intros gasLimit. unfold transaction.
  apply (broadcasts_bind _ _ _ 1 0); [apply (broadcasts_emit (EvTransaction gasLimit)) |].
  intros _. repeat quiet_step.
Qed.

Lemma broadcasts_sendTransaction :
  forall txRequest, broadcasts_at_most w_trace 1 (sendTransaction txRequest).
Proof.
  intros txRequest. unfold sendTransaction.
  apply (broadcasts_bind _ _ _ 1 0);
    [apply (broadcasts_emit (EvSendTransaction txRequest)) |].
  intros _. repeat quiet_step.
Qed.

Lemma broadcasts_waitForTransaction :
  forall hash confirmations timeout,
    broadcasts_at_most w_trace 0 (waitForTransaction hash confirmations timeout).
Proof.
  intros hash confirmations timeout. unfold waitForTransaction.
  apply (broadcasts_bind _ _ _ 0 0);
    [apply (broadcasts_emit (EvWaitForTransaction hash confirmations timeout)) | intros _].
  repeat quiet_step.
Qed.

Lemma broadcasts_call : forall txRequest, broadcasts_at_most w_trace 0 (call txRequest).
Proof.
  intros txRequest. unfold call.
  apply (broadcasts_bind _ _ _ 0 0); [apply (broadcasts_emit (EvCall txRequest)) | intros _].
  repeat quiet_step.
Qed.

#[export] Hint Resolve broadcasts_paused_value broadcasts_isOperator_value
  broadcasts_getFeeData broadcasts_gasEstimation broadcasts_waitForTransaction
  broadcasts_call : broadcasts.

Lemma broadcasts_world :
  forall (A : Type) (n : nat) (m : M World A),
    broadcasts_at_most w_trace n m -> broadcasts_at_most frame_trace n (world m).
Proof.
  intros A n m Hm. unfold world.
  apply (broadcasts_zoom frame_trace World A n w_trace); auto.
Qed.

Lemma broadcasts_inWorld :
  forall (A : Type) (n : nat) (m : M World A),
    broadcasts_at_most w_trace n m -> broadcasts_at_most classifier_trace n (inWorld m).
Proof.
  intros A n m Hm. unfold inWorld.
  apply (broadcasts_zoom classifier_trace World A n w_trace); auto.
Qed.

Lemma broadcasts_classifier :
  forall (A : Type) (n : nat) (m : M Classifier A),
    broadcasts_at_most classifier_trace n m -> broadcasts_at_most frame_trace n (classifier m).
Proof.
  intros A n m Hm. unfold classifier.
  apply (broadcasts_zoom frame_trace Classifier A n classifier_trace); auto.
Qed.

#[export] Hint Resolve broadcasts_world broadcasts_inWorld broadcasts_classifier
  : broadcasts.

Lemma broadcasts_updateTransactionConfig :
  forall error, broadcasts_at_most classifier_trace 0 (updateTransactionConfig error).
Proof.
  intros error. unfold updateTransactionConfig, txConfig_get, txConfig_set.
  apply (broadcasts_bind _ _ _ 0 0); [auto with broadcasts | intros _].
  apply (broadcasts_bind _ _ _ 0 0).
  - destruct error as [code cause | message b].
    + destruct (IndexerErrorCode_eqb code IE050); [repeat quiet_step |].
      destruct (IndexerErrorCode_eqb code IE051); auto with broadcasts.
    + destruct (isAlreadyBroadcast message); [repeat quiet_step |].
      destruct (isNonceTooLow message); [repeat quiet_step |].
      destruct (isFeeTooLow message); [| auto with broadcasts].
      apply (broadcasts_bind _ _ _ 0 0); [repeat quiet_step | intros c].
      destruct (type c); repeat quiet_step.
  - intros _. repeat quiet_step.
Qed.

Lemma broadcasts_getRevertReason :
  forall toUtf8String txRequest,
    broadcasts_at_most w_trace 0 (getRevertReason toUtf8String txRequest).
Proof.
  intros toUtf8String txRequest. unfold getRevertReason.
  apply (broadcasts_bind _ _ _ 0 0); [| intros reason; repeat quiet_step].
  apply (broadcasts_try_catch _ _ 0 0); [repeat quiet_step |].
  intros e. destruct (body e) as [b |]; [| auto with broadcasts].
  destruct (Js.includes b "out of gas"); auto with broadcasts.
Qed.

#[export] Hint Resolve broadcasts_updateTransactionConfig broadcasts_getRevertReason
  : broadcasts.

Lemma broadcasts_waitForGasPrices_loop :
  forall (this : TransactionManager) (fuel : nat) (attempt : Z),
    broadcasts_at_most w_trace 0 (waitForGasPrices_loop this fuel attempt).
Proof.
  intros this fuel. induction fuel as [| fuel IH]; intros attempt.
  - intros s r s' [= <- <-]. exists []. split; [reflexivity | cbn; lia].
  - cbn [waitForGasPrices_loop].
    apply (broadcasts_bind _ _ _ 0 0); [auto with broadcasts | intros feeData].
    apply (broadcasts_bind _ _ _ 0 0); [auto with broadcasts | intros [|]].
    + apply (broadcasts_bind _ _ _ 0 0); [auto with broadcasts | intros price].
      apply (broadcasts_bind _ _ _ 0 0); [auto with broadcasts | intros n].
      destruct (n >=? adjustedBaseFeePerGasMax this); [| auto with broadcasts].
      apply (broadcasts_bind _ _ _ 0 0);
        [destruct (attempt =? 1); auto with broadcasts | intros _].
      apply (broadcasts_bind _ _ _ 0 0); [auto with broadcasts | intros _]. apply IH.
    + apply (broadcasts_bind _ _ _ 0 0); [auto with broadcasts | intros maxFee].
      apply (broadcasts_bind _ _ _ 0 0); [auto with broadcasts | intros maxPriority].
      apply (broadcasts_bind _ _ _ 0 0); [auto with broadcasts | intros n].
      destruct (n >=? adjustedBaseFeePerGasMax this); [| auto with broadcasts].
      apply (broadcasts_bind _ _ _ 0 0);
        [destruct (attempt =? 1); auto with broadcasts | intros _].
      apply (broadcasts_bind _ _ _ 0 0); [auto with broadcasts | intros _]. apply IH.
Qed.

Lemma broadcasts_prepare :
  forall this, broadcasts_at_most w_trace 1 (prepare this).
Proof.
  intros this. unfold prepare.
  apply (broadcasts_bind _ _ _ 0 1).
  { intros s. apply broadcasts_waitForGasPrices_loop. }
  intros feeData.
  apply (broadcasts_bind _ _ _ 0 1); [auto with broadcasts | intros estimate].
  apply (broadcasts_bind _ _ _ 0 1); [auto with broadcasts | intros n].
  apply (broadcasts_bind _ _ _ 1 0); [apply broadcasts_transaction | intros tx].
  repeat quiet_step.
Qed.

Lemma broadcasts_resubmit :
  forall f r f',
    resubmit f = (r, f') ->
    exists evs,
      frame_trace f' = (evs ++ frame_trace f)%list
      /\ (broadcasts evs <= if attempt (f_txConfig f) >? 1 then 1 else 0)%nat.
Proof.
  intros f r f'. unfold resubmit, bind at 1, get.
  destruct (attempt (f_txConfig f) >? 1).
  - revert f r f'.
    change (broadcasts_at_most frame_trace 1
              (fun f => bind (world (log LInfo "Resubmitting transaction"))
                          (fun _ =>
                             bind (modify (set_txRequest
                                             (Some (retryRequest (f_tx f) (f_txConfig f)))))
                               (fun _ =>
                                  bind (world (sendTransaction
                                                 (retryRequest (f_tx f) (f_txConfig f))))
                                    (fun tx => modify (set_tx tx)))) f)).
    intros f r f' Hrun.
    assert (Hbody :
              broadcasts_at_most frame_trace 1
                (bind (world (log LInfo "Resubmitting transaction"))
                   (fun _ =>
                      bind (modify (set_txRequest
                                      (Some (retryRequest (f_tx f) (f_txConfig f)))))
                        (fun _ =>
                           bind (world (sendTransaction
                                          (retryRequest (f_tx f) (f_txConfig f))))
                             (fun tx => modify (set_tx tx)))))).
    { apply (broadcasts_bind _ _ _ 0 1); [auto with broadcasts | intros _].
      apply (broadcasts_bind _ _ _ 0 1);
        [apply broadcasts_modify; intros ?; reflexivity | intros _].
      apply (broadcasts_bind _ _ _ 1 0).
      - apply broadcasts_world, broadcasts_sendTransaction.
      - intros tx. apply broadcasts_modify. intros ?. reflexivity. }
    exact (Hbody _ _ _ Hrun).
  - intros [= <- <-]. exists []. split; [reflexivity | cbn; lia].
Qed.

Lemma broadcasts_attempt_catch :
  forall error, broadcasts_at_most frame_trace 0 (attempt_catch error).
Proof.
  intros error. unfold attempt_catch.
  apply (broadcasts_bind _ _ _ 0 0); [auto with broadcasts | intros c].
  apply broadcasts_modify. intros ?. reflexivity.
Qed.

(** A turn of the loop broadcasts at most once, and not at all on a first
    attempt. *)
Lemma broadcasts_turn :
  forall toUtf8String this f r f',
    try_catch (attempt_try toUtf8String this) attempt_catch f = (r, f') ->
    exists evs,
      frame_trace f' = (evs ++ frame_trace f)%list
      /\ (broadcasts evs <= if attempt (f_txConfig f) >? 1 then 1 else 0)%nat.
Proof.
  intros toUtf8String this f r f'. unfold try_catch.
  destruct (attempt_try toUtf8String this f) as [r1 f1] eqn:Htry.
  assert (Hbody : exists evs,
             frame_trace f1 = (evs ++ frame_trace f)%list
             /\ (broadcasts evs <= if attempt (f_txConfig f) >? 1 then 1 else 0)%nat).
  { revert Htry. unfold attempt_try. unfold bind at 1.
    destruct (resubmit f) as [r0 f0] eqn:Hresubmit.
    destruct (broadcasts_resubmit _ _ _ Hresubmit) as (evs0 & Htrace0 & Hcount0).
    destruct r0 as [[] | e | |];
      try (intros [= <- <-]; exists evs0; split; assumption).
    match goal with
    | |- ?rest f0 = _ -> _ =>
      assert (Hquiet : broadcasts_at_most frame_trace 0 rest)
    end.
    { apply (broadcasts_bind _ _ _ 0 0); [auto with broadcasts | intros _].
      apply (broadcasts_bind _ _ _ 0 0); [auto with broadcasts | intros f2].
      apply (broadcasts_bind _ _ _ 0 0); [auto with broadcasts | intros receipt].
      apply (broadcasts_bind _ _ _ 0 0).
      - destruct (status_is_zero receipt); [| auto with broadcasts].
        apply (broadcasts_bind _ _ _ 0 0); [auto with broadcasts | intros f3].
        apply (broadcasts_bind _ _ _ 0 0); [auto with broadcasts | intros reason].
        destruct (String.eqb reason "out of gas"); [auto with broadcasts |].
        destruct (String.eqb reason "unknown"); auto with broadcasts.
      - intros _.
        apply (broadcasts_bind _ _ _ 0 0); [auto with broadcasts | intros _].
        apply (broadcasts_bind _ _ _ 0 0);
          [apply broadcasts_modify; intros ?; reflexivity | intros _].
        apply broadcasts_modify. intros ?. reflexivity. }
    intros Hrest. destruct (Hquiet _ _ _ Hrest) as (evs1 & Htrace1 & Hcount1).
    exists (evs1 ++ evs0)%list. split.
    - rewrite Htrace1, Htrace0. apply app_assoc.
    - rewrite broadcasts_app. lia. }
  destruct Hbody as (evs & Htrace & Hcount).
  destruct r1 as [[] | e | |];
    try (intros [= <- <-]; exists evs; split; assumption).
  intros Hcatch.
  destruct (broadcasts_attempt_catch e _ _ _ Hcatch) as (evs2 & Htrace2 & Hcount2).
  exists (evs2 ++ evs)%list. split.
  - rewrite Htrace2, Htrace. apply app_assoc.
  - rewrite broadcasts_app. lia.
Qed.

Lemma executeTransaction_loop_idle :
  forall toUtf8String this fuel f,
    f_pending f = false ->
    snd (executeTransaction_loop toUtf8String this fuel f) = f.
Proof.
  intros toUtf8String this [| fuel] f Hpending; [reflexivity |].
  cbn [executeTransaction_loop]. unfold bind, get. rewrite Hpending. reflexivity.
Qed.

Lemma broadcasts_executeTransaction_loop :
  forall (toUtf8String : string -> JsError + string) (this : TransactionManager),
    maxTransactionAttempts (specification this) <> 0 ->
    forall (fuel : nat) (f : Frame) r f',
      1 <= attempt (f_txConfig f) ->
      executeTransaction_loop toUtf8String this fuel f = (r, f') ->
      exists evs,
        frame_trace f' = (evs ++ frame_trace f)%list
        /\ Z.of_nat (broadcasts evs)
           <= Z.max 0 (maxTransactionAttempts (specification this) + 1
                       - Z.max (attempt (f_txConfig f)) 2).
Proof.
  intros toUtf8String this Hlimited fuel.
  induction fuel as [| fuel IH]; intros f r f' Hattempt.
  - intros [= <- <-]. exists []. split; [reflexivity | cbn; lia].
  - cbn [executeTransaction_loop]. unfold bind at 1, get.
    destruct (f_pending f) eqn:Hpending;
      [| intros [= <- <-]; exists []; split; [reflexivity | cbn; lia]].
    destruct (limit_reached this (f_txConfig f)) eqn:Hreached.
    + intros [= <- <-].
      exists [EvDelay 30000; EvLog LWarn "Transaction retry limit reached, giving up"].
      split; [reflexivity | cbn; lia].
    + assert (Hwithin : attempt (f_txConfig f) <= maxTransactionAttempts (specification this)).
      { unfold limit_reached in Hreached. apply andb_false_iff in Hreached.
        destruct Hreached as [Hzero | Hgt].
        - apply negb_false_iff, Z.eqb_eq in Hzero. contradiction.
        - destruct (Z.gtb_spec (attempt (f_txConfig f))
                      (maxTransactionAttempts (specification this))); [discriminate | lia]. }
      unfold bind at 1.
      destruct (try_catch (attempt_try toUtf8String this) attempt_catch f)
        as [r1 f1] eqn:Hturn.
      destruct (broadcasts_turn _ _ _ _ _ Hturn) as (evs1 & Htrace1 & Hcount1).
      assert (Hone : Z.of_nat (broadcasts evs1)
                     <= if attempt (f_txConfig f) >? 1 then 1 else 0).
      { destruct (attempt (f_txConfig f) >? 1); lia. }
      assert (Hlast : Z.of_nat (broadcasts evs1)
                      <= Z.max 0 (maxTransactionAttempts (specification this) + 1
                                  - Z.max (attempt (f_txConfig f)) 2)).
      { destruct (Z.gtb_spec (attempt (f_txConfig f)) 1); lia. }
      destruct r1 as [[] | e | |];
        try (intros [= <- <-]; exists evs1; split; assumption).
      intros Hrest.
      destruct (turn_outcome _ _ _ _ Hturn)
        as [[Hdone _] | (_ & Hnext & _)].
      * pose proof (executeTransaction_loop_idle toUtf8String this fuel f1 Hdone) as Hidle.
        rewrite Hrest in Hidle. cbn [snd] in Hidle. subst f'.
        exists evs1. split; assumption.
      * destruct (IH f1 r f' ltac:(lia) Hrest) as (evs2 & Htrace2 & Hcount2).
        exists (evs2 ++ evs1)%list. split.
        -- rewrite Htrace2, Htrace1. apply app_assoc.
        -- rewrite broadcasts_app, Nat2Z.inj_add.
           rewrite Hnext in Hcount2.
           destruct (Z.gtb_spec (attempt (f_txConfig f)) 1); lia.
Qed.

(** X18. With an attempt limit of [n >= 1], one call of [executeTransaction]
    broadcasts at most [n] transactions, the first one through the
    transaction builder and the others through the wallet, whatever the
    chain client and the wallet answer and however the call ends. *)
Theorem executeTransaction_broadcasts_at_most_limit :
  forall (toUtf8String : string -> JsError + string) (this : TransactionManager)
         (w w' : World) (r : Res ExecResult),
    1 <= maxTransactionAttempts (specification this) ->
    executeTransaction toUtf8String this w = (r, w') ->
    exists evs,
      w_trace w' = (evs ++ w_trace w)%list
      /\ Z.of_nat (broadcasts evs) <= maxTransactionAttempts (specification this).
Proof.
  intros toUtf8String this w w' r Hlimit.
  unfold executeTransaction. unfold bind at 1.
  destruct (paused_value w) as [r0 w0] eqn:Hpaused.
  destruct (broadcasts_paused_value _ _ _ Hpaused) as (evs0 & Htrace0 & Hcount0).
  assert (Hstop : forall (w1 : World) (evs1 : list Event),
             w_trace w1 = (evs1 ++ w_trace w0)%list ->
             Z.of_nat (broadcasts evs1) <= maxTransactionAttempts (specification this) ->
             exists evs,
               w_trace w1 = (evs ++ w_trace w)%list
               /\ Z.of_nat (broadcasts evs) <= maxTransactionAttempts (specification this)).
  { intros w1 evs1 Htrace1 Hcount1. exists (evs1 ++ evs0)%list. split.
    - rewrite Htrace1, Htrace0. apply app_assoc.
    - rewrite broadcasts_app, Nat2Z.inj_add. lia. }
  destruct r0 as [isPaused | e | |];
    try (intros [= <- <-]; apply (Hstop w0 []); [reflexivity | cbn; lia]).
  destruct isPaused.
  { intros Hrun.
    destruct (broadcasts_bind w_trace _ _ 0 0 _ _
                (broadcasts_log LInfo "Network is paused, skipping this action")
                (fun _ => broadcasts_ret w_trace ExecResult RPaused) _ _ _ Hrun)
      as (evs1 & Htrace1 & Hcount1).
    apply (Hstop w' evs1 Htrace1). lia. }
  unfold bind at 1.
  destruct (isOperator_value w0) as [r1 w1] eqn:Hoperator.
  destruct (broadcasts_isOperator_value _ _ _ Hoperator) as (evs1 & Htrace1 & Hcount1).
  destruct r1 as [isOperator | e | |];
    try (intros [= <- <-]; apply (Hstop w1 evs1 Htrace1); lia).
  destruct isOperator; cbn [negb].
  2:{ intros Hrun.
      destruct (broadcasts_bind w_trace _ _ 0 0 _ _
                  (broadcasts_log LInfo
                     "Not authorized as an operator for indexer, skipping this action")
                  (fun _ => broadcasts_ret w_trace ExecResult RUnauthorized) _ _ _ Hrun)
        as (evs2 & Htrace2 & Hcount2).
      apply (Hstop w' (evs2 ++ evs1)%list).
      - rewrite Htrace2, Htrace1. apply app_assoc.
      - rewrite broadcasts_app, Nat2Z.inj_add. lia. }
  unfold bind at 1.
  destruct (prepare this w1) as [r2 w2] eqn:Hprepare.
  destruct (broadcasts_prepare this _ _ _ Hprepare) as (evs2 & Htrace2 & Hcount2).
  assert (Hprepared : w_trace w2 = ((evs2 ++ evs1) ++ w_trace w0)%list).
  { rewrite Htrace2, Htrace1. apply app_assoc. }
  assert (Hcount12 : (broadcasts (evs2 ++ evs1) <= 1)%nat).
  { rewrite broadcasts_app. lia. }
  destruct r2 as [[tx txConfig] | e | |];
    try (intros [= <- <-]; apply (Hstop w2 (evs2 ++ evs1)%list Hprepared); lia).
  pose proof (prepare_attempt _ _ _ _ _ Hprepare) as Hattempt.
  cbn [fst snd]. unfold submit.
  fold (initial_frame w2 tx txConfig).
  destruct (executeTransaction_loop toUtf8String this (loop_fuel w2)
              (initial_frame w2 tx txConfig)) as [r3 f3] eqn:Hloop.
  assert (Hlimited : maxTransactionAttempts (specification this) <> 0) by lia.
  assert (Hfirst : 1 <= attempt (f_txConfig (initial_frame w2 tx txConfig)))
    by (cbn [initial_frame f_txConfig]; lia).
  destruct (broadcasts_executeTransaction_loop toUtf8String this Hlimited
              _ _ _ _ Hfirst Hloop) as (evs3 & Htrace3 & Hcount3).
  cbn [initial_frame f_txConfig] in Hcount3. rewrite Hattempt in Hcount3.
  unfold frame_trace in Htrace3. cbn [initial_frame f_world] in Htrace3.
  assert (Hend : exists evs,
             w_trace (f_world f3) = (evs ++ w_trace w)%list
             /\ Z.of_nat (broadcasts evs) <= maxTransactionAttempts (specification this)).
  { apply (Hstop (f_world f3) (evs3 ++ evs2 ++ evs1)%list).
    - rewrite Htrace3, Hprepared. apply app_assoc.
    - rewrite broadcasts_app, Nat2Z.inj_add. lia. }
  destruct r3; cbn [return_output]; intros [= <- <-]; exact Hend.
Qed.

Lemma executeTransaction_broadcasts_at_most_limit_witness :
  exists evs,
    w_trace (snd (executeTransaction Scenario.toUtf8String (Scenario.manager 2)
                    Scenario.two_timeouts))
    = (evs ++ w_trace Scenario.two_timeouts)%list
    /\ Z.of_nat (broadcasts evs) <= 2.
Proof.
  apply (executeTransaction_broadcasts_at_most_limit Scenario.toUtf8String
           (Scenario.manager 2) Scenario.two_timeouts
           (snd (executeTransaction Scenario.toUtf8String (Scenario.manager 2)
                   Scenario.two_timeouts))
           (fst (executeTransaction Scenario.toUtf8String (Scenario.manager 2)
                   Scenario.two_timeouts))).
  - cbn. lia.
  - apply surjective_pairing.
Defined.

(** ** Event extractor *)

Lemma map_raising_app_error :
  forall (A B : Type) (f : A -> JsError + B) (before : list A) (a : A) (after : list A)
         (e : JsError),
    (forall x, In x before -> exists b, f x = inr b) ->
    f a = inl e ->
    map_raising f (before ++ a :: after) = inl e.
Proof.
  intros A B f before a after e Hbefore Hfail.
  induction before as [| x before IH]; cbn.
  - rewrite Hfail. reflexivity.
  - destruct (Hbefore x (or_introl eq_refl)) as [b Hb]. rewrite Hb.
    rewrite IH; [reflexivity |].
    intros y Hy. apply Hbefore. right. exact Hy.
Qed.

(** X19. Decoding is eager: as soon as one entry that carries the signature
    hash among its topics cannot be decoded, [findEvent] raises the error of
    the decoder (the first one in log order), also when an entry before it
    would have matched; nothing is traced then. *)
Theorem findEvent_raises_on_undecodable_entry :
  forall (eventType : string) (contractInterface : Interface) (logKey logValue : string)
         (receipt : ContractReceipt) (w : World)
         (before : list Log) (entry : Log) (after : list Log) (e : JsError),
    filter (topics_include (getEventTopic contractInterface eventType))
           (receipt_events receipt)
    = (before ++ entry :: after)%list ->
    (forall x, In x before ->
               exists decoded,
                 decodeEventLog contractInterface eventType (data x) (topics x) = inr decoded) ->
    decodeEventLog contractInterface eventType (data entry) (topics entry) = inl e ->
    findEvent eventType contractInterface logKey logValue receipt w = (Throw e, w).
Proof.
  intros eventType contractInterface logKey logValue receipt w before entry after e
         Hfilter Hbefore Hfail.
  unfold findEvent. unfold bind at 1. rewrite Hfilter.
  rewrite (map_raising_app_error _ _
             (fun event => decodeEventLog contractInterface eventType
                             (data event) (topics event))
             before entry after e Hbefore Hfail).
  reflexivity.
Qed.



Lemma find_raising_found :
  forall (A : Type) (p : A -> JsError + bool) (l : list A) (a : A),
    find_raising p l = inr (Some a) -> In a l /\ p a = inr true.
Proof.
  intros A p l a. induction l as [| x l IH]; cbn; [discriminate |].
  destruct (p x) as [e | [|]] eqn:Hp; try discriminate.
  - intros [= <-]. split; [left; reflexivity | exact Hp].
  - intros Hrest. destruct (IH Hrest) as [Hin Hpa]. split; [right; exact Hin | exact Hpa].
Qed.

Lemma map_raising_member :
  forall (A B : Type) (f : A -> JsError + B) (l : list A) (bs : list B) (b : B),
    map_raising f l = inr bs -> In b bs -> exists a, In a l /\ f a = inr b.
Proof.
  intros A B f l. induction l as [| x l IH]; cbn; intros bs b.
  - intros [= <-] [].
  - destruct (f x) as [e | y] eqn:Hfx; [discriminate |].
    destruct (map_raising f l) as [e | ys]; [discriminate |].
    intros [= <-] [<- | Hin].
    + exists x. split; [left; reflexivity | exact Hfx].
    + destruct (IH ys b eq_refl Hin) as (a & Ha & Hfa).
      exists a. split; [right; exact Ha | exact Hfa].
Qed.

(** X21. What [findEvent] returns is what it was asked for: a returned event
    is the decoding of an entry of the receipt that carries the signature
    hash among its topics, and its named field is a string equal to the
    given value up to the case of the letters. *)
Theorem findEvent_result_matches :
  forall (eventType : string) (contractInterface : Interface) (logKey logValue : string)
         (receipt : ContractReceipt) (w w' : World) (result : Result),
    findEvent eventType contractInterface logKey logValue receipt w
    = (Return (Some result), w') ->
    (exists entry,
        In entry (receipt_events receipt)
        /\ In (getEventTopic contractInterface eventType) (topics entry)
        /\ decodeEventLog contractInterface eventType (data entry) (topics entry)
           = inr result)
    /\ exists s,
        at_key result logKey = Some (VString s)
        /\ Js.toLocaleLowerCase s = Js.toLocaleLowerCase logValue.
Proof.
  intros eventType contractInterface logKey logValue receipt w w' result.
  unfold findEvent. unfold bind at 1.
  destruct (map_raising
              (fun event => decodeEventLog contractInterface eventType
                              (data event) (topics event))
              (filter (topics_include (getEventTopic contractInterface eventType))
                      (receipt_events receipt))) as [e | decoded] eqn:Hdecoded;
    cbn [lift throw ret]; [discriminate |].
  unfold bind at 1.
  destruct (find_raising (field_matches logKey logValue) decoded) as [e | found] eqn:Hfound;
    cbn [lift throw ret]; [discriminate |].
  unfold bind, log, emit, modify, ret. intros [= -> _].
  destruct (find_raising_found _ _ _ _ Hfound) as [Hin Hmatch].
  split.
  - destruct (map_raising_member _ _ _ _ _ _ Hdecoded Hin) as (entry & Hentry & Hdecode).
    apply filter_In in Hentry. destruct Hentry as [Hmember Htopic].
    exists entry. split; [exact Hmember |]. split; [| exact Hdecode].
    unfold topics_include in Htopic. apply existsb_exists in Htopic.
    destruct Htopic as (topic & Htopic & Heq). apply String.eqb_eq in Heq. subst topic.
    exact Htopic.
  - unfold field_matches in Hmatch.
    destruct (at_key result logKey) as [[s | n | b] |]; try discriminate.
    exists s. split; [reflexivity |].
    injection Hmatch as Heq. apply String.eqb_eq. exact Heq.
Qed.

Lemma findEvent_result_matches_witness :
  exists s,
    at_key [("to", VString "0xB")] "to" = Some (VString s)
    /\ Js.toLocaleLowerCase s = Js.toLocaleLowerCase "0xb".
Proof.
  apply (findEvent_result_matches "Transfer" Scenario.transferInterface "to" "0xb"
           Scenario.three_logs Scenario.idle
           (record_events [EvLog LTrace "Searched for event logs"] Scenario.idle)
           [("to", VString "0xB")]).
  reflexivity.
Defined.

Lemma lower_ascii_idempotent :
  forall c : ascii, Js.lower_ascii (Js.lower_ascii c) = Js.lower_ascii c.
Proof.
  intros [[|] [|] [|] [|] [|] [|] [|] [|]]; reflexivity.
Qed.

Lemma toLocaleLowerCase_idempotent :
  forall s : string, Js.toLocaleLowerCase (Js.toLocaleLowerCase s) = Js.toLocaleLowerCase s.
Proof.
  induction s as [| c s IH]; [reflexivity |].
  cbn. rewrite lower_ascii_idempotent, IH. reflexivity.
Qed.

(** X22. The case of the letters of the value asked for does not matter:
    [findEvent] behaves on a value as on its lower-case form, whatever the
    receipt and the decoder. *)
Theorem findEvent_value_case_insensitive :
  forall (eventType : string) (contractInterface : Interface) (logKey logValue : string)
         (receipt : ContractReceipt) (w : World),
    findEvent eventType contractInterface logKey (Js.toLocaleLowerCase logValue) receipt w
    = findEvent eventType contractInterface logKey logValue receipt w.
Proof.
  intros eventType contractInterface logKey logValue receipt w.
  unfold findEvent.
  assert (Hpredicate : forall eventLogs,
             field_matches logKey (Js.toLocaleLowerCase logValue) eventLogs
             = field_matches logKey logValue eventLogs).
  { intros eventLogs. unfold field_matches.
    rewrite toLocaleLowerCase_idempotent. reflexivity. }
  assert (Hfind : forall decoded,
             find_raising (field_matches logKey (Js.toLocaleLowerCase logValue)) decoded
             = find_raising (field_matches logKey logValue) decoded).
  { induction decoded as [| eventLogs decoded IH]; [reflexivity |].
    cbn. rewrite Hpredicate, IH. reflexivity. }
  unfold bind.
  destruct (lift (map_raising _ _) w) as [[decoded | e | |] w1]; try reflexivity.
  rewrite Hfind. reflexivity.
Qed.

Lemma findEvent_raises_on_undecodable_entry_witness :
  findEvent "Transfer" Cases.strictInterface "to" "0xa" Scenario.three_logs Scenario.idle
  = (Throw (Error "data out-of-bounds" None), Scenario.idle).
Proof.
  apply (findEvent_raises_on_undecodable_entry "Transfer" Cases.strictInterface "to" "0xa"
           Scenario.three_logs Scenario.idle
           [ {| topics := ["topic:Transfer"]; data := "0xA" |} ]
           {| topics := ["topic:Transfer"]; data := "0xB" |} []).
  - reflexivity.
  - intros x [<- | []]. eexists. reflexivity.
  - reflexivity.
Defined.

(** ** Monitors *)


(** X24. [monitorIsOperator] grants operator status without asking the
    staking contract when the indexer address is the normalised wallet
    address, whatever the contract would have answered; otherwise it starts
    from the answer of the contract, and raises when that first call is
    rejected.  Its reducer keeps the previous value when a later call is
    rejected. *)
Theorem monitorIsOperator_identical_addresses :
  forall (toAddress : string -> string) (indexerAddress walletAddress : string)
         (initial : JsError + bool) (w : World),
    (indexerAddress = toAddress walletAddress ->
     monitorIsOperator toAddress indexerAddress walletAddress initial w
     = (Return (Mutable true),
        record_events
          [EvLog LInfo "Indexer and operator are identical, operator status granted"] w))
    /\ (indexerAddress <> toAddress walletAddress ->
        monitorIsOperator toAddress indexerAddress walletAddress initial w
        = match initial with
          | inl e => (Throw e, w)
          | inr isOperator => (Return (TimerReduce 60000 isOperator), w)
          end)
    /\ (forall e previous,
          monitorIsOperator_step (inl e) previous w
          = (Return previous,
             record_events
               [EvLog LWarn
                  "Failed to check operator status for indexer, assuming it has not changed"]
               w)).
Proof.
  intros toAddress indexerAddress walletAddress initial w.
  split; [| split].
  - intros Hsame. unfold monitorIsOperator.
    apply String.eqb_eq in Hsame. rewrite Hsame. reflexivity.
  - intros Hother. unfold monitorIsOperator.
    apply String.eqb_neq in Hother. rewrite Hother.
    destruct initial as [e | isOperator]; reflexivity.
  - intros e previous. reflexivity.
Qed.

Lemma monitorIsOperator_identical_addresses_witness :
  monitorIsOperator (fun address => Js.toLocaleLowerCase address) "0xab" "0xAB"
    (inl (Error "call revert exception" None)) Scenario.idle
  = (Return (Mutable true),
     record_events
       [EvLog LInfo "Indexer and operator are identical, operator status granted"]
       Scenario.idle).
Proof.
  apply (proj1 (monitorIsOperator_identical_addresses
                  (fun address => Js.toLocaleLowerCase address) "0xab" "0xAB"
                  (inl (Error "call revert exception" None)) Scenario.idle)).
  reflexivity.
Defined.

(** The reducer of the pause monitor on an answer without networks, and on an
    answer with two: the first flag counts. *)
Example monitorNetworkPauses_step_examples :
  monitorNetworkPauses_step (pause_answer []) true Scenario.idle
  = (Return true,
     record_events
       [EvLog LWarn "Failed to check for network pause, assuming it has not changed"]
       Scenario.idle)
  /\ monitorNetworkPauses_step
       (pause_answer [mkGraphNetwork false; mkGraphNetwork true]) true Scenario.idle
     = (Return false, Scenario.idle).
Proof. split; reflexivity. Qed.
